(** * roll_deps.py: the Skia DEPS roll script, embedded and verified

    The script rolls the Skia revision pinned in Chromium's DEPS file.
    This development embeds [tools/roll_deps.py] function by function:

    - Python 2 byte strings are lists of [ascii] characters;
    - the two [re.compile]d patterns and [re.sub] become a small
      backtracking matcher over lists of pattern elements;
    - everything that touches the file system, launches [git] or prints
      runs in a state-and-exception monad over a [World] record, where a
      raised Python exception is a [Raise] result that keeps the state
      reached so far;
    - [git] itself is an explicit model of the few commands the script
      issues, acting on a repository record. *)

From Stdlib Require Import Ascii String List ZArith Lia DecimalString.
From stdpp Require Import gmap strings.
Import ListNotations.

Set Default Goal Selector "!".

(** ** Byte strings *)

Abbreviation str := (list ascii).

(** [bs "text"] is the byte string with the characters of the literal. *)
Definition bs (s : string) : str := list_ascii_of_string s.

Definition dquote : ascii := "034"%char.
Definition backslash : ascii := "092"%char.
Definition newline : ascii := "010"%char.
Definition space : ascii := " "%char.
Definition underscore : ascii := "_"%char.
Definition comma : ascii := ","%char.

(** [string.whitespace] of Python 2 in the C locale: tab, line feed,
    vertical tab, form feed, carriage return and space. *)
Definition is_space (c : ascii) : bool :=
  let n := nat_of_ascii c in
  ((9 <=? n) && (n <=? 13) || (n =? 32))%nat.

Definition is_digit (c : ascii) : bool :=
  let n := nat_of_ascii c in ((48 <=? n) && (n <=? 57))%nat.

(** The character class [[0-9a-f]]. *)
Definition is_hex (c : ascii) : bool :=
  let n := nat_of_ascii c in
  is_digit c || ((97 <=? n) && (n <=? 102))%nat.

(** [s.lstrip()] *)
Fixpoint lstrip (s : str) : str :=
  match s with
  | c :: s' => if is_space c then lstrip s' else s
  | [] => []
  end.

(** [s.rstrip()] *)
Definition rstrip (s : str) : str :=
  fold_right (fun c acc =>
                match acc with
                | [] => if is_space c then [] else [c]
                | _ :: _ => c :: acc
                end) [] s.

(** [s.strip()] *)
Definition strip (s : str) : str := rstrip (lstrip s).

(** [s.split(sep)] for a separator of one character; the result is never
    empty: [''.split(',') == ['']]. *)
Fixpoint split (sep : ascii) (s : str) : list str :=
  match s with
  | [] => [[]]
  | c :: s' =>
      if Ascii.eqb c sep then [] :: split sep s'
      else match split sep s' with
           | h :: t => (c :: h) :: t
           | [] => [[c]]
           end
  end.

(** [s.replace(a, b)] for single characters. *)
Definition replace (a b : ascii) (s : str) : str :=
  map (fun c => if Ascii.eqb c a then b else c) s.

(** [sep.join(parts)] *)
Fixpoint join (sep : str) (parts : list str) : str :=
  match parts with
  | [] => []
  | [p] => p
  | p :: ps => p ++ sep ++ join sep ps
  end.

(** ['%d' % n] *)
Definition fmt_d (n : Z) : str :=
  bs (NilZero.string_of_int (Z.to_int n)).

(** Iterating over a file object yields its lines, each with its line
    feed; a last line without one is yielded as it is. *)
Fixpoint lines (s : str) : list str :=
  match s with
  | [] => []
  | c :: s' =>
      if Ascii.eqb c newline then [c] :: lines s'
      else match lines s' with
           | l :: ls => (c :: l) :: ls
           | [] => [[c]]
           end
  end.

(** ** branch_name *)

(** [message.lstrip().split('\n')[0].rstrip().replace(' ', '_')] *)
Definition branch_name (message : str) : str :=
  replace space underscore
    (rstrip (hd [] (split newline (lstrip message)))).


(** ** DepsRollConfig *)

Record Options := {
  opt_chromium_path : option str;
  opt_revision : option Z;
  opt_skia_git_path : option str;
  opt_search_depth : Z;
  opt_git_path : str;
  opt_save_branches : bool;
  opt_verbose : bool;
  opt_skip_cl_upload : bool;
  opt_bots : str
}.

Record DepsRollConfig := {
  skia_url : str;
  verbose : bool;
  save_branches : bool;
  search_depth : Z;
  chromium_path : option str;
  git : str;
  skip_cl_upload : bool;
  cl_bot_list : list str;
  skia_git_checkout_path : option str;
  default_branch_name : str
}.

(** A Python string is true when it is not empty. *)
Definition truthy (s : str) : bool :=
  match s with [] => false | _ :: _ => true end.

(** [[bot for bot in bots.split(',') if bot]] *)
Definition split_bots (bots : str) : list str :=
  List.filter (fun bot => truthy bot) (split comma bots).

Definition revision_format_prefix : str :=
  bs "git-svn-id: http://skia.googlecode.com/svn/trunk@".

(** [config.revision_format % revision] *)
Definition revision_format (revision : Z) : str :=
  revision_format_prefix ++ fmt_d revision ++ [space].

Definition mkDepsRollConfig (options : Options) : DepsRollConfig :=
  {| skia_url := bs "https://skia.googlesource.com/skia.git";
     verbose := opt_verbose options;
     save_branches := opt_save_branches options;
     search_depth := opt_search_depth options;
     chromium_path := opt_chromium_path options;
     git := opt_git_path options;
     skip_cl_upload := opt_skip_cl_upload options;
     cl_bot_list := split_bots (opt_bots options);
     skia_git_checkout_path := opt_skia_git_path options;
     default_branch_name := bs "autogenerated_deps_roll_branch" |}.

(** ** Regular expressions

    The patterns of the script use literal characters, single-character
    classes and a starred class.  [rmatch re s] is the number of
    characters a match of [re] anchored at the start of [s] consumes:
    the star is greedy and gives characters back when the rest of the
    pattern fails, as Python's matcher does. *)

Inductive relem :=
| RChar (c : ascii)
| RSet (cls : ascii -> bool)
| RStar (cls : ascii -> bool).

Abbreviation regex := (list relem).

Fixpoint star (cls : ascii -> bool) (k : str -> option nat) (s : str)
  : option nat :=
  match s with
  | c :: s' =>
      if cls c then
        match star cls k s' with
        | Some n => Some (S n)
        | None => k s
        end
      else k s
  | [] => k []
  end.

Fixpoint rmatch (re : regex) (s : str) {struct re} : option nat :=
  match re with
  | [] => Some 0%nat
  | RChar a :: re' =>
      match s with
      | c :: s' => if Ascii.eqb a c then S <$> rmatch re' s' else None
      | [] => None
      end
  | RSet cls :: re' =>
      match s with
      | c :: s' => if cls c then S <$> rmatch re' s' else None
      | [] => None
      end
  | RStar cls :: re' => star cls (rmatch re') s
  end.

(** [re.search]: the leftmost position at which the pattern matches,
    with the length of the match there. *)
Fixpoint search (re : regex) (s : str) : option (nat * nat) :=
  match rmatch re s with
  | Some n => Some (0%nat, n)
  | None =>
      match s with
      | [] => None
      | _ :: s' =>
          match search re s' with
          | Some (i, n) => Some (S i, n)
          | None => None
          end
      end
  end.

(** [pattern.sub(repl, s)] for a replacement inserted as it is: every
    match is replaced, scanning from the left and resuming after each
    match ([count] is left at its default, 0).  [skip] counts the
    characters of the current match still to be dropped.  The patterns
    below end in two literal characters, so no match is empty. *)
Fixpoint sub_from (re : regex) (repl : str) (skip : nat) (s : str) : str :=
  match s with
  | [] => []
  | c :: s' =>
      match skip with
      | S k => sub_from re repl k s'
      | O =>
          match rmatch re s with
          | Some (S k) => repl ++ sub_from re repl k s'
          | _ => c :: sub_from re repl 0 s'
          end
      end
  end.

Definition sub (re : regex) (repl : str) (s : str) : str :=
  sub_from re repl 0 s.

Definition lit (s : str) : regex := map RChar s.

Definition rev_key : str :=
  [dquote] ++ bs "skia_revision" ++ [dquote] ++ bs ": " ++ [dquote].

Definition hash_key : str :=
  [dquote] ++ bs "skia_hash" ++ [dquote] ++ bs ": " ++ [dquote].

Definition field_end : str := [dquote; comma].

(** [re.compile('"skia_revision": "[0-9]*",')] *)
Definition deps_regex_rev : regex :=
  lit rev_key ++ [RStar is_digit] ++ lit field_end.

(** [re.compile('"skia_hash": "[0-9a-f]*",')] *)
Definition deps_regex_hash : regex :=
  lit hash_key ++ [RStar is_hex] ++ lit field_end.

(** ['"skia_revision": "%d",' % revision] *)
Definition deps_regex_rev_repl (revision : Z) : str :=
  rev_key ++ fmt_d revision ++ field_end.

(** ['"skia_hash": "%s",' % git_hash] *)
Definition deps_regex_hash_repl (git_hash : str) : str :=
  hash_key ++ git_hash ++ field_end.

(** A replacement without a backslash is inserted literally. *)
Definition literal_template (repl : str) : bool :=
  forallb (fun c => negb (Ascii.eqb c backslash)) repl.

(** In a [git log --grep] pattern a dot stands for any character of the
    line; the patterns built from [revision_format] hold no other
    special character. *)
Definition grep_regex (pattern : str) : regex :=
  map (fun c => if Ascii.eqb c "."%char
                then RSet (fun d => negb (Ascii.eqb d newline))
                else RChar c) pattern.

Definition grep_matches (pattern message : str) : bool :=
  match search (grep_regex pattern) message with
  | Some _ => true
  | None => false
  end.

(** [re.search(prefix + '([0-9]+)' + last, s).group(1)], where every
    element of [prefix] consumes one character: the digits captured at
    the leftmost match. *)
Definition search_number (prefix : regex) (last : relem) (s : str)
  : option str :=
  match search (prefix ++ [RSet is_digit; RStar is_digit; last]) s with
  | Some (i, n) =>
      Some (firstn (n - length prefix - 1) (skipn (i + length prefix) s))
  | None => None
  end.

(** [int(digits)] for a string of decimal digits. *)
Definition int_of_digits (ds : str) : Z :=
  fold_left (fun acc c => (acc * 10 + Z.of_nat (nat_of_ascii c - 48))%Z) ds 0%Z.

(** ['git-svn-id: http://skia.googlecode.com/svn/trunk@([0-9]+) '] *)
Definition svn_format_prefix : regex :=
  grep_regex revision_format_prefix.

(** [r'Last Changed Rev: ([0-9]+)\W'] *)
Definition is_word (c : ascii) : bool :=
  let n := nat_of_ascii c in
  (is_digit c || ((65 <=? n) && (n <=? 90)) || ((97 <=? n) && (n <=? 122))
   || (n =? 95))%nat.

(** ** The world the script runs in *)

(** A regular file: its bytes and whether this user may read or write it. *)
Record File := {
  f_data : str;
  f_readable : bool;
  f_writable : bool
}.

(** The file system: files and directories by path, the names the
    [tempfile] module will try next, and whether the temporary directory
    lies on the file system of the checkout (so that [os.rename] from one
    to the other works). *)
Record FS := {
  files : gmap str File;
  dirs : gset str;
  tmp_names : nat -> str;
  tmp_next : nat;
  same_device : bool
}.

Inductive ref :=
| OnBranch (name : str)
| Detached (commit : str).

(** The Chromium checkout the script works in. *)
Record Repo := {
  head : ref;
  branches : gmap str str;        (* local branch, commit at its tip *)
  commits : gset str;             (* commits known to the checkout *)
  origin_master : str;            (* tip of origin/master *)
  stash : list (list str);        (* stashed sets of changed paths *)
  modified : list str;            (* changed paths, not staged *)
  staged : list str;              (* changed paths in the index *)
  submodules : list str;          (* submodules with changes inside *)
  ignored : gset str;             (* untracked paths an ignore file excludes *)
  commit_ids : nat -> str;        (* ids the next commits will get *)
  commit_count : nat
}.

Record Commit := {
  c_hash : str;
  c_message : str
}.

(** Skia's repository: the history of master at the remote, newest
    first, and the history of origin/master in each local checkout. *)
Record Skia := {
  remote : list Commit;
  network : bool;
  checkouts : gmap str (list Commit)
}.

(** What the opaque commands answer: exit status of [git cl upload] and
    [git cl try], status and output of [git cl issue] and [git svn info]. *)
Record Review := {
  cl_upload_status : Z;
  cl_issue : Z * str;
  cl_try_status : Z;
  svn_info : Z * str
}.

(** An executable is git, or some other program that only exits with a
    fixed status. *)
Inductive Program :=
| GitProgram
| OtherProgram (status : Z).

(** The commands the script issues, with [argv] giving the argument list
    written in the source. *)
Inductive GitCmd :=
| Version
| Clone (depth : Z) (url dir : str)
| Fetch
| LogTipMessage
| ShowRefHash
| LogGrep (pattern : str)
| ShowRefQuiet (branch : str)
| DiffQuiet
| StashSave
| StashPop
| SymbolicRef
| RevParseHead
| Checkout (branch : str)
| CheckoutNew (branch : str)
| BranchDelete (branch : str)
| SvnInfo
| Add (filename : str)
| CommitMsg (message : str)
| ClUpload
| ClIssue
| ClTry (revision : str) (bots : list str).

Definition argv (exe : str) (cmd : GitCmd) : list str :=
  exe ::
  match cmd with
  | Version => [bs "--version"]
  | Clone depth url dir =>
      [bs "clone"; bs "-q"; bs "--depth=" ++ fmt_d depth;
       bs "--single-branch"; url; dir]
  | Fetch => [bs "fetch"; bs "-q"; bs "origin"]
  | LogTipMessage =>
      [bs "log"; bs "-n"; bs "1"; bs "--format=format:%B";
       bs "origin/master"]
  | ShowRefHash => [bs "show-ref"; bs "origin/master"; bs "--hash"]
  | LogGrep pattern =>
      [bs "log"; bs "--grep"; pattern; bs "--format=format:%H";
       bs "origin/master"]
  | ShowRefQuiet branch => [bs "show-ref"; bs "--quiet"; branch]
  | DiffQuiet => [bs "diff"; bs "--quiet"; bs "HEAD"]
  | StashSave => [bs "stash"; bs "save"]
  | StashPop => [bs "stash"; bs "pop"]
  | SymbolicRef => [bs "symbolic-ref"; bs "--short"; bs "HEAD"]
  | RevParseHead => [bs "rev-parse"; bs "HEAD"]
  | Checkout branch => [bs "checkout"; bs "-q"; branch]
  | CheckoutNew branch =>
      [bs "checkout"; bs "-q"; bs "-b"; branch; bs "origin/master"]
  | BranchDelete branch => [bs "branch"; bs "-q"; bs "-D"; branch]
  | SvnInfo => [bs "svn"; bs "info"]
  | Add filename => [bs "add"; filename]
  | CommitMsg message => [bs "commit"; bs "-q"; bs "-m"; message]
  | ClUpload =>
      [bs "cl"; bs "upload"; bs "-f"; bs "--cc=skia-team@google.com";
       bs "--bypass-hooks"; bs "--bypass-watchlists"]
  | ClIssue => [bs "cl"; bs "issue"]
  | ClTry revision bots =>
      [bs "cl"; bs "try"; bs "--revision"; revision]
        ++ concat (map (fun bot => [bs "-b"; bot]) bots)
  end.

(** What a run leaves behind for an observer: the processes launched and
    the lines printed. *)
Inductive Event :=
| Ran (exe : str) (cmd : GitCmd)
| Printed (line : str).

Record World := {
  fs : FS;
  programs : gmap str Program;
  skia : Skia;
  repo : Repo;
  review : Review;
  trace : list Event
}.

Definition set_fs (f : FS) (w : World) : World :=
  {| fs := f; programs := programs w; skia := skia w; repo := repo w;
     review := review w; trace := trace w |}.

Definition set_skia (s : Skia) (w : World) : World :=
  {| fs := fs w; programs := programs w; skia := s; repo := repo w;
     review := review w; trace := trace w |}.

Definition set_repo (r : Repo) (w : World) : World :=
  {| fs := fs w; programs := programs w; skia := skia w; repo := r;
     review := review w; trace := trace w |}.

Definition log (e : Event) (w : World) : World :=
  {| fs := fs w; programs := programs w; skia := skia w; repo := repo w;
     review := review w; trace := trace w ++ [e] |}.

Definition set_files (m : gmap str File) (f : FS) : FS :=
  {| files := m; dirs := dirs f; tmp_names := tmp_names f;
     tmp_next := tmp_next f; same_device := same_device f |}.

Definition set_dirs (d : gset str) (f : FS) : FS :=
  {| files := files f; dirs := d; tmp_names := tmp_names f;
     tmp_next := tmp_next f; same_device := same_device f |}.

Definition bump_tmp (f : FS) : FS :=
  {| files := files f; dirs := dirs f; tmp_names := tmp_names f;
     tmp_next := S (tmp_next f); same_device := same_device f |}.

Definition set_checkouts (m : gmap str (list Commit)) (s : Skia) : Skia :=
  {| remote := remote s; network := network s; checkouts := m |}.

(** ** The monad: state and exceptions *)

Inductive exn :=
| IOError
| OSError
| CalledProcessError
| DepsRollError
| AssertionError
| ReError
| UsageError.

Inductive result (A : Type) :=
| Ok (a : A)
| Raise (e : exn).
Arguments Ok {A} a.
Arguments Raise {A} e.

Definition M (A : Type) : Type := World -> result A * World.

Definition ret {A} (a : A) : M A := fun w => (Ok a, w).

Definition raise {A} (e : exn) : M A := fun w => (Raise e, w).

Definition bind {A B} (m : M A) (f : A -> M B) : M B :=
  fun w =>
    match m w with
    | (Ok a, w') => f a w'
    | (Raise e, w') => (Raise e, w')
    end.

Notation "x <- m ;; k" := (bind m (fun x => k))
  (at level 100, m at next level, right associativity).
Notation "m ;;; k" := (bind m (fun _ => k))
  (at level 100, right associativity).

(** [try: body finally: final] *)
Definition try_finally {A} (body : M A) (final : M unit) : M A :=
  fun w =>
    match body w with
    | (r, w') =>
        match final w' with
        | (Ok _, w'') => (r, w'')
        | (Raise e, w'') => (Raise e, w'')
        end
    end.

(** [try: body except (kinds) as error: handler error] *)
Definition try_except {A} (body : M A) (kinds : exn -> bool)
    (handler : exn -> M A) : M A :=
  fun w =>
    match body w with
    | (Ok a, w') => (Ok a, w')
    | (Raise e, w') => if kinds e then handler e w' else (Raise e, w')
    end.

(** [for x in xs: body x] *)
Fixpoint for_each {A} (xs : list A) (body : A -> M unit) : M unit :=
  match xs with
  | [] => ret tt
  | x :: xs' => body x ;;; for_each xs' body
  end.

Definition when (b : bool) (m : M unit) : M unit :=
  if b then m else ret tt.

(** [assert b] *)
Definition assert (b : bool) : M unit :=
  if b then ret tt else raise AssertionError.

(** [print line] *)
Definition print (line : str) : M unit :=
  fun w => (Ok tt, log (Printed line) w).

(** ** File system primitives *)

Definition exists_path (p : str) (f : FS) : bool :=
  bool_decide (p ∈ dirs f)
  || match files f !! p with Some _ => true | None => false end.

(** [os.path.exists(p)] *)
Definition os_path_exists (p : str) : M bool :=
  fun w => (Ok (exists_path p (fs w)), w).

(** [os.path.isdir(p)] *)
Definition os_path_isdir (p : str) : M bool :=
  fun w => (Ok (bool_decide (p ∈ dirs (fs w))), w).

(** The name [tempfile] gives the next temporary file or directory.  The
    module tries random names until one is free and gives up with
    [IOError] after too many; here it tries one name, and a taken name
    stands for giving up. *)
Definition next_tmp_name (prefix : str) (f : FS) : str :=
  prefix ++ tmp_names f (tmp_next f).

(** [tempfile.mkdtemp(prefix=prefix)] *)
Definition mkdtemp (prefix : str) : M str :=
  fun w =>
    let f := fs w in
    let name := next_tmp_name prefix f in
    if exists_path name f then (Raise IOError, w)
    else (Ok name, set_fs (set_dirs ({[name]} ∪ dirs f) (bump_tmp f)) w).

Definition empty_file : File :=
  {| f_data := []; f_readable := true; f_writable := true |}.

(** [tempfile.NamedTemporaryFile(delete=False, prefix=prefix)]; the file
    object is identified with its name. *)
Definition NamedTemporaryFile (prefix : str) : M str :=
  fun w =>
    let f := fs w in
    let name := next_tmp_name prefix f in
    if exists_path name f then (Raise IOError, w)
    else (Ok name,
          set_fs (set_files (<[name := empty_file]> (files f)) (bump_tmp f)) w).

(** [temp_file.write(data)]: the bytes are appended. *)
Definition file_write (name : str) (data : str) : M unit :=
  fun w =>
    let f := fs w in
    let old := default empty_file (files f !! name) in
    let new := {| f_data := f_data old ++ data;
                  f_readable := f_readable old;
                  f_writable := f_writable old |} in
    (Ok tt, set_fs (set_files (<[name := new]> (files f)) f) w).

(** [temp_file.close()] *)
Definition file_close (name : str) : M unit := ret tt.

(** [open(path, 'r')] and the lines the loop over it sees. *)
Definition open_read (path : str) : M (list str) :=
  fun w =>
    match files (fs w) !! path with
    | Some f => if f_readable f then (Ok (lines (f_data f)), w)
                else (Raise IOError, w)
    | None => (Raise IOError, w)
    end.

(** [shutil.rmtree(dir)]; a checkout inside the directory goes with it. *)
Definition rmtree (dir : str) : M unit :=
  fun w =>
    if bool_decide (dir ∈ dirs (fs w)) then
      (Ok tt,
       set_skia (set_checkouts (delete dir (checkouts (skia w))) (skia w))
         (set_fs (set_dirs (dirs (fs w) ∖ {[dir]}) (fs w)) w))
    else (Raise OSError, w).

(** [shutil.move(src, dst)] for a regular file [src].  A destination that
    is a directory receives the file under its own name.  [os.rename]
    replaces the destination whatever its permission bits, and works
    between paths of one file system; otherwise the file is copied with
    [copy2], which opens the destination for writing and gives it the
    source's permission bits, and the source is unlinked.  The copy is
    refused at once when the destination cannot be opened for writing;
    a copy that breaks off later (a write error, a failing [copystat]),
    with the destination already truncated, has no place in [FS] and is
    not among the outcomes here: nothing below is stated about what a
    failing move leaves at the destination. *)
Definition shutil_move (src dst : str) : M unit :=
  fun w =>
    let f := fs w in
    let into_dir := bool_decide (dst ∈ dirs f) in
    let real_dst := if into_dir then dst ++ bs "/" ++ src else dst in
    if into_dir && exists_path real_dst f then (Raise OSError, w)
    else
      match files f !! src with
      | None => (Raise IOError, w)
      | Some sf =>
          let moved :=
            set_fs (set_files (<[real_dst := sf]> (delete src (files f))) f) w in
          if same_device f || bool_decide (src = real_dst) then (Ok tt, moved)
          else
            match files f !! real_dst with
            | Some df => if f_writable df then (Ok tt, moved)
                         else (Raise IOError, w)
            | None => (Ok tt, moved)
            end
      end.

(** ** git *)

Global Instance ref_eq_dec : EqDecision ref.
Proof. solve_decision. Defined.

Definition set_head (h : ref) (r : Repo) : Repo :=
  {| head := h; branches := branches r; commits := commits r;
     origin_master := origin_master r; stash := stash r;
     modified := modified r; staged := staged r;
     submodules := submodules r; ignored := ignored r;
     commit_ids := commit_ids r; commit_count := commit_count r |}.

Definition set_branches (b : gmap str str) (r : Repo) : Repo :=
  {| head := head r; branches := b; commits := commits r;
     origin_master := origin_master r; stash := stash r;
     modified := modified r; staged := staged r;
     submodules := submodules r; ignored := ignored r;
     commit_ids := commit_ids r; commit_count := commit_count r |}.

Definition set_changes (st : list (list str)) (m s : list str) (r : Repo)
  : Repo :=
  {| head := head r; branches := branches r; commits := commits r;
     origin_master := origin_master r; stash := st;
     modified := m; staged := s;
     submodules := submodules r; ignored := ignored r;
     commit_ids := commit_ids r; commit_count := commit_count r |}.

(** A new commit on top of HEAD: the branch HEAD is on moves to it, a
    detached HEAD moves itself. *)
Definition add_commit (r : Repo) : Repo :=
  let c := commit_ids r (commit_count r) in
  {| head := match head r with
             | OnBranch b => OnBranch b
             | Detached _ => Detached c
             end;
     branches := match head r with
                 | OnBranch b => <[b := c]> (branches r)
                 | Detached _ => branches r
                 end;
     commits := {[c]} ∪ commits r;
     origin_master := origin_master r; stash := stash r;
     modified := modified r; staged := [];
     submodules := submodules r; ignored := ignored r;
     commit_ids := commit_ids r; commit_count := S (commit_count r) |}.

(** What git takes for the id of a commit: hexadecimal digits. *)
Definition is_commit_id (name : str) : bool :=
  truthy name && forallb is_hex name.

(** The commands that act on the Chromium checkout: exit status, standard
    output and the checkout afterwards.  [git checkout name] switches to
    the branch of that name if there is one, and else detaches HEAD at
    the commit of that id; for [master], the one branch the remote is
    known to have, it else creates the local branch from [origin/master].
    [git diff HEAD] reports the changed paths and the changes inside
    submodules; [git stash save] saves the changed paths only, and
    returns with status 0 when it finds none.  [git add] refuses a path
    that does not exist and one that is ignored; any other path that
    exists is one git tracks. *)
Definition repo_step (file_exists : str -> bool) (cmd : GitCmd) (r : Repo)
  : Z * str * Repo :=
  match cmd with
  | ShowRefQuiet b =>
      (match branches r !! b with Some _ => 0 | None => 1 end, [], r)%Z
  | DiffQuiet =>
      (match modified r ++ staged r ++ submodules r with
       | [] => 0
       | _ :: _ => 1
       end, [], r)%Z
  | StashSave =>
      match modified r ++ staged r with
      | [] => (0%Z, [], r)
      | ch => (0%Z, [], set_changes (ch :: stash r) [] [] r)
      end
  | StashPop =>
      match stash r with
      | [] => (1%Z, [], r)
      | ch :: rest =>
          (0%Z, [], set_changes rest (ch ++ modified r) (staged r) r)
      end
  | SymbolicRef =>
      match head r with
      | OnBranch b => (0%Z, b ++ [newline], r)
      | Detached _ => (128%Z, [], r)
      end
  | RevParseHead =>
      match head r with
      | OnBranch b =>
          match branches r !! b with
          | Some c => (0%Z, c ++ [newline], r)
          | None => (128%Z, [], r)
          end
      | Detached c => (0%Z, c ++ [newline], r)
      end
  | Checkout b =>
      match branches r !! b with
      | Some _ => (0%Z, [], set_head (OnBranch b) r)
      | None =>
          if is_commit_id b && bool_decide (b ∈ commits r)
          then (0%Z, [], set_head (Detached b) r)
          else if bool_decide (b = bs "master")
          then (0%Z, [],
                set_head (OnBranch b)
                  (set_branches (<[b := origin_master r]> (branches r)) r))
          else (1%Z, [], r)
      end
  | CheckoutNew b =>
      match branches r !! b with
      | Some _ => (128%Z, [], r)
      | None =>
          (0%Z, [],
           set_head (OnBranch b)
             (set_branches (<[b := origin_master r]> (branches r)) r))
      end
  | BranchDelete b =>
      match branches r !! b with
      | None => (1%Z, [], r)
      | Some _ =>
          if bool_decide (head r = OnBranch b) then (1%Z, [], r)
          else (0%Z, [], set_branches (delete b (branches r)) r)
      end
  | Add f =>
      if file_exists f then
        if bool_decide (f ∈ modified r) then
          (0%Z, [],
           set_changes (stash r)
             (List.filter (fun p => negb (bool_decide (p = f))) (modified r))
             (f :: staged r) r)
        else if bool_decide (f ∈ ignored r) then (1%Z, [], r)
        else (0%Z, [], r)
      else (128%Z, [], r)
  | CommitMsg _ =>
      match staged r with
      | [] => (1%Z, [], r)
      | _ :: _ => (0%Z, [], add_commit r)
      end
  | _ => (129%Z, [], r)
  end.

(** What [origin/master] of a checkout shows after [git fetch]: the
    commits of the remote down to the first one the checkout already
    holds, and from there on what the checkout has.  A shallow checkout
    stays as shallow as it was; a history that has nothing in common with
    the checkout's comes whole. *)
Fixpoint held_from (hash : str) (history : list Commit) : option (list Commit) :=
  match history with
  | [] => None
  | c :: rest =>
      if bool_decide (c_hash c = hash) then Some (c :: rest)
      else held_from hash rest
  end.

Fixpoint fetched (remote history : list Commit) : list Commit :=
  match remote with
  | [] => []
  | c :: rest =>
      match held_from (c_hash c) history with
      | Some held => held
      | None => c :: fetched rest history
      end
  end.

(** The commands that read Skia's history in the checkout at [dir]. *)
Definition skia_step (cmd : GitCmd) (dir : str) (s : Skia) : Z * str * Skia :=
  match checkouts s !! dir with
  | None => (128%Z, [], s)
  | Some history =>
      match cmd with
      | Fetch =>
          if network s
          then (0%Z, [],
                set_checkouts (<[dir := fetched (remote s) history]> (checkouts s))
                  s)
          else (128%Z, [], s)
      | LogTipMessage =>
          match history with
          | c :: _ => (0%Z, c_message c, s)
          | [] => (128%Z, [], s)
          end
      | ShowRefHash =>
          match history with
          | c :: _ => (0%Z, c_hash c ++ [newline], s)
          | [] => (1%Z, [], s)
          end
      | LogGrep pattern =>
          match history with
          | _ :: _ =>
              (0%Z,
               join [newline]
                 (map c_hash
                    (List.filter (fun c => grep_matches pattern (c_message c))
                       history)),
               s)
          | [] => (128%Z, [], s)
          end
      | _ => (129%Z, [], s)
      end
  end.

(** [git clone] reads the number after [--depth=] as C does: [strtol]
    stops at the ends of the range of a 64-bit [long], and the value is
    then kept in a 32-bit [int].  The clone is refused unless that [int]
    is positive. *)
Definition c_long (n : Z) : Z :=
  Z.max (- 2 ^ 63) (Z.min n (2 ^ 63 - 1)).

Definition c_int (n : Z) : Z := (n + 2 ^ 31) mod 2 ^ 32 - 2 ^ 31.

Definition git_depth (depth : Z) : Z := c_int (c_long depth).

(** One run of git: [cwd] is the [cwd=] argument of the call, absent for
    the commands run in the Chromium checkout. *)
Definition git_exec (cmd : GitCmd) (cwd : option str) (w : World)
  : Z * str * World :=
  match cmd, cwd with
  | Version, _ => (0%Z, [], w)
  | Clone depth url dir, _ =>
      if network (skia w) && (0 <? git_depth depth)%Z
         && bool_decide (dir ∈ dirs (fs w))
      then (0%Z, [],
            set_skia
              (set_checkouts
                 (<[dir := firstn (Z.to_nat (git_depth depth)) (remote (skia w))]>
                    (checkouts (skia w))) (skia w)) w)
      else (128%Z, [], w)
  | ClUpload, _ => (cl_upload_status (review w), [], w)
  | ClIssue, _ => (fst (cl_issue (review w)), snd (cl_issue (review w)), w)
  | ClTry _ _, _ => (cl_try_status (review w), [], w)
  | SvnInfo, _ => (fst (svn_info (review w)), snd (svn_info (review w)), w)
  | _, Some dir =>
      let '(st, out, s) := skia_step cmd dir (skia w) in
      (st, out, set_skia s w)
  | _, None =>
      let '(st, out, r) :=
        repo_step (fun p => exists_path p (fs w)) cmd (repo w) in
      (st, out, set_repo r w)
  end.

(** [subprocess.call]: [OSError] when the executable cannot be launched,
    else the exit status (with the standard output, for the callers that
    capture it). *)
Definition subprocess_call (exe : str) (cmd : GitCmd) (cwd : option str)
  : M (Z * str) :=
  fun w =>
    match programs w !! exe with
    | None => (Raise OSError, w)
    | Some (OtherProgram st) => (Ok (st, []), log (Ran exe cmd) w)
    | Some GitProgram =>
        let '(st, out, w') := git_exec cmd cwd (log (Ran exe cmd) w) in
        (Ok (st, out), w')
    end.

(** [subprocess.check_call] *)
Definition check_call (exe : str) (cmd : GitCmd) (cwd : option str) : M unit :=
  r <- subprocess_call exe cmd cwd ;;
  if (fst r =? 0)%Z then ret tt else raise CalledProcessError.

(** [subprocess.check_output] *)
Definition check_output (exe : str) (cmd : GitCmd) (cwd : option str) : M str :=
  r <- subprocess_call exe cmd cwd ;;
  if (fst r =? 0)%Z then ret (snd r) else raise CalledProcessError.

(** [strip_output]: [str(subprocess.check_output(...)).strip()] *)
Definition strip_output (exe : str) (cmd : GitCmd) (cwd : option str) : M str :=
  out <- check_output exe cmd cwd ;;
  ret (strip out).

(** ** The script *)

Definition is_OSError (e : exn) : bool :=
  match e with OSError => true | _ => false end.

Definition is_CalledProcessError (e : exn) : bool :=
  match e with CalledProcessError => true | _ => false end.

(** [test_git_executable]: the call is only tried; its exit status is not
    looked at. *)
Definition test_git_executable (git_executable : str) : M bool :=
  try_except
    (subprocess_call git_executable Version None ;;; ret true)
    is_OSError
    (fun _ => ret false).

(** [create_temp_skia_clone] *)
Definition create_temp_skia_clone (config : DepsRollConfig) (depth : Z)
  : M str :=
  let git := git config in
  skia_dir <- mkdtemp (bs "git_skia_tmp_") ;;
  try_except
    (check_call git (Clone depth (skia_url config) skia_dir) None ;;;
     ret skia_dir)
    (fun e => is_OSError e || is_CalledProcessError e)
    (fun error => rmtree skia_dir ;;; raise error).

Definition last_changed_rev : regex := lit (bs "Last Changed Rev: ").

(** [find_revision_and_hash].  The [try] block first settles [skia_dir]
    and [use_temp]; if that part raises, [use_temp] is still [False] and
    the [finally] clause does nothing, so the clause is attached to the
    rest of the block, which runs with both variables set. *)
Definition find_revision_and_hash (config : DepsRollConfig)
    (revision : option Z) : M (Z * str) :=
  let git := git config in
  let depth := match revision with
               | None => 1%Z
               | Some _ => search_depth config
               end in
  located <-
    match skia_git_checkout_path config with
    | Some (c :: path) =>
        (* Update origin/master if needed. *)
        check_call git Fetch (Some (c :: path)) ;;;
        ret (c :: path, false)
    | _ =>
        skia_dir <- create_temp_skia_clone config depth ;;
        assert (truthy skia_dir) ;;;
        ret (skia_dir, true)
    end ;;
  let skia_dir := fst located in
  let use_temp := snd located in
  try_finally
    (found <-
       match revision with
       | None =>
           message <- check_output git LogTipMessage (Some skia_dir) ;;
           match search_number svn_format_prefix (RChar space) message with
           | None => raise DepsRollError
           | Some digits =>
               git_hash <- strip_output git ShowRefHash (Some skia_dir) ;;
               ret (int_of_digits digits, git_hash)
           end
       | Some revision =>
           let revision_regex := revision_format revision in
           git_hash <-
             strip_output git (LogGrep revision_regex) (Some skia_dir) ;;
           ret (revision, git_hash)
       end ;;
     if (fst found <? 0)%Z || negb (truthy (snd found))
     then raise DepsRollError
     else ret found)
    (when use_temp (rmtree skia_dir)).

(** The state of a [GitBranchCLUpload] object. *)
Record GitBranchCLUpload := {
  t_message : str;
  t_file_list : list str;
  t_branch_name : option str;
  t_stash : option bool;
  t_original_branch : option str;
  t_config : DepsRollConfig;
  t_svn_info : option str;
  issue : option str
}.

(** [GitBranchCLUpload.__init__] *)
Definition mkGitBranchCLUpload (config : DepsRollConfig) (message : str)
    (set_branch_name : option str) : GitBranchCLUpload :=
  {| t_message := message; t_file_list := [];
     t_branch_name := set_branch_name; t_stash := None;
     t_original_branch := None; t_config := config;
     t_svn_info := None; issue := None |}.

(** [stage_for_commit]: [self._file_list.extend(paths)] *)
Definition stage_for_commit (self : GitBranchCLUpload) (paths : list str)
  : GitBranchCLUpload :=
  {| t_message := t_message self;
     t_file_list := t_file_list self ++ paths;
     t_branch_name := t_branch_name self; t_stash := t_stash self;
     t_original_branch := t_original_branch self;
     t_config := t_config self; t_svn_info := t_svn_info self;
     issue := issue self |}.

Definition branch_exists (git branch : str) : M bool :=
  r <- subprocess_call git (ShowRefQuiet branch) None ;;
  ret (fst r =? 0)%Z.

Definition has_diff (git : str) : M bool :=
  r <- subprocess_call git DiffQuiet None ;;
  ret (negb (fst r =? 0)%Z).

(** [GitBranchCLUpload.__enter__] *)
Definition __enter__ (self : GitBranchCLUpload) : M GitBranchCLUpload :=
  let config := t_config self in
  let git := git config in
  stash <- has_diff git ;;
  when stash (check_call git StashSave None) ;;;
  original_branch <-
    try_except (strip_output git SymbolicRef None)
      is_CalledProcessError
      (fun _ => strip_output git RevParseHead None) ;;
  let branch_name :=
    match t_branch_name self with
    | Some (c :: name) => c :: name
    | _ => default_branch_name config
    end in
  present <- branch_exists git branch_name ;;
  when present
    (check_call git (Checkout (bs "master")) None ;;;
     check_call git (BranchDelete branch_name) None) ;;;
  check_call git (CheckoutNew branch_name) None ;;;
  svn_info <- check_output (bs "git") SvnInfo None ;;
  match search_number last_changed_rev (RSet (fun c => negb (is_word c)))
          svn_info with
  | None => raise AssertionError
  | Some digits =>
      ret {| t_message := t_message self;
             t_file_list := t_file_list self;
             t_branch_name := Some branch_name;
             t_stash := Some stash;
             t_original_branch := Some original_branch;
             t_config := config;
             t_svn_info := Some digits;
             issue := issue self |}
  end.

(** [quiet_check_call]: [check_call] with the output sent to the null
    device; the output of a checked call is not part of the model. *)
Definition quiet_check_call (exe : str) (cmd : GitCmd) : M unit :=
  check_call exe cmd None.

(** [GitBranchCLUpload.__exit__] *)
Definition __exit__ (self : GitBranchCLUpload) : M GitBranchCLUpload :=
  let config := t_config self in
  let git := git config in
  let branch_name := default [] (t_branch_name self) in
  for_each (t_file_list self)
    (fun filename =>
       present <- os_path_exists filename ;;
       assert present ;;;
       check_call git (Add filename) None) ;;;
  check_call git (CommitMsg (t_message self)) None ;;;
  let git_cl := ClUpload in
  let git_try := ClTry (default [] (t_svn_info self)) (cl_bot_list config) in
  let have_bots := match cl_bot_list config with [] => false | _ => true end in
  new_issue <-
    (if skip_cl_upload config then
       print (join [space] (argv git git_cl)) ;;;
       print [] ;;;
       when have_bots
         (print (join [space] (argv git git_try)) ;;;
          print []) ;;;
       ret []
     else
       (if verbose config then
          check_call git git_cl None ;;;
          print []
        else quiet_check_call git git_cl) ;;;
       uploaded <- strip_output git ClIssue None ;;
       when have_bots
         (if verbose config then
            check_call git git_try None ;;;
            print []
          else quiet_check_call git git_try) ;;;
       ret uploaded) ;;
  (* deal with the aftermath of failed executions of this script. *)
  let original_branch :=
    if bool_decide (Some (default_branch_name config) = t_original_branch self)
    then bs "master"
    else default [] (t_original_branch self) in
  check_call git (Checkout original_branch) None ;;;
  when (bool_decide (default_branch_name config = branch_name))
    (check_call git (BranchDelete branch_name) None) ;;;
  when (default false (t_stash self))
    (check_call git StashPop None) ;;;
  ret {| t_message := t_message self;
         t_file_list := t_file_list self;
         t_branch_name := t_branch_name self;
         t_stash := t_stash self;
         t_original_branch := Some original_branch;
         t_config := config;
         t_svn_info := t_svn_info self;
         issue := Some new_issue |}.

(** The body of a [with] block: it may change the world and the object
    (by [stage_for_commit]) and ends normally or by raising; the object
    it leaves is the one [__exit__] sees in both cases. *)
Definition Body : Type :=
  GitBranchCLUpload -> World -> result unit * GitBranchCLUpload * World.

(** [with codereview: body].  [__exit__] returns nothing, so an
    exception of the body is raised again after it; an exception of
    [__exit__] itself replaces it. *)
Definition with_block (codereview : GitBranchCLUpload) (body : Body)
  : M GitBranchCLUpload :=
  fun w =>
    match __enter__ codereview w with
    | (Raise e, w1) => (Raise e, w1)
    | (Ok self1, w1) =>
        match body self1 w1 with
        | (outcome, self2, w2) =>
            match __exit__ self2 w2 with
            | (Raise e, w3) => (Raise e, w3)
            | (Ok self3, w3) =>
                match outcome with
                | Ok _ => (Ok self3, w3)
                | Raise e => (Raise e, w3)
                end
            end
        end
    end.

(** [change_skia_deps] works line by line: both substitutions, then the
    write.  A replacement holding a backslash is not inserted as it is
    (Python expands escapes and group references in it); that expansion
    is outside this development, which stops such a call with [ReError]. *)
Definition re_sub (re : regex) (repl : str) (s : str) : M str :=
  if literal_template repl then ret (sub re repl s) else raise ReError.

(** [change_skia_deps] *)
Definition change_skia_deps (revision : Z) (git_hash : str) (depspath : str)
  : M unit :=
  temp_file <- NamedTemporaryFile (bs "skia_DEPS_ROLL_tmp_") ;;
  try_finally
    (let deps_regex_rev_repl := deps_regex_rev_repl revision in
     let deps_regex_hash_repl := deps_regex_hash_repl git_hash in
     input_stream <- open_read depspath ;;
     for_each input_stream
       (fun line =>
          line <- re_sub deps_regex_rev deps_regex_rev_repl line ;;
          line <- re_sub deps_regex_hash deps_regex_hash_repl line ;;
          file_write temp_file line))
    (file_close temp_file) ;;;
  shutil_move temp_file depspath.

(** [option_parser.error(message)]: the message goes out with the usage
    text and the process exits with status 2. *)
Definition parser_error {A} (message : str) : M A :=
  print message ;;; raise UsageError.

Section Main.

(** The rest of a run, [find_hash_and_roll_deps], is kept abstract:
    [main] reaches it only after its three checks. *)
Variable find_hash_and_roll_deps : DepsRollConfig -> option Z -> M unit.

(** [main], from the parsed options on. *)
Definition main (options : Options) : M unit :=
  match opt_chromium_path options with
  | Some (c :: path) =>
      is_dir <- os_path_isdir (c :: path) ;;
      when (negb is_dir)
        (parser_error (bs "chromium_path must be a directory.")) ;;;
      git_ok <- test_git_executable (opt_git_path options) ;;
      when (negb git_ok) (parser_error (bs "Invalid git executable.")) ;;;
      let config := mkDepsRollConfig options in
      find_hash_and_roll_deps config (opt_revision options)
  | _ => parser_error (bs "Must specify chromium_path.")
  end.

End Main.

(** ** Notions used in the statements *)

(** A name without white space, as git requires of branch names and
    prints for commit ids. *)
Definition no_space (s : str) : bool := forallb (fun c => negb (is_space c)) s.

(** A field of the manifest: the key, a run of characters of the class,
    then the closing quote and the comma. *)
Definition is_field (key : str) (cls : ascii -> bool) (f : str) : Prop :=
  exists v, forallb cls v = true /\ f = key ++ v ++ field_end.

(** The pattern of a field. *)
Definition field_regex (key : str) (cls : ascii -> bool) : regex :=
  lit key ++ [RStar cls] ++ lit field_end.

(** The positions of [s] at which [re] matches. *)
Fixpoint matches_at (re : regex) (s : str) : list nat :=
  match rmatch re s with Some _ => [0%nat] | None => [] end
  ++ match s with
     | [] => []
     | _ :: s' => map S (matches_at re s')
     end.

(** [replaced_all key cls repl s out]: [out] is [s] with every field
    replaced by [repl], the fields being found from the left, each
    search resuming after the field before. *)
Inductive replaced_all (key : str) (cls : ascii -> bool) (repl : str)
  : str -> str -> Prop :=
| replaced_none s :
    (forall x f y, s = x ++ f ++ y -> ~ is_field key cls f) ->
    replaced_all key cls repl s s
| replaced_next gap f rest out :
    is_field key cls f ->
    (forall x f' y, gap ++ f ++ rest = x ++ f' ++ y -> is_field key cls f' ->
                    length gap <= length x) ->
    replaced_all key cls repl rest out ->
    replaced_all key cls repl (gap ++ f ++ rest) (gap ++ repl ++ out).

(** The shape both kinds of field share: a key, a value without quote
    and without the letter s, the closing quote and the comma. *)
Definition plain (c : ascii) : Prop := c <> dquote /\ c <> "s"%char.

Definition shaped (key f : str) : Prop :=
  exists v, Forall plain v /\ f = key ++ v ++ field_end.

(** In the key, a quote is followed by the letter s at the start only;
    the key ends with a quote and starts with a quote and the letter s. *)
Definition key_ok (key : str) : Prop :=
  (forall j, nth_error key j = Some dquote ->
             nth_error key (S j) = Some "s"%char -> j = 0%nat)
  /\ nth_error key 0 = Some dquote
  /\ nth_error key 1 = Some "s"%char.

(** A revision field and a hash field of the manifest. *)
Definition is_rev (f : str) : Prop := is_field rev_key is_digit f.
Definition is_hash (f : str) : Prop := is_field hash_key is_hex f.

(** What [change_skia_deps] makes of one line. *)
Definition rewritten_line (revision : Z) (git_hash : str) (line : str) : str :=
  sub deps_regex_hash (deps_regex_hash_repl git_hash)
    (sub deps_regex_rev (deps_regex_rev_repl revision) line).

(** The name of the temporary file [change_skia_deps] creates. *)
Definition deps_tmp (w : World) : str :=
  next_tmp_name (bs "skia_DEPS_ROLL_tmp_") (fs w).

(** The data of the file at [path], if there is one. *)
Definition file_data (path : str) (w : World) : option str :=
  f_data <$> files (fs w) !! path.

(** The part of [change_skia_deps] that comes before [shutil.move]: the
    temporary file is made, filled and closed.  It returns the name of
    the temporary file, which the move then gets. *)
Definition rewrite_to_temp (revision : Z) (git_hash : str) (depspath : str)
  : M str :=
  temp_file <- NamedTemporaryFile (bs "skia_DEPS_ROLL_tmp_") ;;
  try_finally
    (let deps_regex_rev_repl := deps_regex_rev_repl revision in
     let deps_regex_hash_repl := deps_regex_hash_repl git_hash in
     input_stream <- open_read depspath ;;
     for_each input_stream
       (fun line =>
          line <- re_sub deps_regex_rev deps_regex_rev_repl line ;;
          line <- re_sub deps_regex_hash deps_regex_hash_repl line ;;
          file_write temp_file line))
    (file_close temp_file) ;;;
  ret temp_file.

(** The body of the loop of [change_skia_deps]. *)
Definition rewrite_step (revision : Z) (git_hash temp_file : str) (line : str)
  : M unit :=
  line <- re_sub deps_regex_rev (deps_regex_rev_repl revision) line ;;
  line <- re_sub deps_regex_hash (deps_regex_hash_repl git_hash) line ;;
  file_write temp_file line.

Definition add_data (data : str) (f : File) : File :=
  {| f_data := f_data f ++ data; f_readable := f_readable f;
     f_writable := f_writable f |}.

Definition put_file (name : str) (f : File) (w : World) : World :=
  set_fs (set_files (<[name := f]> (files (fs w))) (fs w)) w.

(** [w'] differs from [w] in the file [tmp] at most, as far as the file
    system goes. *)
Definition tmp_frame (tmp : str) (w w' : World) : Prop :=
  (forall p, p <> tmp -> files (fs w') !! p = files (fs w) !! p)
  /\ dirs (fs w') = dirs (fs w)
  /\ same_device (fs w') = same_device (fs w).

(** ** A sample run, for the examples *)

Definition sample_hash : str := bs "2bbb7eff1a2b3c4d5e6f708192a3b4c5d6e7f809".

Definition sample_pre : str := bs "vars = {" ++ [newline] ++ bs "  ".
Definition sample_rev_field : str := rev_key ++ bs "12300" ++ field_end.
Definition sample_mid : str := [newline] ++ bs "  ".
Definition sample_hash_field : str := hash_key ++ bs "0a1b2c" ++ field_end.
Definition sample_post : str := [newline] ++ bs "}" ++ [newline].

(** A DEPS file with one revision field and one hash field. *)
Definition sample_manifest : str :=
  sample_pre ++ sample_rev_field ++ sample_mid ++ sample_hash_field
    ++ sample_post.

Definition sample_file (data : str) (writable : bool) : File :=
  {| f_data := data; f_readable := true; f_writable := writable |}.

Definition sample_fs (manifest : File) : FS :=
  {| files := {[ bs "DEPS" := manifest ]};
     dirs := {[ bs "/src/chromium" ]};
     tmp_names := fun n => fmt_d (Z.of_nat n);
     tmp_next := 0;
     same_device := true |}.

Definition sample_commit (revision : Z) (hash : str) : Commit :=
  {| c_hash := hash;
     c_message := bs "Fix a test." ++ [newline; newline]
                  ++ revision_format revision ++ bs "2bbb7eff-a529" |}.

Definition sample_skia : Skia :=
  {| remote := [sample_commit 12346 (bs "c0ffee");
                sample_commit 12345 sample_hash;
                sample_commit 12344 (bs "decade")];
     network := true;
     checkouts := ∅ |}.

Definition sample_repo (h : ref) : Repo :=
  {| head := h;
     branches := {[ bs "master" := bs "aa01"; bs "work" := bs "bb02" ]};
     commits := {[ bs "aa01"; bs "bb02"; bs "cc03"; bs "ee05" ]};
     origin_master := bs "cc03";
     stash := [];
     modified := [bs "notes.txt"];
     staged := [];
     submodules := [];
     ignored := ∅;
     commit_ids := fun n => bs "dd" ++ fmt_d (Z.of_nat n);
     commit_count := 0 |}.

Definition sample_review : Review :=
  {| cl_upload_status := 0;
     cl_issue := (0%Z, bs "Issue number: 42 (https://codereview.chromium.org/42)"
                       ++ [newline]);
     cl_try_status := 0;
     svn_info := (0%Z, bs "Path: ." ++ [newline]
                       ++ bs "Last Changed Rev: 250000" ++ [newline]) |}.

Definition sample_world_with (manifest : File) (r : Repo) : World :=
  {| fs := sample_fs manifest;
     programs := {[ bs "git" := GitProgram ]};
     skia := sample_skia;
     repo := r;
     review := sample_review;
     trace := [] |}.

Definition sample_world : World :=
  sample_world_with (sample_file sample_manifest true)
    (sample_repo (OnBranch (bs "work"))).

Definition sample_options (bots : str) : Options :=
  {| opt_chromium_path := Some (bs "/src/chromium");
     opt_revision := Some 12345%Z;
     opt_skia_git_path := None;
     opt_search_depth := 100;
     opt_git_path := bs "git";
     opt_save_branches := false;
     opt_verbose := false;
     opt_skip_cl_upload := false;
     opt_bots := bots |}.

Definition sample_config : DepsRollConfig :=
  mkDepsRollConfig (sample_options (bs "linux,mac")).

(** A line that holds the revision field twice. *)
Definition two_revisions_line : str :=
  rev_key ++ bs "1" ++ field_end ++ bs " " ++ rev_key ++ bs "2" ++ field_end
    ++ [newline].

Definition two_revisions_world : World :=
  sample_world_with (sample_file two_revisions_line true)
    (sample_repo (OnBranch (bs "work"))).

(** The sample manifest, read-only. *)
Definition read_only_world : World :=
  sample_world_with (sample_file sample_manifest false)
    (sample_repo (OnBranch (bs "work"))).

(** The outcomes of [change_skia_deps], with the state each leaves. *)
Inductive deps_outcome (r : Z) (h path : str) (w : World)
  : result unit -> World -> Prop :=
| deps_no_tmp :
    exists_path (deps_tmp w) (fs w) = true ->
    deps_outcome r h path w (Raise IOError) w
| deps_no_source w1 :
    exists_path (deps_tmp w) (fs w) = false ->
    w1 = put_file (deps_tmp w) empty_file (set_fs (bump_tmp (fs w)) w) ->
    path <> deps_tmp w ->
    (files (fs w) !! path = None
     \/ exists file, files (fs w) !! path = Some file /\ f_readable file = false) ->
    deps_outcome r h path w (Raise IOError) w1
| deps_loop_raises w1 w3 e file :
    exists_path (deps_tmp w) (fs w) = false ->
    w1 = put_file (deps_tmp w) empty_file (set_fs (bump_tmp (fs w)) w) ->
    path <> deps_tmp w ->
    files (fs w) !! path = Some file -> f_readable file = true ->
    tmp_frame (deps_tmp w) w1 w3 ->
    deps_outcome r h path w (Raise e) w3
| deps_moved w1 w3 res w' data :
    exists_path (deps_tmp w) (fs w) = false ->
    w1 = put_file (deps_tmp w) empty_file (set_fs (bump_tmp (fs w)) w) ->
    file_data path w1 = Some data ->
    (path <> deps_tmp w ->
     exists file, files (fs w) !! path = Some file /\ f_readable file = true
                  /\ f_data file = data) ->
    w3 = put_file (deps_tmp w)
           (add_data (concat (map (rewritten_line r h) (lines data))) empty_file)
           w1 ->
    shutil_move (deps_tmp w) path w3 = (res, w') ->
    deps_outcome r h path w res w'.

(** [keeps R m]: whatever [m] returns or raises, the world it leaves is
    related to the world it started in by [R]. *)
Definition keeps (R : World -> World -> Prop) {A} (m : M A) : Prop :=
  forall w res w', m w = (res, w') -> R w w'.

(** The file system is as before. *)
Definition same_fs (w w' : World) : Prop := fs w' = fs w.

(** The part of [find_revision_and_hash] that runs under its [finally]
    clause, once [skia_dir] is settled. *)
Definition lookup_revision (config : DepsRollConfig) (revision : option Z)
    (skia_dir : str) : M (Z * str) :=
  let git := git config in
  found <-
    match revision with
    | None =>
        message <- check_output git LogTipMessage (Some skia_dir) ;;
        match search_number svn_format_prefix (RChar space) message with
        | None => raise DepsRollError
        | Some digits =>
            git_hash <- strip_output git ShowRefHash (Some skia_dir) ;;
            ret (int_of_digits digits, git_hash)
        end
    | Some revision =>
        let revision_regex := revision_format revision in
        git_hash <-
          strip_output git (LogGrep revision_regex) (Some skia_dir) ;;
        ret (revision, git_hash)
    end ;;
  if (fst found <? 0)%Z || negb (truthy (snd found))
  then raise DepsRollError
  else ret found.

(** The name of the directory [create_temp_skia_clone] makes. *)
Definition clone_tmp (w : World) : str :=
  next_tmp_name (bs "git_skia_tmp_") (fs w).

(** A history in which a later commit quotes the message of the commit of
    revision 12345, marker included. *)
Definition quoting_commit : Commit :=
  {| c_hash := bs "77aa88bb99cc00dd11ee22ff33445566778899aa";
     c_message := bs "Revert of r12345." ++ [newline; newline]
                  ++ bs "> Fix a test." ++ [newline]
                  ++ bs "> " ++ revision_format 12345 ++ bs "2bbb7eff-a529"
                  ++ [newline; newline]
                  ++ revision_format 12346 ++ bs "2bbb7eff-a529" |}.

Definition quoting_skia : Skia :=
  {| remote := [quoting_commit; sample_commit 12345 sample_hash;
                sample_commit 12344 (bs "decade")];
     network := true;
     checkouts := ∅ |}.

Definition quoting_world : World :=
  set_skia quoting_skia sample_world.

(** [a] is a prefix of [b]. *)
Fixpoint prefix_of (a b : str) : bool :=
  match a, b with
  | [], _ => true
  | x :: a', y :: b' => Ascii.eqb x y && prefix_of a' b'
  | _ :: _, [] => false
  end.

(** An event of the validation trigger: [git cl try] is run, or its
    command line is printed. *)
Definition is_try_event (git : str) (e : Event) : bool :=
  match e with
  | Ran _ (ClTry _ _) => true
  | Ran _ _ => false
  | Printed line => prefix_of (git ++ bs " cl try") line
  end.

(** [w'] is [w] with further events, none of them of the validation
    trigger. *)
Definition no_try_since (git : str) (w w' : World) : Prop :=
  exists events,
    trace w' = trace w ++ events
    /\ Forall (fun e => is_try_event git e = false) events.

(** Nothing but the trace differs. *)
Definition only_trace (w w' : World) : Prop :=
  fs w' = fs w /\ programs w' = programs w /\ skia w' = skia w
  /\ repo w' = repo w /\ review w' = review w.




(** ** Notions for the branch transaction *)

(** The branch a transaction works on: the name given, or the default. *)
Definition used_branch_name (config : DepsRollConfig)
    (set_branch_name : option str) : str :=
  match set_branch_name with
  | Some (c :: name) => c :: name
  | _ => default_branch_name config
  end.



(** The changes [git stash] saves, and whether [git diff HEAD] reports
    any change: a changed path, or a change inside a submodule. *)
Definition local_changes (r : Repo) : list str := modified r ++ staged r.




(** [w'] has the programs, HEAD, branches and stash of [w]: only the
    working tree, the files and the trace may differ. *)
Definition tree_only (w w' : World) : Prop :=
  programs w' = programs w
  /\ head (repo w') = head (repo w)
  /\ branches (repo w') = branches (repo w)
  /\ stash (repo w') = stash (repo w).

(** The commands that act on the Chromium checkout when run without
    [cwd]. *)
Definition repo_cmd (cmd : GitCmd) : bool :=
  match cmd with
  | Version | Clone _ _ _ | ClUpload | ClIssue | ClTry _ _ | SvnInfo => false
  | _ => true
  end.

(** A body that edits DEPS and stages it, and one that raises after
    doing so. *)
Definition edit_deps (w : World) : World :=
  set_repo
    (set_changes (stash (repo w)) (bs "DEPS" :: modified (repo w))
       (staged (repo w)) (repo w)) w.

Definition sample_body : Body :=
  fun self w => (Ok tt, stage_for_commit self [bs "DEPS"], edit_deps w).



(** The sample checkout with nothing changed but inside a submodule, and
    with an older entry on the stash. *)
Definition submodule_world : World :=
  set_repo
    {| head := OnBranch (bs "work");
       branches := branches (sample_repo (OnBranch (bs "work")));
       commits := commits (sample_repo (OnBranch (bs "work")));
       origin_master := bs "cc03";
       stash := [[bs "old.txt"]];
       modified := [];
       staged := [];
       submodules := [bs "third_party/skia"];
       ignored := ∅;
       commit_ids := commit_ids (sample_repo (OnBranch (bs "work")));
       commit_count := 0 |}
    sample_world.

(** The sample checkout with a detached HEAD. *)
Definition detached_world : World :=
  set_repo (sample_repo (Detached (bs "cc03"))) sample_world.




(** ** Notions for the further properties *)

(** [default_bots_list] of [GetOptionParser], and the default of the
    [--bots] option, [','.join(default_bots_list)]. *)
Definition default_bots_list : list str :=
  [bs "android_clang_dbg"; bs "android_dbg"; bs "android_rel";
   bs "cros_daisy"; bs "linux"; bs "linux_asan"; bs "linux_chromeos";
   bs "linux_chromeos_asan"; bs "linux_gpu"; bs "linux_heapcheck";
   bs "linux_layout"; bs "linux_layout_rel"; bs "mac"; bs "mac_asan";
   bs "mac_gpu"; bs "mac_layout"; bs "mac_layout_rel"; bs "win";
   bs "win_gpu"; bs "win_layout"; bs "win_layout_rel"].

Definition default_bots : str := join [comma] default_bots_list.

(** A bot name that survives the round trip through the option string:
    not empty and without a comma. *)
Definition bot_name (bot : str) : Prop := bot <> [] /\ ~ In comma bot.

(** A string without white space at either end. *)
Definition stripped (s : str) : Prop := lstrip s = s /\ rstrip s = s.

(** The commit carries the marker of revision [r]: [git log --grep]
    with the pattern of that revision selects it. *)
Definition marks (r : Z) (c : Commit) : bool :=
  grep_matches (revision_format r) (c_message c).

(** What a clone of the given depth holds of the remote history. *)
Definition cloned (depth : Z) (s : Skia) : list Commit :=
  firstn (Z.to_nat depth) (remote s).

(** The sample configuration with another search depth. *)
Definition shallow_config (depth : Z) : DepsRollConfig :=
  mkDepsRollConfig
    {| opt_chromium_path := Some (bs "/src/chromium");
       opt_revision := Some 12345%Z;
       opt_skia_git_path := None;
       opt_search_depth := depth;
       opt_git_path := bs "git";
       opt_save_branches := false;
       opt_verbose := false;
       opt_skip_cl_upload := false;
       opt_bots := bs "linux,mac" |}.

(** The programs that can be launched are as before. *)
Definition same_programs (w w' : World) : Prop := programs w' = programs w.

(** The sample world with git installed under a path of its own, and no
    program called [git]; the configuration that names that path. *)
Definition custom_git_world : World :=
  {| fs := fs sample_world;
     programs := {[ bs "/opt/git/bin/git" := GitProgram ]};
     skia := skia sample_world; repo := repo sample_world;
     review := review sample_world; trace := [] |}.

Definition custom_git_config : DepsRollConfig :=
  mkDepsRollConfig
    {| opt_chromium_path := Some (bs "/src/chromium");
       opt_revision := Some 12345%Z;
       opt_skia_git_path := None;
       opt_search_depth := 100;
       opt_git_path := bs "/opt/git/bin/git";
       opt_save_branches := false;
       opt_verbose := false;
       opt_skip_cl_upload := false;
       opt_bots := bs "linux,mac" |}.

(** The sample world with, for git, a program that exits with status 1
    whatever it is asked. *)
Definition broken_git_world : World :=
  {| fs := fs sample_world;
     programs := {[ bs "git" := OtherProgram 1 ]};
     skia := skia sample_world; repo := repo sample_world;
     review := review sample_world; trace := [] |}.

(** [w'] is [w] with further events, all of them allowed. *)
Definition events_since (allowed : Event -> bool) (w w' : World) : Prop :=
  exists events,
    trace w' = trace w ++ events
    /\ Forall (fun e => allowed e = true) events.

(** The events other than a run of [git cl]. *)
Definition not_cl_run (e : Event) : bool :=
  match e with
  | Ran _ ClUpload | Ran _ ClIssue | Ran _ (ClTry _ _) => false
  | _ => true
  end.

(** Nothing was committed and nothing restored: the files, HEAD, the
    branches, the stash and the commits are as before; the index and the
    list of changed paths may differ. *)
Definition no_commit (w w' : World) : Prop :=
  fs w' = fs w /\ programs w' = programs w
  /\ head (repo w') = head (repo w)
  /\ branches (repo w') = branches (repo w)
  /\ stash (repo w') = stash (repo w)
  /\ commits (repo w') = commits (repo w)
  /\ commit_count (repo w') = commit_count (repo w).

(** The checkout was not restored: HEAD is on the branch it was on, and
    the stash is as it was. *)
Definition stays_put (w w' : World) : Prop :=
  programs w' = programs w /\ review w' = review w
  /\ stash (repo w') = stash (repo w)
  /\ forall b, head (repo w) = OnBranch b -> head (repo w') = OnBranch b.

(** The sample configuration with [--skip_cl_upload]. *)
Definition skip_config : DepsRollConfig :=
  mkDepsRollConfig
    {| opt_chromium_path := Some (bs "/src/chromium");
       opt_revision := Some 12345%Z;
       opt_skia_git_path := None;
       opt_search_depth := 100;
       opt_git_path := bs "git";
       opt_save_branches := false;
       opt_verbose := false;
       opt_skip_cl_upload := true;
       opt_bots := bs "linux,mac" |}.

(** The sample checkout as the body of a transaction finds it: on the
    temporary branch, the local changes on the stash. *)
Definition entered_repo : Repo :=
  set_changes [[bs "notes.txt"]] [] []
    (set_head (OnBranch (bs "autogenerated_deps_roll_branch"))
       (set_branches
          (<[bs "autogenerated_deps_roll_branch" := bs "cc03"]>
             (branches (sample_repo (OnBranch (bs "work")))))
          (sample_repo (OnBranch (bs "work"))))).

Definition entered_world (server : Review) : World :=
  {| fs := fs sample_world; programs := programs sample_world;
     skia := skia sample_world; repo := entered_repo;
     review := server; trace := [] |}.

(** The same, with DEPS an ignored path. *)
Definition ignoring_world : World :=
  set_repo
    {| head := head entered_repo; branches := branches entered_repo;
       commits := commits entered_repo;
       origin_master := origin_master entered_repo;
       stash := stash entered_repo; modified := modified entered_repo;
       staged := staged entered_repo; submodules := submodules entered_repo;
       ignored := {[ bs "DEPS" ]};
       commit_ids := commit_ids entered_repo;
       commit_count := commit_count entered_repo |}
    (entered_world sample_review).

(** The transaction object at the end of a body that staged [paths]. *)
Definition entered_self (config : DepsRollConfig) (paths : list str)
  : GitBranchCLUpload :=
  {| t_message := bs "roll"; t_file_list := paths;
     t_branch_name := Some (bs "autogenerated_deps_roll_branch");
     t_stash := Some true; t_original_branch := Some (bs "work");
     t_config := config; t_svn_info := Some (bs "250000");
     issue := None |}.

(** A code review server that refuses uploads. *)
Definition refusing_review : Review :=
  {| cl_upload_status := 1;
     cl_issue := cl_issue sample_review;
     cl_try_status := cl_try_status sample_review;
     svn_info := svn_info sample_review |}.

(** The commit messages of [roll_deps]: that of the whitespace change,
    [('whitespace change %s\n\nThis CL was created by Skia\'s
    roll_deps.py script.\n') % master_hash[:8]], and that of the DEPS
    roll, which names the control CL when a URL was found in the issue of
    the whitespace change. *)
Definition created_by : str :=
  bs "This CL was created by Skia's roll_deps.py script.".

Definition whitespace_message (master_hash : str) : str :=
  bs "whitespace change " ++ firstn 8 master_hash ++ [newline; newline]
    ++ created_by ++ [newline].

Definition roll_message (revision : Z) (control_url : option str) : str :=
  match control_url with
  | Some url =>
      bs "roll skia DEPS to " ++ fmt_d revision ++ [newline; newline]
        ++ created_by ++ [newline; newline] ++ bs "control: " ++ url
  | None =>
      bs "roll skia DEPS to " ++ fmt_d revision ++ [newline; newline]
        ++ created_by
  end.

(** [branch_name(message) if config.save_branches else None] *)
Definition roll_branch (config : DepsRollConfig) (message : str)
  : option str :=
  if save_branches config then Some (branch_name message) else None.

(** The sample configuration with [--save_branches]. *)
Definition saving_config : DepsRollConfig :=
  mkDepsRollConfig
    {| opt_chromium_path := Some (bs "/src/chromium");
       opt_revision := Some 12345%Z;
       opt_skia_git_path := None;
       opt_search_depth := 100;
       opt_git_path := bs "git";
       opt_save_branches := true;
       opt_verbose := false;
       opt_skip_cl_upload := false;
       opt_bots := bs "linux,mac" |}.

(** Nothing but the file system differs: no program was launched and
    nothing printed. *)
Definition only_fs (w w' : World) : Prop :=
  programs w' = programs w /\ skia w' = skia w /\ repo w' = repo w
  /\ review w' = review w /\ trace w' = trace w.

(** The sample configuration with a Skia checkout of its own and a
    search depth of 1, and the sample world with that checkout, not yet
    fetched. *)
Definition checkout_config : DepsRollConfig :=
  mkDepsRollConfig
    {| opt_chromium_path := Some (bs "/src/chromium");
       opt_revision := Some 12345%Z;
       opt_skia_git_path := Some (bs "/src/skia");
       opt_search_depth := 1;
       opt_git_path := bs "git";
       opt_save_branches := false;
       opt_verbose := false;
       opt_skip_cl_upload := false;
       opt_bots := bs "linux,mac" |}.

Definition checkout_world : World :=
  set_skia
    {| remote := remote sample_skia; network := true;
       checkouts := {[ bs "/src/skia" := [sample_commit 12344 (bs "decade")] ]} |}
    sample_world.

(** * Properties *)

(** ** Byte strings *)



Lemma split_nonempty sep s : split sep s <> [].
Proof.
  destruct s as [|c s]; simpl; [discriminate|].
  destruct (Ascii.eqb c sep); [discriminate|].
  destruct (split sep s); discriminate.
Qed.




Lemma rstrip_app s t :
  rstrip (s ++ t) = match rstrip t with [] => rstrip s | _ :: _ => s ++ rstrip t end.
Proof.
  induction s as [|a s IH]; simpl.
  - destruct (rstrip t); reflexivity.
  - fold (rstrip (s ++ t)). fold (rstrip s). rewrite IH.
    destruct (rstrip t) as [|b u]; [reflexivity|].
    destruct s; reflexivity.
Qed.

Lemma rstrip_no_space s : no_space s = true -> rstrip s = s.
Proof.
  induction s as [|a s IH]; simpl; [reflexivity|].
  intros H. apply andb_prop in H as [Ha Hs]. fold (rstrip s).
  apply negb_true_iff in Ha.
  rewrite (IH Hs). destruct s; [|reflexivity].
  rewrite Ha. reflexivity.
Qed.


(** ** C8: branch_name *)










(** White space other than the space is not replaced: a tab inside the
    line stays in the name, which git then refuses as a branch name. *)
Lemma branch_name_tab :
  branch_name (bs "a" ++ ["009"%char] ++ bs "b") = bs "a" ++ ["009"%char] ++ bs "b".
Proof. reflexivity. Qed.

(** ** C10: the bot list *)

Lemma split_bots_nonempty bots : Forall (fun bot => bot <> []) (split_bots bots).
Proof.
  unfold split_bots. apply List.Forall_forall. intros bot H.
  apply List.filter_In in H as [_ H]. destruct bot; [discriminate|discriminate].
Qed.

(** ** The matcher on field patterns *)

Lemma rmatch_lit_app k re s :
  rmatch (lit k ++ re) (k ++ s) = (fun n => length k + n) <$> rmatch re s.
Proof.
  induction k as [|a k IH]; simpl.
  - destruct (rmatch re s); reflexivity.
  - rewrite Ascii.eqb_refl. rewrite IH.
    destruct (rmatch re s); reflexivity.
Qed.

Lemma rmatch_lit_inv k re s n :
  rmatch (lit k ++ re) s = Some n ->
  exists s' m, s = k ++ s' /\ rmatch re s' = Some m /\ n = length k + m.
Proof.
  revert s n. induction k as [|a k IH]; simpl; intros s n H.
  - exists s, n. auto.
  - destruct s as [|c s]; [discriminate|].
    destruct (Ascii.eqb a c) eqn:E; [|discriminate].
    apply Ascii.eqb_eq in E. subst c.
    destruct (rmatch (lit k ++ re) s) as [m|] eqn:Hm; [|discriminate].
    apply IH in Hm as (s' & m' & -> & Hm' & ->).
    injection H as <-. exists s', m'. auto.
Qed.

Lemma rmatch_lit_only k s n :
  rmatch (lit k) s = Some n -> exists rest, s = k ++ rest /\ n = length k.
Proof.
  intros H. rewrite <- (app_nil_r (lit k)) in H.
  apply rmatch_lit_inv in H as (s' & m & -> & Hm & ->).
  simpl in Hm. injection Hm as <-. exists s'. split; [reflexivity|lia].
Qed.

Lemma rmatch_lit_self k rest : rmatch (lit k) (k ++ rest) = Some (length k).
Proof.
  rewrite <- (app_nil_r (lit k)), rmatch_lit_app. simpl.
  f_equal. lia.
Qed.

Lemma star_cons cls k c s :
  star cls k (c :: s)
  = if cls c then
      match star cls k s with
      | Some n => Some (S n)
      | None => k (c :: s)
      end
    else k (c :: s).
Proof. reflexivity. Qed.

(** The star is followed by a literal whose first character is outside
    the class: the run it takes is the longest one. *)
Lemma star_run cls q qs v rest :
  cls q = false -> forallb cls v = true ->
  star cls (rmatch (lit (q :: qs))) (v ++ q :: qs ++ rest)
  = Some (length v + length (q :: qs)).
Proof.
  intros Hq. induction v as [|c v IH]; intros Hv.
  - change ([] ++ q :: qs ++ rest) with (q :: qs ++ rest).
    rewrite star_cons, Hq. apply (rmatch_lit_self (q :: qs)).
  - simpl in Hv. apply andb_prop in Hv as [Hc Hv].
    change ((c :: v) ++ q :: qs ++ rest) with (c :: (v ++ q :: qs ++ rest)).
    rewrite star_cons, Hc, (IH Hv). reflexivity.
Qed.

Lemma star_run_inv cls q qs s n :
  cls q = false ->
  star cls (rmatch (lit (q :: qs))) s = Some n ->
  exists v rest, forallb cls v = true /\ s = v ++ q :: qs ++ rest
                 /\ n = length v + length (q :: qs).
Proof.
  intros Hq. revert n. induction s as [|c s IH]; intros n H.
  - simpl in H. discriminate.
  - rewrite star_cons in H. destruct (cls c) eqn:Hc.
    + destruct (star cls (rmatch (lit (q :: qs))) s) as [m|] eqn:Hm.
      * injection H as <-.
        destruct (IH m eq_refl) as (v & rest & Hv & -> & ->).
        exists (c :: v), rest. simpl. rewrite Hc, Hv. auto.
      * apply rmatch_lit_only in H as (rest & Hs & _).
        injection Hs as -> _. congruence.
    + apply rmatch_lit_only in H as (rest & Hs & ->).
      exists [], rest. simpl. auto.
Qed.

(** A field pattern matches at the start of [s] exactly when [s] starts
    with a field, and the match is that field. *)
Lemma rmatch_field key cls s n :
  cls dquote = false ->
  rmatch (field_regex key cls) s = Some n <->
  exists f rest, is_field key cls f /\ s = f ++ rest /\ n = length f.
Proof.
  intros Hq. unfold field_regex. split.
  - intros H. apply rmatch_lit_inv in H as (s' & m & -> & Hm & ->).
    change (star cls (rmatch (lit (dquote :: [comma]))) s' = Some m) in Hm.
    apply star_run_inv in Hm as (v & rest & Hv & -> & ->); [|exact Hq].
    exists (key ++ v ++ field_end), rest. split; [exists v; auto|].
    unfold field_end. rewrite <- !app_assoc.
    split; [reflexivity|]. rewrite !length_app. simpl. lia.
  - intros (f & rest & (v & Hv & ->) & -> & ->).
    rewrite <- !app_assoc. rewrite rmatch_lit_app.
    change (rmatch ([RStar cls] ++ lit field_end) (v ++ field_end ++ rest))
      with (star cls (rmatch (lit (dquote :: [comma])))
              (v ++ dquote :: [comma] ++ rest)).
    rewrite (star_run cls dquote [comma] v rest Hq Hv).
    simpl. f_equal. rewrite !length_app. simpl. lia.
Qed.

Lemma field_length key cls f : is_field key cls f -> 2 <= length f.
Proof.
  intros (v & _ & ->). rewrite !length_app. simpl. lia.
Qed.

(** ** [sub] on field patterns *)

Lemma sub_from_skip re repl m rest :
  sub_from re repl (length m) (m ++ rest) = sub_from re repl 0 rest.
Proof.
  induction m as [|c m IH]; simpl; [reflexivity|exact IH].
Qed.

Section FieldSub.

Variables (key : str) (cls : ascii -> bool) (repl : str).
Hypothesis cls_quote : cls dquote = false.

Let re := field_regex key cls.

Lemma sub_no_field s :
  (forall x f y, s = x ++ f ++ y -> ~ is_field key cls f) ->
  sub re repl s = s.
Proof.
  unfold sub. induction s as [|c s IH]; intros Hno; [reflexivity|].
  simpl. destruct (rmatch re (c :: s)) as [n|] eqn:Hm.
  - apply rmatch_field in Hm as (f & rest & Hf & Hs & _); [|exact cls_quote].
    exfalso. apply (Hno [] f rest); [exact Hs|exact Hf].
  - f_equal. apply IH. intros x f y -> Hf.
    apply (Hno (c :: x) f y); [reflexivity|exact Hf].
Qed.

Lemma sub_first_field pre f post :
  is_field key cls f ->
  (forall x f' y, pre ++ f ++ post = x ++ f' ++ y -> is_field key cls f' ->
                  length pre <= length x) ->
  sub re repl (pre ++ f ++ post) = pre ++ repl ++ sub re repl post.
Proof.
  intros Hf. unfold sub. induction pre as [|c pre IH]; intros Hleft.
  - simpl app.
    assert (Hm : rmatch re (f ++ post) = Some (length f)).
    { apply rmatch_field; [exact cls_quote|]. exists f, post. auto. }
    pose proof (field_length _ _ _ Hf) as Hlen.
    destruct f as [|a f]; [simpl in Hlen; lia|].
    simpl app. simpl sub_from. simpl app in Hm. rewrite Hm.
    simpl length. cbv iota beta. rewrite sub_from_skip. reflexivity.
  - simpl. destruct (rmatch re (c :: pre ++ f ++ post)) as [n|] eqn:Hm.
    + apply rmatch_field in Hm as (f' & rest & Hf' & Hs & _); [|exact cls_quote].
      specialize (Hleft [] f' rest Hs Hf'). simpl in Hleft. lia.
    + f_equal. apply IH. intros x f' y Hs Hf'.
      specialize (Hleft (c :: x) f' y). simpl in Hleft.
      rewrite Hs in Hleft. specialize (Hleft eq_refl Hf'). lia.
Qed.

End FieldSub.

Lemma search_none_rmatch re s :
  search re s = None -> rmatch re s = None.
Proof.
  destruct s; simpl; destruct (rmatch re _); congruence.
Qed.

Section FieldSearch.

Variables (key : str) (cls : ascii -> bool).
Hypothesis cls_quote : cls dquote = false.

Let re := field_regex key cls.

Lemma search_none_no_field s :
  search re s = None ->
  forall x f y, s = x ++ f ++ y -> ~ is_field key cls f.
Proof.
  induction s as [|c s IH]; intros Hs x f y Heq Hf.
  - pose proof (field_length _ _ _ Hf) as Hlen.
    apply (f_equal (@length ascii)) in Heq.
    rewrite !length_app in Heq. simpl in Heq. lia.
  - pose proof (search_none_rmatch _ _ Hs) as Hm.
    destruct x as [|a x].
    + assert (H : rmatch re (c :: s) = Some (length f)).
      { apply rmatch_field; [exact cls_quote|]. exists f, y. auto. }
      congruence.
    + injection Heq as -> Heq. simpl in Hs. rewrite Hm in Hs.
      destruct (search re s) as [[i n]|] eqn:E; [discriminate|].
      exact (IH eq_refl x f y Heq Hf).
Qed.

Lemma search_some_field s i n :
  search re s = Some (i, n) ->
  exists x f y,
    s = x ++ f ++ y /\ is_field key cls f /\ length x = i /\ length f = n
    /\ forall x' f' y', s = x' ++ f' ++ y' -> is_field key cls f' ->
                        length x <= length x'.
Proof.
  revert i n. induction s as [|c s IH]; intros i n Hs.
  - simpl in Hs. destruct (rmatch re []) as [m|] eqn:Hm; [|discriminate].
    apply rmatch_field in Hm as (f & rest & Hf & Heq & _); [|exact cls_quote].
    pose proof (field_length _ _ _ Hf) as Hlen.
    apply (f_equal (@length ascii)) in Heq.
    rewrite !length_app in Heq. simpl in Heq. lia.
  - simpl in Hs. destruct (rmatch re (c :: s)) as [m|] eqn:Hm.
    + injection Hs as <- <-.
      apply rmatch_field in Hm as (f & rest & Hf & Heq & ->); [|exact cls_quote].
      exists [], f, rest. simpl. repeat split; auto. intros; lia.
    + destruct (search re s) as [[j k]|] eqn:E; [|discriminate].
      injection Hs as <- <-.
      destruct (IH j k eq_refl) as (x & f & y & -> & Hf & <- & <- & Hleft).
      exists (c :: x), f, y. simpl. repeat split; auto.
      intros x' f' y' Heq Hf'. destruct x' as [|a x'].
      * assert (H : rmatch re (c :: x ++ f ++ y) = Some (length f')).
        { apply rmatch_field; [exact cls_quote|]. exists f', y'. auto. }
        congruence.
      * injection Heq as -> Heq. simpl.
        specialize (Hleft x' f' y' Heq Hf'). lia.
Qed.

Lemma matches_at_field s i :
  In i (matches_at re s) <->
  exists x f y, s = x ++ f ++ y /\ is_field key cls f /\ length x = i.
Proof.
  revert i. induction s as [|c s IH]; intros i.
  - simpl. split.
    + destruct (rmatch re []) as [m|] eqn:Hm; simpl; [|tauto].
      apply rmatch_field in Hm as (f & rest & Hf & Heq & _); [|exact cls_quote].
      intros _. pose proof (field_length _ _ _ Hf) as Hlen.
      apply (f_equal (@length ascii)) in Heq.
      rewrite !length_app in Heq. simpl in Heq. lia.
    + intros (x & f & y & Heq & Hf & _).
      pose proof (field_length _ _ _ Hf) as Hlen.
      apply (f_equal (@length ascii)) in Heq.
      rewrite !length_app in Heq. simpl in Heq. lia.
  - simpl. rewrite in_app_iff, in_map_iff. split.
    + intros [H|(j & <- & Hj)].
      * destruct (rmatch re (c :: s)) as [m|] eqn:Hm; simpl in H; [|tauto].
        destruct H as [<-|[]].
        apply rmatch_field in Hm as (f & rest & Hf & Heq & _); [|exact cls_quote].
        exists [], f, rest. auto.
      * apply IH in Hj as (x & f & y & -> & Hf & <-).
        exists (c :: x), f, y. auto.
    + intros (x & f & y & Heq & Hf & <-). destruct x as [|a x].
      * left. simpl in Heq.
        assert (H : rmatch re (c :: s) = Some (length f)).
        { apply rmatch_field; [exact cls_quote|]. exists f, y. auto. }
        rewrite H. simpl. auto.
      * right. injection Heq as -> Heq. exists (length x). split; [reflexivity|].
        apply IH. exists x, f, y. auto.
Qed.

(** Every field is replaced, from the left. *)
Lemma sub_replaces_all repl s :
  replaced_all key cls repl s (sub re repl s).
Proof.
  unfold re. remember (length s) as n eqn:Hn. revert s Hn.
  induction n as [n IH] using lt_wf_ind. intros s Hn.
  fold re.
  destruct (search re s) as [[i k]|] eqn:Hs.
  - apply search_some_field in Hs as (x & f & y & -> & Hf & _ & _ & Hleft).
    unfold re. rewrite (sub_first_field key cls repl cls_quote x f y Hf Hleft).
    apply replaced_next; [exact Hf|exact Hleft|].
    apply (IH (length y)); [|reflexivity].
    pose proof (field_length _ _ _ Hf).
    subst n. rewrite !length_app. lia.
  - pose proof (search_none_no_field _ Hs) as Hno.
    unfold re. rewrite (sub_no_field key cls repl cls_quote s Hno).
    apply replaced_none. exact Hno.
Qed.

End FieldSearch.

(** ** Lines *)

Lemma app_cons_split {A} (x y x' f y' : list A) c :
  x ++ c :: y = x' ++ f ++ y' -> ~ In c f ->
  (exists z, x = x' ++ f ++ z /\ y' = z ++ c :: y)
  \/ (exists z, x' = x ++ c :: z /\ y = z ++ f ++ y').
Proof.
  intros Heq Hc. apply app_eq_app in Heq as [l [[-> Hl]|[-> Hl]]].
  - symmetry in Hl. apply app_eq_app in Hl as [m [[-> Hm]|[-> Hm]]].
    + left. exists m. auto.
    + destruct m as [|a m].
      * left. exists []. simpl in Hm. subst y'. rewrite !app_nil_r. auto.
      * injection Hm as <- _. exfalso. apply Hc. apply in_app_iff. simpl. auto.
  - destruct l as [|a l].
    + simpl in Hl. destruct f as [|b f].
      * left. exists []. simpl in *. rewrite !app_nil_r. auto.
      * injection Hl as -> _. exfalso. apply Hc. simpl. auto.
    + injection Hl as <- ->. right. exists l. auto.
Qed.

Lemma first_newline s :
  ~ In newline s \/ exists x y, s = x ++ newline :: y /\ ~ In newline x.
Proof.
  induction s as [|c s IH]; [left; simpl; tauto|].
  destruct (Ascii.eqb c newline) eqn:E.
  - apply Ascii.eqb_eq in E. subst. right. exists [], s. simpl. tauto.
  - apply Ascii.eqb_neq in E. destruct IH as [H|(x & y & -> & H)].
    + left. simpl. intros [?|?]; [congruence|tauto].
    + right. exists (c :: x), y. simpl. split; [reflexivity|].
      intros [?|?]; [congruence|tauto].
Qed.

Lemma lines_no_newline x : ~ In newline x -> x <> [] -> lines x = [x].
Proof.
  induction x as [|c x IH]; intros Hn Hx; [congruence|].
  simpl in *. destruct (Ascii.eqb c newline) eqn:E.
  - apply Ascii.eqb_eq in E. tauto.
  - destruct x as [|d x]; [reflexivity|].
    rewrite IH; [reflexivity|tauto|discriminate].
Qed.

Lemma lines_newline x y :
  ~ In newline x -> lines (x ++ newline :: y) = (x ++ [newline]) :: lines y.
Proof.
  induction x as [|c x IH]; intros Hn.
  - reflexivity.
  - simpl in *. destruct (Ascii.eqb c newline) eqn:E.
    + apply Ascii.eqb_eq in E. tauto.
    + rewrite IH; [reflexivity|tauto].
Qed.

(** A function that works line by line can be applied to the lines one
    by one. *)
Lemma concat_map_lines (F : str -> str) :
  F [] = [] ->
  (forall x y, F (x ++ newline :: y) = F x ++ newline :: F y) ->
  forall s, concat (map F (lines s)) = F s.
Proof.
  intros Hnil Hsep s.
  remember (length s) as n eqn:Hn. revert s Hn.
  induction n as [n IH] using lt_wf_ind. intros s Hn.
  destruct (first_newline s) as [H|(x & y & -> & H)].
  - destruct s as [|c s]; [simpl; congruence|].
    rewrite lines_no_newline; [|exact H|discriminate].
    simpl. apply app_nil_r.
  - rewrite lines_newline; [|exact H]. simpl.
    rewrite (IH (length y)); [|subst n; rewrite length_app; simpl; lia|reflexivity].
    rewrite (Hsep x y).
    replace (x ++ [newline]) with (x ++ newline :: []) by reflexivity.
    rewrite Hsep, Hnil. rewrite <- app_assoc. reflexivity.
Qed.

Lemma concat_lines s : concat (lines s) = s.
Proof.
  rewrite <- (map_id (lines s)). apply (concat_map_lines (fun l => l)); auto.
Qed.

Section FieldLines.

Variables (key : str) (cls : ascii -> bool) (repl : str).
Hypothesis cls_quote : cls dquote = false.
Hypothesis cls_newline : cls newline = false.
Hypothesis key_newline : ~ In newline key.

Let re := field_regex key cls.

Lemma field_no_newline f : is_field key cls f -> ~ In newline f.
Proof.
  intros (v & Hv & ->). rewrite !in_app_iff. intros [H|[H|H]].
  - exact (key_newline H).
  - rewrite forallb_forall in Hv. apply Hv in H. congruence.
  - simpl in H. destruct H as [H|[H|[]]]; discriminate H.
Qed.

Lemma sub_field_head f post :
  is_field key cls f -> sub re repl (f ++ post) = repl ++ sub re repl post.
Proof.
  intros Hf.
  apply (sub_first_field key cls repl cls_quote [] f post Hf).
  intros; simpl; lia.
Qed.

(** No field spans a line feed: [sub] works line by line. *)
Lemma sub_newline x y :
  sub re repl (x ++ newline :: y)
  = sub re repl x ++ newline :: sub re repl y.
Proof.
  remember (length x) as n eqn:Hn. revert x Hn.
  induction n as [n IH] using lt_wf_ind. intros x Hn.
  destruct (rmatch re (x ++ newline :: y)) as [k|] eqn:Hm.
  - apply rmatch_field in Hm as (f & rest & Hf & Heq & _); [|exact cls_quote].
    pose proof (field_no_newline f Hf) as Hnl.
    pose proof (field_length _ _ _ Hf) as Hlen.
    apply (app_cons_split x y [] f rest) in Heq as [(z & -> & ->)|(z & Hz & _)];
      [|destruct x; discriminate Hz|exact Hnl].
    simpl app. rewrite <- app_assoc.
    rewrite !(sub_field_head f _ Hf).
    rewrite (IH (length z)); [|subst n; rewrite !length_app; simpl; lia|reflexivity].
    rewrite <- app_assoc. reflexivity.
  - destruct x as [|c x].
    + simpl app in *. unfold sub. simpl. rewrite Hm. reflexivity.
    + assert (Hm' : rmatch re (c :: x) = None).
      { destruct (rmatch re (c :: x)) as [k|] eqn:E; [|reflexivity].
        apply rmatch_field in E as (f & rest & Hf & Heq & _); [|exact cls_quote].
        assert (H : rmatch re ((c :: x) ++ newline :: y) = Some (length f)).
        { apply rmatch_field; [exact cls_quote|].
          exists f, (rest ++ newline :: y). rewrite Heq, <- app_assoc. auto. }
        congruence. }
      unfold sub. simpl app in *. simpl sub_from. rewrite Hm, Hm'.
      simpl. f_equal. apply (IH (length x)); [subst n; simpl; lia|reflexivity].
Qed.

Lemma sub_nil : sub re repl [] = [].
Proof. reflexivity. Qed.

End FieldLines.

(** ** A revision field and a hash field never overlap *)

Lemma nth_error_mid {A} (x f y : list A) i :
  (i < length f)%nat ->
  nth_error (x ++ f ++ y) (length x + i) = nth_error f i.
Proof.
  intros H. rewrite nth_error_app2 by lia.
  replace (length x + i - length x)%nat with i by lia.
  apply nth_error_app1. exact H.
Qed.

Lemma rev_key_ok : key_ok rev_key.
Proof.
  split; [|split; reflexivity].
  intros j H1 H2.
  do 19 (destruct j as [|j]; [first [reflexivity|discriminate H1|discriminate H2]|]).
  destruct j; discriminate H1.
Qed.

Lemma hash_key_ok : key_ok hash_key.
Proof.
  split; [|split; reflexivity].
  intros j H1 H2.
  do 15 (destruct j as [|j]; [first [reflexivity|discriminate H1|discriminate H2]|]).
  destruct j; discriminate H1.
Qed.

Lemma nth_error_plain v j c : Forall plain v -> nth_error v j = Some c -> plain c.
Proof.
  intros Hv H. apply nth_error_In in H.
  rewrite List.Forall_forall in Hv. auto.
Qed.

Lemma shaped_quote_s key f j :
  key_ok key -> shaped key f ->
  nth_error f j = Some dquote -> nth_error f (S j) = Some "s"%char ->
  j = 0%nat.
Proof.
  intros (Hk & _ & _) (v & Hv & ->) H1 H2.
  destruct (Nat.lt_ge_cases (S j) (length key)) as [Hlt|Hge].
  - rewrite nth_error_app1 in H1, H2 by lia. auto.
  - exfalso. rewrite (nth_error_app2 key) in H2 by lia.
    destruct (Nat.lt_ge_cases (S j - length key) (length v)) as [Hlt|Hge'].
    + rewrite nth_error_app1 in H2 by lia.
      apply (nth_error_plain _ _ _ Hv) in H2. destruct H2 as [_ H2]. congruence.
    + rewrite nth_error_app2 in H2 by lia.
      destruct (Nat.eq_dec (S j - length key - length v) 0) as [E|E].
      * rewrite E in H2. discriminate H2.
      * rewrite (nth_error_app2 key) in H1 by lia.
        rewrite nth_error_app2 in H1 by lia.
        replace (S j - length key - length v)%nat
          with (S (j - length key - length v)) in H2 by lia.
        destruct (j - length key - length v)%nat as [|[|[|k]]];
          cbn in H1, H2; unfold comma, dquote in *; congruence.
Qed.

Lemma shaped_key key f i :
  shaped key f -> (i < length key)%nat -> nth_error f i = nth_error key i.
Proof.
  intros (v & _ & ->) H. apply nth_error_app1. exact H.
Qed.

Lemma shaped_length key f : shaped key f -> length f = (length key + (length f - length key - 2) + 2)%nat.
Proof.
  intros (v & _ & ->). rewrite !length_app. simpl. lia.
Qed.

Lemma shaped_last key f :
  shaped key f -> nth_error f (length f - 1) = Some comma.
Proof.
  intros (v & _ & ->). rewrite !length_app. simpl length.
  rewrite nth_error_app2 by lia. rewrite nth_error_app2 by lia.
  replace (length key + (length v + 2) - 1 - length key - length v)%nat
    with 1%nat by lia.
  reflexivity.
Qed.

Lemma fields_apart s x f y a b' b :
  s = x ++ f ++ y -> s = a ++ b' ++ b ->
  shaped hash_key f -> shaped rev_key b' ->
  (length x + length f <= length a \/ length a + length b' <= length x)%nat.
Proof.
  intros Hf Hb Sf Sb.
  destruct (Nat.le_gt_cases (length x + length f) (length a)) as [?|H1]; [auto|].
  destruct (Nat.le_gt_cases (length a + length b') (length x)) as [?|H2]; [auto|].
  exfalso.
  pose proof (shaped_length _ _ Sf) as Lf. pose proof (shaped_length _ _ Sb) as Lb.
  change (length hash_key) with 14%nat in Lf.
  change (length rev_key) with 18%nat in Lb.
  assert (F : forall i, (i < length f)%nat ->
                        nth_error s (length x + i) = nth_error f i)
    by (intros; subst s; apply nth_error_mid; assumption).
  assert (B : forall i, (i < length b')%nat ->
                        nth_error s (length a + i) = nth_error b' i)
    by (intros; rewrite Hb; apply nth_error_mid; assumption).
  pose proof hash_key_ok as (_ & Hq0 & Hq1).
  pose proof rev_key_ok as (_ & Rq0 & Rq1).
  destruct (Nat.le_gt_cases (length x) (length a)) as [Hle|Hgt].
  - (* the revision field would start inside the hash field *)
    set (j := (length a - length x)%nat).
    assert (E0 : nth_error f j = Some dquote).
    { rewrite <- F by (unfold j; lia).
      replace (length x + j)%nat with (length a + 0)%nat by (unfold j; lia).
      rewrite B by lia. rewrite (shaped_key _ _ 0 Sb) by (simpl; lia). exact Rq0. }
    destruct (Nat.eq_dec (S j) (length f)) as [Elast|Enot].
    + pose proof (shaped_last _ _ Sf) as L.
      replace (length f - 1)%nat with j in L by lia.
      unfold comma, dquote in *. congruence.
    + assert (E1 : nth_error f (S j) = Some "s"%char).
      { rewrite <- F by (unfold j in *; lia).
        replace (length x + S j)%nat with (length a + 1)%nat by (unfold j; lia).
        rewrite B by lia. rewrite (shaped_key _ _ 1 Sb) by (simpl; lia). exact Rq1. }
      pose proof (shaped_quote_s _ _ _ hash_key_ok Sf E0 E1) as J.
      assert (Ea : length a = length x) by (unfold j in J; lia).
      pose proof (F 6%nat ltac:(lia)) as F6. pose proof (B 6%nat ltac:(lia)) as B6.
      rewrite (shaped_key _ _ 6 Sf) in F6 by (simpl; lia).
      rewrite (shaped_key _ _ 6 Sb) in B6 by (simpl; lia).
      rewrite Ea in B6. rewrite F6 in B6. vm_compute in B6. discriminate B6.
  - (* the hash field would start inside the revision field *)
    set (j := (length x - length a)%nat).
    assert (E0 : nth_error b' j = Some dquote).
    { rewrite <- B by (unfold j; lia).
      replace (length a + j)%nat with (length x + 0)%nat by (unfold j; lia).
      rewrite F by lia. rewrite (shaped_key _ _ 0 Sf) by (simpl; lia). exact Hq0. }
    destruct (Nat.eq_dec (S j) (length b')) as [Elast|Enot].
    + pose proof (shaped_last _ _ Sb) as L.
      replace (length b' - 1)%nat with j in L by lia.
      unfold comma, dquote in *. congruence.
    + assert (E1 : nth_error b' (S j) = Some "s"%char).
      { rewrite <- B by (unfold j in *; lia).
        replace (length a + S j)%nat with (length x + 1)%nat by (unfold j; lia).
        rewrite F by lia. rewrite (shaped_key _ _ 1 Sf) by (simpl; lia). exact Hq1. }
      pose proof (shaped_quote_s _ _ _ rev_key_ok Sb E0 E1) as J.
      unfold j in J. lia.
Qed.

(** ** The replacement strings *)

Lemma string_of_uint_digits u c :
  In c (list_ascii_of_string (NilEmpty.string_of_uint u)) -> is_digit c = true.
Proof.
  induction u; simpl; try tauto; intros [<-|H]; auto.
Qed.

Lemma fmt_d_chars r c :
  In c (fmt_d r) -> is_digit c = true \/ c = "-"%char.
Proof.
  unfold fmt_d, bs, NilZero.string_of_int.
  assert (Hu : forall u, In c (list_ascii_of_string (NilZero.string_of_uint u)) ->
                         is_digit c = true).
  { intros u. destruct u; try apply string_of_uint_digits.
    simpl. intros [<-|[]]. reflexivity. }
  destruct (Z.to_int r) as [u|u].
  - intros H. left. exact (Hu u H).
  - simpl. intros [<-|H]; [right; reflexivity|left; exact (Hu u H)].
Qed.

Lemma rev_repl_literal r : literal_template (deps_regex_rev_repl r) = true.
Proof.
  unfold literal_template, deps_regex_rev_repl.
  rewrite !forallb_app. rewrite !andb_true_iff. repeat split; try reflexivity.
  apply forallb_forall. intros c H.
  apply fmt_d_chars in H as [H| ->]; [|reflexivity].
  destruct (Ascii.eqb c backslash) eqn:E; [|reflexivity].
  apply Ascii.eqb_eq in E. subst c. discriminate H.
Qed.

Lemma rev_repl_shaped r : shaped rev_key (deps_regex_rev_repl r).
Proof.
  exists (fmt_d r). split; [|reflexivity].
  apply List.Forall_forall. intros c H.
  apply fmt_d_chars in H as [H| ->].
  - split; intros ->; discriminate H.
  - split; discriminate.
Qed.

Lemma hash_field_shaped f : is_field hash_key is_hex f -> shaped hash_key f.
Proof.
  intros (v & Hv & ->). exists v. split; [|reflexivity].
  apply List.Forall_forall. intros c H.
  rewrite forallb_forall in Hv. apply Hv in H.
  split; intros ->; discriminate H.
Qed.

(** ** One revision field and one hash field *)

Lemma app_eq_len_le {A} (a b c d : list A) :
  a ++ b = c ++ d -> (length c <= length a)%nat ->
  exists z, a = c ++ z /\ d = z ++ b.
Proof.
  intros H L. apply app_eq_app in H as [l [[-> ->]|[-> ->]]].
  - exists l. auto.
  - rewrite length_app in L. destruct l; [|simpl in L; lia].
    exists []. rewrite !app_nil_r. auto.
Qed.

Ltac len := rewrite ?length_app in *; simpl in *; lia.

Section OneOfEach.

Variables (r : Z) (h : str).

Let Nr := deps_regex_rev_repl r.
Let Nh := deps_regex_hash_repl h.

(** A hash field of the text obtained by putting [Nr] in place of a
    revision field is a hash field of the original text, at the
    position that corresponds. *)
Lemma hash_field_transfer a fr b x f y :
  is_rev fr -> is_hash f ->
  a ++ Nr ++ b = x ++ f ++ y ->
  (exists z, a = x ++ f ++ z /\ y = z ++ Nr ++ b)
  \/ (exists z, x = a ++ Nr ++ z /\ b = z ++ f ++ y).
Proof.
  intros Hr Hf Heq.
  destruct (fields_apart (a ++ Nr ++ b) x f y a Nr b Heq eq_refl
              (hash_field_shaped f Hf) (rev_repl_shaped r)) as [L|L].
  - left. rewrite (app_assoc x f y) in Heq.
    apply app_eq_len_le in Heq as (z & -> & ->); [|len].
    exists z. rewrite <- app_assoc. auto.
  - right. rewrite (app_assoc a Nr b) in Heq. symmetry in Heq.
    apply app_eq_len_le in Heq as (z & -> & ->); [|len].
    exists z. rewrite <- app_assoc. auto.
Qed.

Lemma rewrite_rev_first data pre fr mid fh post :
  data = pre ++ fr ++ mid ++ fh ++ post ->
  is_rev fr -> is_hash fh ->
  (forall x f y, data = x ++ f ++ y -> is_rev f -> length x = length pre) ->
  (forall x f y, data = x ++ f ++ y -> is_hash f ->
                 length x = length (pre ++ fr ++ mid)) ->
  sub deps_regex_hash Nh (sub deps_regex_rev Nr data)
  = pre ++ Nr ++ mid ++ Nh ++ post.
Proof.
  intros -> Hfr Hfh Ur Uh.
  pose proof (field_length _ _ _ Hfr) as Lr.
  pose proof (field_length _ _ _ Hfh) as Lh.
  change deps_regex_rev with (field_regex rev_key is_digit).
  change deps_regex_hash with (field_regex hash_key is_hex).
  rewrite (sub_first_field rev_key is_digit Nr eq_refl pre fr _ Hfr).
  2:{ intros x f' y Heq Hf'. rewrite (Ur x f' y Heq Hf'). lia. }
  rewrite (sub_no_field rev_key is_digit Nr eq_refl (mid ++ fh ++ post)).
  2:{ intros x f' y Heq Hf'.
      specialize (Ur (pre ++ fr ++ x) f' y).
      rewrite Heq, <- !app_assoc in Ur. specialize (Ur eq_refl Hf'). len. }
  replace (pre ++ Nr ++ mid ++ fh ++ post)
    with ((pre ++ Nr ++ mid) ++ fh ++ post) by (rewrite <- !app_assoc; reflexivity).
  rewrite (sub_first_field hash_key is_hex Nh eq_refl _ fh post Hfh).
  2:{ intros x f' y Heq Hf'. rewrite <- !app_assoc in Heq.
      apply (hash_field_transfer pre fr _ x f' y Hfr Hf') in Heq
        as [(z & -> & ->)|(z & -> & Hz)].
      - specialize (Uh x f' (z ++ fr ++ mid ++ fh ++ post)).
        rewrite <- !app_assoc in Uh. specialize (Uh eq_refl Hf'). len.
      - specialize (Uh (pre ++ fr ++ z) f' y).
        rewrite Hz, <- !app_assoc in Uh. specialize (Uh eq_refl Hf'). len. }
  rewrite (sub_no_field hash_key is_hex Nh eq_refl post).
  2:{ intros x f' y -> Hf'.
      specialize (Uh (pre ++ fr ++ mid ++ fh ++ x) f' y).
      rewrite <- !app_assoc in Uh. specialize (Uh eq_refl Hf'). len. }
  rewrite <- !app_assoc. reflexivity.
Qed.

Lemma rewrite_hash_first data pre fh mid fr post :
  data = pre ++ fh ++ mid ++ fr ++ post ->
  is_rev fr -> is_hash fh ->
  (forall x f y, data = x ++ f ++ y -> is_rev f ->
                 length x = length (pre ++ fh ++ mid)) ->
  (forall x f y, data = x ++ f ++ y -> is_hash f -> length x = length pre) ->
  sub deps_regex_hash Nh (sub deps_regex_rev Nr data)
  = pre ++ Nh ++ mid ++ Nr ++ post.
Proof.
  intros -> Hfr Hfh Ur Uh.
  pose proof (field_length _ _ _ Hfr) as Lr.
  pose proof (field_length _ _ _ Hfh) as Lh.
  change deps_regex_rev with (field_regex rev_key is_digit).
  change deps_regex_hash with (field_regex hash_key is_hex).
  replace (pre ++ fh ++ mid ++ fr ++ post)
    with ((pre ++ fh ++ mid) ++ fr ++ post) by (rewrite <- !app_assoc; reflexivity).
  rewrite (sub_first_field rev_key is_digit Nr eq_refl _ fr post Hfr).
  2:{ intros x f' y Heq Hf'. rewrite <- !app_assoc in Heq.
      rewrite (Ur x f' y Heq Hf'). lia. }
  rewrite (sub_no_field rev_key is_digit Nr eq_refl post).
  2:{ intros x f' y -> Hf'.
      specialize (Ur (pre ++ fh ++ mid ++ fr ++ x) f' y).
      rewrite <- !app_assoc in Ur. specialize (Ur eq_refl Hf'). len. }
  rewrite <- !app_assoc.
  rewrite (sub_first_field hash_key is_hex Nh eq_refl pre fh _ Hfh).
  2:{ intros x f' y Heq Hf'.
      replace (pre ++ fh ++ mid ++ Nr ++ post)
        with ((pre ++ fh ++ mid) ++ Nr ++ post) in Heq
        by (rewrite <- !app_assoc; reflexivity).
      apply (hash_field_transfer _ fr _ x f' y Hfr Hf') in Heq
        as [(z & Hz & ->)|(z & -> & Hz)]; [|len].
      specialize (Uh x f' (z ++ fr ++ post)).
      replace (pre ++ fh ++ mid ++ fr ++ post)
        with ((pre ++ fh ++ mid) ++ fr ++ post) in Uh
        by (rewrite <- !app_assoc; reflexivity).
      rewrite Hz, <- !app_assoc in Uh. specialize (Uh eq_refl Hf'). lia. }
  rewrite (sub_no_field hash_key is_hex Nh eq_refl (mid ++ Nr ++ post)).
  2:{ intros x f' y Heq Hf'.
      apply (hash_field_transfer _ fr _ x f' y Hfr Hf') in Heq
        as [(z & -> & ->)|(z & -> & ->)].
      - specialize (Uh (pre ++ fh ++ x) f' (z ++ fr ++ post)).
        rewrite <- !app_assoc in Uh. specialize (Uh eq_refl Hf'). len.
      - specialize (Uh (pre ++ fh ++ mid ++ fr ++ z) f' y).
        rewrite <- !app_assoc in Uh. specialize (Uh eq_refl Hf'). len. }
  reflexivity.
Qed.

End OneOfEach.

(** ** change_skia_deps on the file system *)

Lemma hash_repl_literal h :
  literal_template h = true ->
  literal_template (deps_regex_hash_repl h) = true.
Proof.
  unfold literal_template, deps_regex_hash_repl. intros H.
  rewrite !forallb_app, H. reflexivity.
Qed.

Lemma put_file_same name f w :
  files (fs w) !! name = Some f -> put_file name f w = w.
Proof.
  intros H. unfold put_file. rewrite (insert_id _ _ _ H).
  destruct w as [[] ? ? ? ? ?]. reflexivity.
Qed.

Lemma add_data_nil f : add_data [] f = f.
Proof. destruct f. unfold add_data. simpl. rewrite app_nil_r. reflexivity. Qed.

Lemma add_data_app a b f : add_data b (add_data a f) = add_data (a ++ b) f.
Proof. unfold add_data. simpl. rewrite app_assoc. reflexivity. Qed.

Lemma rewrite_loop_ok r h tmp input w f0 :
  literal_template h = true ->
  files (fs w) !! tmp = Some f0 ->
  for_each input (rewrite_step r h tmp) w
  = (Ok tt,
     put_file tmp (add_data (concat (map (rewritten_line r h) input)) f0) w).
Proof.
  intros Hh. revert w f0. induction input as [|line input IH]; intros w f0 H0.
  - simpl. rewrite add_data_nil, (put_file_same _ _ _ H0). reflexivity.
  - simpl. unfold bind at 1. unfold rewrite_step at 1, re_sub.
    rewrite rev_repl_literal, (hash_repl_literal h Hh).
    unfold bind, ret, file_write. rewrite H0. simpl default.
    fold (add_data (rewritten_line r h line) f0).
    fold (put_file tmp (add_data (rewritten_line r h line) f0) w).
    rewrite (IH _ (add_data (rewritten_line r h line) f0)).
    + rewrite add_data_app. unfold put_file. simpl.
      rewrite insert_insert_eq. reflexivity.
    + unfold put_file. simpl. apply lookup_insert_eq.
Qed.

(** Whatever the loop does, it touches the temporary file only. *)
Lemma rewrite_loop_frame r h tmp input w res w' :
  for_each input (rewrite_step r h tmp) w = (res, w') -> tmp_frame tmp w w'.
Proof.
  revert w. induction input as [|line input IH]; intros w H.
  - injection H as _ <-. repeat split.
  - simpl in H. unfold bind at 1 in H.
    destruct (rewrite_step r h tmp line w) as [[[]|e] w1] eqn:E.
    + apply IH in H as (H1 & H2 & H3).
      unfold rewrite_step, re_sub, bind, ret, raise, file_write in E.
      destruct (literal_template _); [|discriminate E].
      destruct (literal_template _); [|discriminate E].
      injection E as <-. simpl in *. repeat split.
      * intros p Hp. rewrite (H1 p Hp). apply lookup_insert_ne. congruence.
      * exact H2.
      * exact H3.
    + injection H as _ <-.
      unfold rewrite_step, re_sub, bind, ret, raise, file_write in E.
      destruct (literal_template _); [|injection E as _ <-; repeat split].
      destruct (literal_template _); [discriminate E|].
      injection E as _ <-. repeat split.
Qed.

Lemma rewrite_loop_nil r h tmp w res w' :
  for_each [] (rewrite_step r h tmp) w = (res, w') -> res = Ok tt.
Proof. intros H. injection H as <- _. reflexivity. Qed.

Lemma tmp_free_lookup tmp f :
  exists_path tmp f = false -> files f !! tmp = None /\ tmp ∉ dirs f.
Proof.
  unfold exists_path. intros H. apply orb_false_iff in H as [H1 H2].
  apply bool_decide_eq_false in H1.
  destruct (files f !! tmp); [discriminate|]. auto.
Qed.

(** [change_skia_deps], step by step. *)
Lemma change_skia_deps_unfold r h path w :
  change_skia_deps r h path w
  = if exists_path (deps_tmp w) (fs w) then (Raise IOError, w)
    else
      let tmp := deps_tmp w in
      let w1 := set_fs (set_files (<[tmp := empty_file]> (files (fs w)))
                          (bump_tmp (fs w))) w in
      match open_read path w1 with
      | (Raise e, w2) => (Raise e, w2)
      | (Ok input, w2) =>
          match for_each input (rewrite_step r h tmp) w2 with
          | (Raise e, w3) => (Raise e, w3)
          | (Ok _, w3) => shutil_move tmp path w3
          end
      end.
Proof.
  unfold change_skia_deps, bind at 1, NamedTemporaryFile, deps_tmp.
  destruct (exists_path _ _); [reflexivity|].
  cbv zeta. unfold bind at 1, try_finally, file_close, ret.
  unfold bind at 1.
  destruct (open_read path _) as [[input|e] w2]; [|reflexivity].
  change (fun line : str => _) with (rewrite_step r h (next_tmp_name (bs "skia_DEPS_ROLL_tmp_") (fs w))).
  destruct (for_each input _ w2) as [[[]|e] w3]; reflexivity.
Qed.

Lemma change_skia_deps_ok r h path w file :
  literal_template h = true ->
  exists_path (deps_tmp w) (fs w) = false ->
  files (fs w) !! path = Some file ->
  f_readable file = true ->
  bool_decide (path ∈ dirs (fs w)) = false ->
  same_device (fs w) || f_writable file = true ->
  exists w',
    change_skia_deps r h path w = (Ok tt, w')
    /\ file_data path w'
       = Some (concat (map (rewritten_line r h) (lines (f_data file))))
    /\ files (fs w') !! deps_tmp w = None
    /\ (forall p, p <> path -> p <> deps_tmp w ->
                  files (fs w') !! p = files (fs w) !! p).
Proof.
  intros Hh Hfree Hfile Hread Hdir Hmove.
  destruct (tmp_free_lookup _ _ Hfree) as [Htmp _].
  assert (Hne : deps_tmp w <> path).
  { intros E. rewrite E in Htmp. rewrite Hfile in Htmp. discriminate Htmp. }
  rewrite change_skia_deps_unfold, Hfree. cbv zeta.
  set (tmp := deps_tmp w) in *.
  set (w1 := set_fs _ w).
  assert (H1 : files (fs w1) !! path = Some file).
  { unfold w1. simpl. rewrite lookup_insert_ne by exact Hne. exact Hfile. }
  unfold open_read. rewrite H1, Hread.
  rewrite (rewrite_loop_ok r h tmp _ w1 empty_file Hh)
    by (unfold w1; simpl; apply lookup_insert_eq).
  set (tf := add_data _ empty_file).
  unfold shutil_move. cbn -[tf].
  rewrite Hdir. cbn -[tf]. rewrite lookup_insert_eq.
  rewrite (bool_decide_eq_false_2 (tmp = path)) by exact Hne.
  rewrite lookup_insert_ne by exact Hne.
  rewrite lookup_insert_ne by exact Hne. rewrite Hfile.
  eexists. split.
  { destruct (same_device (fs w)); simpl in *; [reflexivity|].
    rewrite Hmove. reflexivity. }
  assert (Hne' : path <> tmp) by (intros E; apply Hne; symmetry; exact E).
  unfold file_data. cbn -[tf]. repeat split.
  - rewrite lookup_insert_eq. reflexivity.
  - rewrite lookup_insert_ne by exact Hne'. apply lookup_delete_eq.
  - intros p Hp1 Hp2.
    assert (Hp1' : path <> p) by (intros E; apply Hp1; symmetry; exact E).
    assert (Hp2' : tmp <> p) by (intros E; apply Hp2; symmetry; exact E).
    rewrite lookup_insert_ne by exact Hp1'.
    rewrite lookup_delete_ne by exact Hp2'.
    rewrite lookup_insert_ne by exact Hp2'.
    apply lookup_insert_ne. exact Hp2'.
Qed.

Lemma rewritten_line_newline r h x y :
  rewritten_line r h (x ++ newline :: y)
  = rewritten_line r h x ++ newline :: rewritten_line r h y.
Proof.
  unfold rewritten_line.
  change deps_regex_rev with (field_regex rev_key is_digit).
  change deps_regex_hash with (field_regex hash_key is_hex).
  rewrite (sub_newline rev_key is_digit); [|reflexivity|reflexivity|].
  - rewrite (sub_newline hash_key is_hex); [reflexivity|reflexivity|reflexivity|].
    vm_compute. intuition discriminate.
  - vm_compute. intuition discriminate.
Qed.

Lemma rewritten_lines r h data :
  concat (map (rewritten_line r h) (lines data)) = rewritten_line r h data.
Proof.
  apply concat_map_lines; [reflexivity|apply rewritten_line_newline].
Qed.

Lemma rewritten_line_no_match r h line :
  search deps_regex_rev line = None -> search deps_regex_hash line = None ->
  rewritten_line r h line = line.
Proof.
  intros Hr Hh. unfold rewritten_line.
  change deps_regex_rev with (field_regex rev_key is_digit) in *.
  change deps_regex_hash with (field_regex hash_key is_hex) in *.
  rewrite (sub_no_field rev_key is_digit _ eq_refl line)
    by (apply search_none_no_field; [reflexivity|exact Hr]).
  apply sub_no_field; [reflexivity|].
  apply search_none_no_field; [reflexivity|exact Hh].
Qed.

(** ** C3: lines without a field *)

(** C3: when [change_skia_deps] rewrites a manifest, the new content is
    made of one output line per input line, and an input line in which
    neither pattern matches is written as it is. *)
Theorem change_skia_deps_keeps_other_lines r h path w file :
  literal_template h = true ->
  exists_path (deps_tmp w) (fs w) = false ->
  files (fs w) !! path = Some file ->
  f_readable file = true ->
  bool_decide (path ∈ dirs (fs w)) = false ->
  same_device (fs w) || f_writable file = true ->
  exists w' out,
    change_skia_deps r h path w = (Ok tt, w')
    /\ file_data path w' = Some (concat out)
    /\ length out = length (lines (f_data file))
    /\ forall i line,
         nth_error (lines (f_data file)) i = Some line ->
         search deps_regex_rev line = None ->
         search deps_regex_hash line = None ->
         nth_error out i = Some line.
Proof.
  intros Hh Hfree Hfile Hread Hdir Hmove.
  destruct (change_skia_deps_ok r h path w file Hh Hfree Hfile Hread Hdir Hmove)
    as (w' & Hrun & Hdata & _).
  exists w', (map (rewritten_line r h) (lines (f_data file))).
  repeat split; auto.
  - apply length_map.
  - intros i line Hi Hr Hs. rewrite nth_error_map, Hi. simpl.
    rewrite (rewritten_line_no_match r h line Hr Hs). reflexivity.
Qed.

Lemma change_skia_deps_keeps_other_lines_witness :
  exists w' out,
    change_skia_deps 12345 sample_hash (bs "DEPS") sample_world = (Ok tt, w')
    /\ file_data (bs "DEPS") w' = Some (concat out)
    /\ length out = 4%nat
    /\ nth_error out 0 = Some (bs "vars = {" ++ [newline])
    /\ nth_error out 3 = Some (bs "}" ++ [newline]).
Proof.
  destruct (change_skia_deps_keeps_other_lines 12345 sample_hash (bs "DEPS")
              sample_world (sample_file sample_manifest true))
    as (w' & out & Hrun & Hdata & Hlen & Hkeep);
    [reflexivity|reflexivity|reflexivity|reflexivity|reflexivity|reflexivity|].
  exists w', out.
  split; [exact Hrun|]. split; [exact Hdata|]. split; [exact Hlen|].
  split; [apply (Hkeep 0%nat)|apply (Hkeep 3%nat)]; reflexivity.
Defined.

(** ** C4: how many substitutions a line gets *)

(** C4, as stated, fails: on a line that holds the revision field twice,
    the second field is replaced as well. *)
Lemma change_skia_deps_second_field_counterexample :
  let w' := snd (change_skia_deps 7 sample_hash (bs "DEPS") two_revisions_world) in
  let new := deps_regex_rev_repl 7 in
  file_data (bs "DEPS") w' = Some (new ++ bs " " ++ new ++ [newline])
  /\ file_data (bs "DEPS") w'
     <> Some (new ++ bs " " ++ rev_key ++ bs "2" ++ field_end ++ [newline]).
Proof.
  vm_compute. split; [reflexivity|discriminate].
Qed.

(** C4 (amended): on every input line [change_skia_deps] replaces every
    field that matches the revision-key pattern, and then every field
    that matches the hash-key pattern, fields being found from the left
    without overlap; text between the fields is kept. *)
Theorem change_skia_deps_replaces_every_field r h path w file :
  literal_template h = true ->
  exists_path (deps_tmp w) (fs w) = false ->
  files (fs w) !! path = Some file ->
  f_readable file = true ->
  bool_decide (path ∈ dirs (fs w)) = false ->
  same_device (fs w) || f_writable file = true ->
  exists w' out,
    change_skia_deps r h path w = (Ok tt, w')
    /\ file_data path w' = Some (concat out)
    /\ Forall2
         (fun line written =>
            exists mid,
              replaced_all rev_key is_digit (deps_regex_rev_repl r) line mid
              /\ replaced_all hash_key is_hex (deps_regex_hash_repl h)
                   mid written)
         (lines (f_data file)) out.
Proof.
  intros Hh Hfree Hfile Hread Hdir Hmove.
  destruct (change_skia_deps_ok r h path w file Hh Hfree Hfile Hread Hdir Hmove)
    as (w' & Hrun & Hdata & _).
  exists w', (map (rewritten_line r h) (lines (f_data file))).
  split; [exact Hrun|]. split; [exact Hdata|].
  clear Hdata.
  induction (lines (f_data file)) as [|line ls IH]; simpl;
    [constructor|constructor; [|exact IH]].
  exists (sub deps_regex_rev (deps_regex_rev_repl r) line). split.
  - apply (sub_replaces_all rev_key is_digit eq_refl).
  - apply (sub_replaces_all hash_key is_hex eq_refl).
Qed.

Lemma change_skia_deps_replaces_every_field_witness :
  exists w' out,
    change_skia_deps 7 sample_hash (bs "DEPS") two_revisions_world = (Ok tt, w')
    /\ file_data (bs "DEPS") w' = Some (concat out)
    /\ Forall2
         (fun line written =>
            exists mid,
              replaced_all rev_key is_digit (deps_regex_rev_repl 7) line mid
              /\ replaced_all hash_key is_hex (deps_regex_hash_repl sample_hash)
                   mid written)
         [two_revisions_line] out.
Proof.
  apply (change_skia_deps_replaces_every_field 7 sample_hash (bs "DEPS")
           two_revisions_world (sample_file two_revisions_line true));
    reflexivity.
Defined.

(** ** C2: one revision field and one hash field *)

Lemma only_match key cls data i x f y :
  cls dquote = false ->
  matches_at (field_regex key cls) data = [i] ->
  data = x ++ f ++ y -> is_field key cls f -> length x = i.
Proof.
  intros Hq Hm Heq Hf.
  assert (H : In (length x) (matches_at (field_regex key cls) data)).
  { apply matches_at_field; [exact Hq|]. exists x, f, y. auto. }
  rewrite Hm in H. destruct H as [H|[]]. congruence.
Qed.

(** C2: a manifest with exactly one revision field and one hash field
    (the one after the other, in either order) is rewritten to the same
    text with ["skia_revision": "r",] in place of the revision field and
    ["skia_hash": "h",] in place of the hash field; no other file
    changes, and the temporary file is gone. *)
Theorem change_skia_deps_one_field_each
    r h path w file (rev_first : bool) pre f1 mid f2 post :
  literal_template h = true ->
  exists_path (deps_tmp w) (fs w) = false ->
  files (fs w) !! path = Some file ->
  f_readable file = true ->
  bool_decide (path ∈ dirs (fs w)) = false ->
  same_device (fs w) || f_writable file = true ->
  f_data file = pre ++ f1 ++ mid ++ f2 ++ post ->
  (if rev_first then is_rev f1 /\ is_hash f2 else is_hash f1 /\ is_rev f2) ->
  matches_at deps_regex_rev (f_data file)
  = [if rev_first then length pre else length (pre ++ f1 ++ mid)] ->
  matches_at deps_regex_hash (f_data file)
  = [if rev_first then length (pre ++ f1 ++ mid) else length pre] ->
  let new_rev := rev_key ++ fmt_d r ++ field_end in
  let new_hash := hash_key ++ h ++ field_end in
  exists w',
    change_skia_deps r h path w = (Ok tt, w')
    /\ file_data path w'
       = Some (pre ++ (if rev_first then new_rev else new_hash) ++ mid
                 ++ (if rev_first then new_hash else new_rev) ++ post)
    /\ files (fs w') !! deps_tmp w = None
    /\ forall p, p <> path -> p <> deps_tmp w ->
                 files (fs w') !! p = files (fs w) !! p.
Proof.
  intros Hh Hfree Hfile Hread Hdir Hmove Hdata Hfields Mr Mh new_rev new_hash.
  destruct (change_skia_deps_ok r h path w file Hh Hfree Hfile Hread Hdir Hmove)
    as (w' & Hrun & Hnew & Htmp & Hother).
  exists w'. split; [exact Hrun|]. split; [|split; assumption].
  rewrite Hnew, rewritten_lines. f_equal. unfold rewritten_line.
  change deps_regex_rev with (field_regex rev_key is_digit) in Mr.
  change deps_regex_hash with (field_regex hash_key is_hex) in Mh.
  destruct rev_first.
  - destruct Hfields as [Hr Hs].
    apply (rewrite_rev_first r h _ pre f1 mid f2 post Hdata Hr Hs).
    + intros x f y Heq Hf. exact (only_match _ _ _ _ x f y eq_refl Mr Heq Hf).
    + intros x f y Heq Hf. exact (only_match _ _ _ _ x f y eq_refl Mh Heq Hf).
  - destruct Hfields as [Hs Hr].
    apply (rewrite_hash_first r h _ pre f1 mid f2 post Hdata Hr Hs).
    + intros x f y Heq Hf. exact (only_match _ _ _ _ x f y eq_refl Mr Heq Hf).
    + intros x f y Heq Hf. exact (only_match _ _ _ _ x f y eq_refl Mh Heq Hf).
Qed.

(** Rolling the sample manifest to revision 12345. *)
Lemma change_skia_deps_one_field_each_witness :
  exists w',
    change_skia_deps 12345 sample_hash (bs "DEPS") sample_world = (Ok tt, w')
    /\ file_data (bs "DEPS") w'
       = Some (sample_pre ++ (rev_key ++ bs "12345" ++ field_end)
                 ++ sample_mid ++ (hash_key ++ sample_hash ++ field_end)
                 ++ sample_post)
    /\ files (fs w') !! deps_tmp sample_world = None
    /\ forall p, p <> bs "DEPS" -> p <> deps_tmp sample_world ->
                 files (fs w') !! p = files (fs sample_world) !! p.
Proof.
  apply (change_skia_deps_one_field_each 12345 sample_hash (bs "DEPS")
           sample_world (sample_file sample_manifest true) true
           sample_pre sample_rev_field sample_mid sample_hash_field sample_post);
    try reflexivity.
  split.
  - exists (bs "12300"). split; reflexivity.
  - exists (bs "0a1b2c"). split; reflexivity.
Defined.

(** ** C5: failures of change_skia_deps *)

Lemma literal_hash_repl_inv h :
  literal_template (deps_regex_hash_repl h) = true -> literal_template h = true.
Proof.
  unfold literal_template, deps_regex_hash_repl.
  rewrite !forallb_app, !andb_true_iff. tauto.
Qed.

Lemma rewrite_loop_inv r h tmp input w w' f0 :
  for_each input (rewrite_step r h tmp) w = (Ok tt, w') ->
  files (fs w) !! tmp = Some f0 ->
  w' = put_file tmp (add_data (concat (map (rewritten_line r h) input)) f0) w.
Proof.
  intros H H0. destruct input as [|line input].
  - injection H as <-. simpl. rewrite add_data_nil.
    symmetry. apply put_file_same. exact H0.
  - assert (Hh : literal_template h = true).
    { simpl in H. unfold bind at 1, rewrite_step at 1, re_sub in H.
      rewrite rev_repl_literal in H. unfold bind at 1, ret at 1 in H.
      destruct (literal_template (deps_regex_hash_repl h)) eqn:E.
      - exact (literal_hash_repl_inv h E).
      - discriminate H. }
    rewrite (rewrite_loop_ok r h tmp _ w f0 Hh H0) in H.
    injection H as <-. reflexivity.
Qed.

Lemma change_skia_deps_outcome r h path w :
  deps_outcome r h path w (fst (change_skia_deps r h path w))
    (snd (change_skia_deps r h path w)).
Proof.
  rewrite change_skia_deps_unfold.
  destruct (exists_path (deps_tmp w) (fs w)) eqn:Hfree; [apply deps_no_tmp; exact Hfree|].
  cbv zeta. set (tmp := deps_tmp w).
  set (w1 := set_fs _ w).
  assert (Hw1 : w1 = put_file tmp empty_file (set_fs (bump_tmp (fs w)) w))
    by reflexivity.
  assert (Ht1 : files (fs w1) !! tmp = Some empty_file)
    by (unfold w1; simpl; apply lookup_insert_eq).
  assert (Hp1 : path <> tmp -> files (fs w1) !! path = files (fs w) !! path).
  { intros Hne. unfold w1. simpl. apply lookup_insert_ne. congruence. }
  unfold open_read.
  destruct (files (fs w1) !! path) as [file|] eqn:Hfile.
  - destruct (f_readable file) eqn:Hread.
    + destruct (for_each (lines (f_data file)) (rewrite_step r h tmp) w1)
        as [[[]|e] w3] eqn:Hloop.
      * apply (rewrite_loop_inv _ _ _ _ _ _ empty_file) in Hloop; [|exact Ht1].
        destruct (shutil_move tmp path w3) as [res w'] eqn:Hmove. simpl.
        apply (deps_moved r h path w w1 w3 res w' (f_data file)); auto.
        -- unfold file_data. rewrite Hfile. reflexivity.
        -- intros Hne. exists file. split; [symmetry; exact (Hp1 Hne)|auto].
      * simpl. destruct (decide (path = tmp)) as [->|Hne].
        -- rewrite Ht1 in Hfile. injection Hfile as <-. simpl in Hloop.
           discriminate Hloop.
        -- apply (deps_loop_raises r h path w w1 w3 e file); auto.
           ++ symmetry. exact (Hp1 Hne).
           ++ exact (rewrite_loop_frame _ _ _ _ _ _ _ Hloop).
    + simpl. destruct (decide (path = tmp)) as [->|Hne].
      * rewrite Ht1 in Hfile. injection Hfile as <-. discriminate Hread.
      * apply (deps_no_source r h path w w1); auto.
        right. exists file. split; [symmetry; exact (Hp1 Hne)|auto].
  - simpl. destruct (decide (path = tmp)) as [->|Hne].
    + rewrite Ht1 in Hfile. discriminate Hfile.
    + apply (deps_no_source r h path w w1); auto.
      left. symmetry. exact (Hp1 Hne).
Qed.

Lemma shutil_move_self tmp w f :
  bool_decide (tmp ∈ dirs (fs w)) = false ->
  files (fs w) !! tmp = Some f ->
  fst (shutil_move tmp tmp w) = Ok tt.
Proof.
  intros Hd Hf. unfold shutil_move. rewrite Hd. simpl. rewrite Hf.
  rewrite bool_decide_eq_true_2 by reflexivity.
  rewrite orb_true_r. reflexivity.
Qed.

Lemma shutil_move_file tmp path w res w' tf :
  bool_decide (path ∈ dirs (fs w)) = false ->
  files (fs w) !! tmp = Some tf ->
  shutil_move tmp path w = (res, w') ->
  res = Ok tt -> files (fs w') !! path = Some tf.
Proof.
  intros Hd Hf. unfold shutil_move. rewrite Hd. simpl. rewrite Hf.
  intros H ->.
  repeat match type of H with
         | context [if ?b then _ else _] => destruct b
         | context [match ?o with Some _ => _ | None => _ end] => destruct o
         end; try discriminate H; injection H as <-; simpl;
    apply lookup_insert_eq.
Qed.

Lemma change_skia_deps_copy_read_only r h path w file :
  literal_template h = true ->
  exists_path (deps_tmp w) (fs w) = false ->
  files (fs w) !! path = Some file ->
  f_readable file = true ->
  bool_decide (path ∈ dirs (fs w)) = false ->
  same_device (fs w) = false ->
  f_writable file = false ->
  fst (change_skia_deps r h path w) = Raise IOError.
Proof.
  intros Hh Hfree Hfile Hread Hdir Hdev Hwrite.
  destruct (tmp_free_lookup _ _ Hfree) as [Htmp _].
  assert (Hne : deps_tmp w <> path).
  { intros E. rewrite E in Htmp. rewrite Hfile in Htmp. discriminate Htmp. }
  rewrite change_skia_deps_unfold, Hfree. cbv zeta.
  set (tmp := deps_tmp w) in *.
  set (w1 := set_fs _ w).
  assert (H1 : files (fs w1) !! path = Some file).
  { unfold w1. simpl. rewrite lookup_insert_ne by exact Hne. exact Hfile. }
  unfold open_read. rewrite H1, Hread.
  rewrite (rewrite_loop_ok r h tmp _ w1 empty_file Hh)
    by (unfold w1; simpl; apply lookup_insert_eq).
  set (tf := add_data _ empty_file).
  unfold shutil_move. cbn -[tf].
  rewrite Hdir. cbn -[tf]. rewrite lookup_insert_eq.
  rewrite (bool_decide_eq_false_2 (tmp = path)) by exact Hne.
  rewrite lookup_insert_ne by exact Hne.
  rewrite lookup_insert_ne by exact Hne. rewrite Hfile, Hdev, Hwrite.
  reflexivity.
Qed.

Lemma deps_outcome_facts r h path w res w' :
  deps_outcome r h path w res w' ->
  (res = Ok tt -> path <> deps_tmp w ->
      bool_decide (path ∈ dirs (fs w)) = false ->
      exists file,
        files (fs w) !! path = Some file /\ f_readable file = true
        /\ file_data path w'
           = Some (concat (map (rewritten_line r h) (lines (f_data file)))))
  /\ (files (fs w) !! path = None -> path <> deps_tmp w -> res = Raise IOError)
  /\ (forall file, files (fs w) !! path = Some file ->
                   f_readable file = false -> res = Raise IOError).
Proof.
  intros O.
  destruct O as [Hfree|w1 Hfree Hw1 Hne Hsrc|w1 w3 e' file Hfree Hw1 Hne Hfile Hread Hframe
                |w1 w3 res w' data Hfree Hw1 Hdata Hsrc Hw3 Hmove].
  - repeat split; intros; try reflexivity; try discriminate.
  - assert (Hp : files (fs w1) !! path = files (fs w) !! path).
    { rewrite Hw1. simpl. apply lookup_insert_ne. congruence. }
    repeat split; intros; try reflexivity; try discriminate; auto.
  - assert (Hp : files (fs w3) !! path = files (fs w) !! path).
    { destruct Hframe as (Hf & _). rewrite (Hf path Hne).
      rewrite Hw1. simpl. apply lookup_insert_ne. congruence. }
    repeat split; intros; try discriminate; auto; try congruence.
  - destruct (tmp_free_lookup _ _ Hfree) as [Htmp Hnd].
    set (tf := add_data (concat (map (rewritten_line r h) (lines data)))
                 empty_file) in *.
    assert (Ht3 : files (fs w3) !! deps_tmp w = Some tf)
      by (rewrite Hw3; simpl; apply lookup_insert_eq).
    assert (Hd3 : dirs (fs w3) = dirs (fs w)) by (rewrite Hw3, Hw1; reflexivity).
    split; [|split].
    + intros -> Hne Hdir. destruct (Hsrc Hne) as (file & Hfile & Hread & <-).
      exists file. split; [exact Hfile|]. split; [exact Hread|].
      unfold file_data.
      rewrite (shutil_move_file (deps_tmp w) path w3 (Ok tt) w' tf); auto.
      rewrite Hd3. exact Hdir.
    + intros Hnone Hne. destruct (Hsrc Hne) as (file & Hfile & _). congruence.
    + intros file Hfile Hread.
      assert (Hne : path <> deps_tmp w) by congruence.
      destruct (Hsrc Hne) as (file' & Hfile' & Hread' & _). congruence.
Qed.

(** C5, as stated, fails: a manifest that is readable but not writable
    is replaced all the same when the temporary file can be renamed over
    it. *)
Lemma change_skia_deps_read_only_counterexample :
  (exists file, files (fs read_only_world) !! bs "DEPS" = Some file
                /\ f_writable file = false)
  /\ fst (change_skia_deps 12345 sample_hash (bs "DEPS") read_only_world)
     = Ok tt.
Proof.
  split; [|reflexivity].
  exists (sample_file sample_manifest false). split; reflexivity.
Qed.

(** [rewrite_to_temp], step by step. *)
Lemma rewrite_to_temp_unfold r h path w :
  rewrite_to_temp r h path w
  = if exists_path (deps_tmp w) (fs w) then (Raise IOError, w)
    else
      let tmp := deps_tmp w in
      let w1 := set_fs (set_files (<[tmp := empty_file]> (files (fs w)))
                          (bump_tmp (fs w))) w in
      match open_read path w1 with
      | (Raise e, w2) => (Raise e, w2)
      | (Ok input, w2) =>
          match for_each input (rewrite_step r h tmp) w2 with
          | (Raise e, w3) => (Raise e, w3)
          | (Ok _, w3) => (Ok tmp, w3)
          end
      end.
Proof.
  unfold rewrite_to_temp, bind at 1, NamedTemporaryFile, deps_tmp.
  destruct (exists_path _ _); [reflexivity|].
  cbv zeta. unfold bind at 1, try_finally, file_close, ret.
  unfold bind at 1.
  destruct (open_read path _) as [[input|e] w2]; [|reflexivity].
  change (fun line : str => _) with (rewrite_step r h (next_tmp_name (bs "skia_DEPS_ROLL_tmp_") (fs w))).
  destruct (for_each input _ w2) as [[[]|e] w3]; reflexivity.
Qed.

(** The move is what is left of [change_skia_deps] after the rewrite. *)
Lemma change_skia_deps_then_move r h path w :
  change_skia_deps r h path w
  = match rewrite_to_temp r h path w with
    | (Ok tmp, w1) => shutil_move tmp path w1
    | (Raise e, w1) => (Raise e, w1)
    end.
Proof.
  rewrite change_skia_deps_unfold, rewrite_to_temp_unfold.
  destruct (exists_path (deps_tmp w) (fs w)); [reflexivity|].
  cbv zeta. destruct (open_read path _) as [[input|e] w2]; [|reflexivity].
  destruct (for_each input _ w2) as [[[]|e] w3]; reflexivity.
Qed.

(** What the rewrite leaves: the file at the path is as before, and a
    rewrite that succeeds has filled the temporary file. *)
Lemma rewrite_to_temp_outcome r h path w res w1 :
  rewrite_to_temp r h path w = (res, w1) ->
  (path <> deps_tmp w \/ (exists e, res = Raise e) ->
   files (fs w1) !! path = files (fs w) !! path)
  /\ (forall tmp, res = Ok tmp ->
        tmp = deps_tmp w /\ exists_path tmp (fs w) = false
        /\ dirs (fs w1) = dirs (fs w)
        /\ same_device (fs w1) = same_device (fs w))
  /\ (forall tmp, res = Ok tmp -> literal_template h = true -> path <> tmp ->
        exists file,
          files (fs w) !! path = Some file /\ f_readable file = true
          /\ file_data tmp w1
             = Some (concat (map (rewritten_line r h) (lines (f_data file))))).
Proof.
  rewrite rewrite_to_temp_unfold.
  destruct (exists_path (deps_tmp w) (fs w)) eqn:Hfree.
  { intros H. injection H as <- <-.
    split; [reflexivity|]. split; intros tmp H; discriminate H. }
  cbv zeta. set (tmp := deps_tmp w). set (w0 := set_fs _ w).
  assert (Ht0 : files (fs w0) !! tmp = Some empty_file)
    by (unfold w0; simpl; apply lookup_insert_eq).
  assert (Hp0 : forall p, p <> tmp -> files (fs w0) !! p = files (fs w) !! p).
  { intros p Hne. unfold w0. simpl. apply lookup_insert_ne. congruence. }
  unfold open_read.
  destruct (files (fs w0) !! path) as [file|] eqn:Hfile.
  2:{ intros H. injection H as <- <-.
      split; [|split; intros t H; discriminate H].
      intros _. destruct (decide (path = tmp)) as [E|Hne].
      - rewrite E, Ht0 in Hfile. discriminate Hfile.
      - apply Hp0. exact Hne. }
  destruct (f_readable file) eqn:Hread.
  2:{ intros H. injection H as <- <-.
      split; [|split; intros t H; discriminate H].
      intros _. destruct (decide (path = tmp)) as [E|Hne].
      - rewrite E, Ht0 in Hfile. injection Hfile as <-. discriminate Hread.
      - apply Hp0. exact Hne. }
  destruct (for_each (lines (f_data file)) (rewrite_step r h tmp) w0)
    as [[[]|e] w3] eqn:Hloop; intros H; injection H as <- <-.
  - pose proof (rewrite_loop_frame _ _ _ _ _ _ _ Hloop) as (Hf & Hd & Hs).
    split; [|split].
    + intros [Hne|[e He]]; [|discriminate He].
      rewrite (Hf path Hne). apply Hp0. exact Hne.
    + intros t [= <-]. split; [reflexivity|]. split; [exact Hfree|].
      split; [rewrite Hd|rewrite Hs]; reflexivity.
    + intros t [= <-] Hh Hne. exists file.
      split; [rewrite <- (Hp0 path Hne); exact Hfile|]. split; [exact Hread|].
      rewrite (rewrite_loop_ok r h tmp _ w0 empty_file Hh Ht0) in Hloop.
      injection Hloop as <-. unfold file_data, put_file. simpl.
      rewrite lookup_insert_eq. simpl. reflexivity.
  - pose proof (rewrite_loop_frame _ _ _ _ _ _ _ Hloop) as (Hf & _).
    split; [|split; intros t H; discriminate H].
    intros _. destruct (decide (path = tmp)) as [E|Hne].
    + rewrite E, Ht0 in Hfile. injection Hfile as <-. simpl in Hloop.
      discriminate Hloop.
    + rewrite (Hf path Hne). apply Hp0. exact Hne.
Qed.

(** C5 (amended): [change_skia_deps] fills a new temporary file and
    calls [shutil.move] only when every line is rewritten and the file is
    closed.  A failure during the rewrite (no temporary file to be had, a
    manifest that is missing or cannot be read, a substitution that
    raises) ends the call with that exception, before any move, and the
    file at the given path is as it was.  When the rewrite succeeds, with
    a hash free of backslashes, the manifest is still as it was and the
    temporary file holds the complete rewriting of it; when the call
    returns, that is what the manifest holds.  The call fails with
    [IOError] when the path does not exist or cannot be read.  A manifest
    that can be read but not written is not refused: when the temporary
    file can be renamed over it, it is replaced. *)
Theorem change_skia_deps_failure_modes r h path w :
  let rewrite := rewrite_to_temp r h path w in
  let run := change_skia_deps r h path w in
  run = match rewrite with
        | (Ok tmp, w1) => shutil_move tmp path w1
        | (Raise e, w1) => (Raise e, w1)
        end
  /\ (forall e, fst rewrite = Raise e ->
        run = (Raise e, snd rewrite)
        /\ files (fs (snd run)) !! path = files (fs w) !! path)
  /\ (forall tmp, fst rewrite = Ok tmp -> literal_template h = true ->
        path <> tmp ->
        exists file,
          files (fs w) !! path = Some file /\ f_readable file = true
          /\ files (fs (snd rewrite)) !! path = Some file
          /\ file_data tmp (snd rewrite)
             = Some (concat (map (rewritten_line r h) (lines (f_data file)))))
  /\ (fst run = Ok tt -> literal_template h = true -> path <> deps_tmp w ->
      bool_decide (path ∈ dirs (fs w)) = false ->
      exists file,
        files (fs w) !! path = Some file /\ f_readable file = true
        /\ file_data path (snd run)
           = Some (concat (map (rewritten_line r h) (lines (f_data file)))))
  /\ (files (fs w) !! path = None -> path <> deps_tmp w ->
      fst run = Raise IOError)
  /\ (forall file, files (fs w) !! path = Some file ->
                   f_readable file = false -> fst run = Raise IOError)
  /\ (forall file, files (fs w) !! path = Some file ->
                   f_readable file = true -> f_writable file = false ->
                   literal_template h = true ->
                   exists_path (deps_tmp w) (fs w) = false ->
                   bool_decide (path ∈ dirs (fs w)) = false ->
                   same_device (fs w) = true ->
                   fst run = Ok tt
                   /\ file_data path (snd run)
                      = Some (concat (map (rewritten_line r h)
                                        (lines (f_data file))))).
Proof.
  intros rewrite run.
  pose proof (change_skia_deps_then_move r h path w) as Hseq.
  fold run rewrite in Hseq.
  pose proof (deps_outcome_facts r h path w (fst run) (snd run)
                (change_skia_deps_outcome r h path w)) as (H2 & H3 & H4).
  destruct rewrite as [res w1] eqn:Erw.
  pose proof (rewrite_to_temp_outcome r h path w res w1 Erw) as (O1 & O2 & O3).
  split; [exact Hseq|]. split; [|split; [|split; [|split; [|split]]]].
  - simpl. intros e ->. rewrite Hseq. simpl. split; [reflexivity|].
    apply O1. right. exists e. reflexivity.
  - simpl. intros tmp -> Hh Hne.
    destruct (O2 tmp eq_refl) as (-> & _).
    destruct (O3 _ eq_refl Hh Hne) as (file & Hfile & Hread & Hdata).
    exists file. split; [exact Hfile|]. split; [exact Hread|].
    split; [|exact Hdata].
    rewrite <- Hfile. apply O1. left. exact Hne.
  - intros Hok _ Hne Hdir. exact (H2 Hok Hne Hdir).
  - exact H3.
  - exact H4.
  - intros file Hfile Hread Hwrite Hh Hfree Hdir Hdev.
    destruct (change_skia_deps_ok r h path w file Hh Hfree Hfile Hread Hdir)
      as (w0 & Hrun & Hdata & _); [rewrite Hdev; reflexivity|].
    fold run in Hrun. rewrite Hrun. simpl. split; [reflexivity|exact Hdata].
Qed.

(** ** Frame rules for the monad *)

Section Keeps.

Variable R : World -> World -> Prop.
Hypothesis R_refl : forall w, R w w.
Hypothesis R_trans : forall w1 w2 w3, R w1 w2 -> R w2 w3 -> R w1 w3.

Lemma keeps_ret {A} (a : A) : keeps R (ret a).
Proof using R_refl R_trans. intros w res w' H. injection H as _ <-. apply R_refl. Qed.

Lemma keeps_raise {A} e : keeps R (@raise A e).
Proof using R_refl R_trans. intros w res w' H. injection H as _ <-. apply R_refl. Qed.

Lemma keeps_bind {A B} (m : M A) (f : A -> M B) :
  keeps R m -> (forall a, keeps R (f a)) -> keeps R (bind m f).
Proof using R_refl R_trans.
  intros Hm Hf w res w' H. unfold bind in H.
  destruct (m w) as [[a|e] w1] eqn:E.
  - apply (R_trans _ w1); [exact (Hm _ _ _ E)|exact (Hf a _ _ _ H)].
  - injection H as _ <-. exact (Hm _ _ _ E).
Qed.

Lemma keeps_try_finally {A} (body : M A) (final : M unit) :
  keeps R body -> keeps R final -> keeps R (try_finally body final).
Proof using R_refl R_trans.
  intros Hb Hf w res w' H. unfold try_finally in H.
  destruct (body w) as [r1 w1] eqn:E1.
  destruct (final w1) as [[[]|e] w2] eqn:E2; injection H as _ <-;
    exact (R_trans _ w1 _ (Hb _ _ _ E1) (Hf _ _ _ E2)).
Qed.

Lemma keeps_try_except {A} (body : M A) kinds (handler : exn -> M A) :
  keeps R body -> (forall e, keeps R (handler e)) ->
  keeps R (try_except body kinds handler).
Proof using R_refl R_trans.
  intros Hb Hh w res w' H. unfold try_except in H.
  destruct (body w) as [[a|e] w1] eqn:E1.
  - injection H as _ <-. exact (Hb _ _ _ E1).
  - destruct (kinds e).
    + exact (R_trans _ w1 _ (Hb _ _ _ E1) (Hh e _ _ _ H)).
    + injection H as _ <-. exact (Hb _ _ _ E1).
Qed.

Lemma keeps_for_each {A} (xs : list A) (body : A -> M unit) :
  (forall x, keeps R (body x)) -> keeps R (for_each xs body).
Proof using R_refl R_trans.
  intros Hb. induction xs as [|x xs IH]; simpl.
  - apply keeps_ret.
  - apply keeps_bind; [apply Hb|intros _; exact IH].
Qed.

Lemma keeps_when b (m : M unit) : keeps R m -> keeps R (when b m).
Proof using R_refl R_trans. intros Hm. destruct b; simpl; [exact Hm|apply keeps_ret]. Qed.

Lemma keeps_assert b : keeps R (assert b).
Proof using R_refl R_trans. destruct b; simpl; [apply keeps_ret|apply keeps_raise]. Qed.

Lemma keeps_if {A} (b : bool) (m1 m2 : M A) :
  keeps R m1 -> keeps R m2 -> keeps R (if b then m1 else m2).
Proof using R_refl R_trans. destruct b; auto. Qed.

(** The checked calls keep what the launch of the program keeps. *)
Lemma keeps_check_call exe cmd cwd :
  keeps R (subprocess_call exe cmd cwd) -> keeps R (check_call exe cmd cwd).
Proof using R_refl R_trans.
  intros Hc. apply keeps_bind; [exact Hc|]. intros a.
  apply keeps_if; [apply keeps_ret|apply keeps_raise].
Qed.

Lemma keeps_check_output exe cmd cwd :
  keeps R (subprocess_call exe cmd cwd) -> keeps R (check_output exe cmd cwd).
Proof using R_refl R_trans.
  intros Hc. apply keeps_bind; [exact Hc|]. intros a.
  apply keeps_if; [apply keeps_ret|apply keeps_raise].
Qed.

Lemma keeps_strip_output exe cmd cwd :
  keeps R (subprocess_call exe cmd cwd) -> keeps R (strip_output exe cmd cwd).
Proof using R_refl R_trans.
  intros Hc. apply keeps_bind; [apply keeps_check_output; exact Hc|].
  intros a. apply keeps_ret.
Qed.

End Keeps.

(** Launching a program leaves the file system alone. *)
Lemma git_exec_fs cmd cwd w : fs (snd (git_exec cmd cwd w)) = fs w.
Proof.
  unfold git_exec.
  destruct cmd, cwd; simpl;
    repeat match goal with
           | |- context [if ?b then _ else _] => destruct b
           | |- context [let '(_, _) := ?p in _] => destruct p as [[? ?] ?]
           end; reflexivity.
Qed.

Lemma subprocess_call_fs exe cmd cwd : keeps same_fs (subprocess_call exe cmd cwd).
Proof.
  intros w res w' H. unfold subprocess_call, same_fs in *.
  destruct (programs w !! exe) as [[|st]|].
  - pose proof (git_exec_fs cmd cwd (log (Ran exe cmd) w)) as G.
    destruct (git_exec cmd cwd (log (Ran exe cmd) w)) as [[st out] w1].
    injection H as _ <-. exact G.
  - injection H as _ <-. reflexivity.
  - injection H as _ <-. reflexivity.
Qed.

(** ** C7: temporary files and directories *)

Lemma same_fs_refl w : same_fs w w.
Proof. reflexivity. Qed.

Lemma same_fs_trans w1 w2 w3 : same_fs w1 w2 -> same_fs w2 w3 -> same_fs w1 w3.
Proof. unfold same_fs. congruence. Qed.

Lemma rmtree_present dir w :
  dir ∈ dirs (fs w) ->
  rmtree dir w
  = (Ok tt,
     set_skia (set_checkouts (delete dir (checkouts (skia w))) (skia w))
       (set_fs (set_dirs (dirs (fs w) ∖ {[dir]}) (fs w)) w)).
Proof.
  intros H. unfold rmtree. rewrite bool_decide_eq_true_2 by exact H. reflexivity.
Qed.

Lemma keeps_lookup_revision config revision dir :
  keeps same_fs (lookup_revision config revision dir).
Proof.
  unfold lookup_revision.
  apply (keeps_bind same_fs same_fs_refl same_fs_trans).
  - destruct revision.
    + apply (keeps_bind same_fs same_fs_refl same_fs_trans).
      * apply (keeps_strip_output same_fs same_fs_refl same_fs_trans _ _ _
                 (subprocess_call_fs _ _ _)).
      * intros a. apply (keeps_ret same_fs same_fs_refl same_fs_trans).
    + apply (keeps_bind same_fs same_fs_refl same_fs_trans).
      * apply (keeps_check_output same_fs same_fs_refl same_fs_trans _ _ _
                 (subprocess_call_fs _ _ _)).
      * intros a. destruct (search_number _ _ a).
        -- apply (keeps_bind same_fs same_fs_refl same_fs_trans).
           ++ apply (keeps_strip_output same_fs same_fs_refl
                       same_fs_trans _ _ _
                 (subprocess_call_fs _ _ _)).
           ++ intros b. apply (keeps_ret same_fs same_fs_refl same_fs_trans).
        -- apply (keeps_raise same_fs same_fs_refl same_fs_trans).
  - intros a. apply (keeps_if same_fs same_fs_refl same_fs_trans).
    + apply (keeps_raise same_fs same_fs_refl same_fs_trans).
    + apply (keeps_ret same_fs same_fs_refl same_fs_trans).
Qed.

Lemma find_revision_and_hash_temp config revision w :
  skia_git_checkout_path config = None ->
  find_revision_and_hash config revision w
  = match create_temp_skia_clone config
            (match revision with
             | None => 1%Z
             | Some _ => search_depth config
             end) w with
    | (Raise e, w2) => (Raise e, w2)
    | (Ok dir, w2) =>
        if truthy dir
        then try_finally (lookup_revision config revision dir) (rmtree dir) w2
        else (Raise AssertionError, w2)
    end.
Proof.
  intros Hpath. unfold find_revision_and_hash. rewrite Hpath.
  cbv beta iota zeta. unfold bind at 1. unfold bind at 1.
  destruct (create_temp_skia_clone config _ w) as [[dir|e] w2]; [|reflexivity].
  destruct (truthy dir); reflexivity.
Qed.

(** [create_temp_skia_clone] returns the directory it made, or raises
    with the directory removed. *)
Lemma create_temp_skia_clone_outcome config depth w :
  exists_path (clone_tmp w) (fs w) = false ->
  let run := create_temp_skia_clone config depth w in
  (fst run = Ok (clone_tmp w)
   /\ fs (snd run) = set_dirs ({[clone_tmp w]} ∪ dirs (fs w)) (bump_tmp (fs w)))
  \/ (exists e, fst run = Raise e
                /\ fs (snd run) = bump_tmp (fs w)
                /\ checkouts (skia (snd run)) !! clone_tmp w = None).
Proof.
  intros Hfree run. unfold run. clear run.
  destruct (tmp_free_lookup _ _ Hfree) as [_ Hnd].
  set (d := clone_tmp w) in *.
  assert (Hset : ({[d]} ∪ dirs (fs w)) ∖ {[d]} = dirs (fs w)) by set_solver.
  destruct (create_temp_skia_clone config depth w) as [res w'] eqn:Erun.
  unfold create_temp_skia_clone, bind at 1, mkdtemp in Erun.
  fold (clone_tmp w) in Erun. fold d in Erun. rewrite Hfree in Erun.
  set (w1 := set_fs (set_dirs ({[d]} ∪ dirs (fs w)) (bump_tmp (fs w))) w) in *.
  assert (Hd1 : d ∈ dirs (fs w1)) by (unfold w1; simpl; set_solver).
  unfold try_except in Erun.
  destruct (bind (check_call (git config) (Clone depth (skia_url config) d) None)
              (fun _ => ret d) w1) as [[dir|e] w2] eqn:Eclone.
  - left. injection Erun as <- <-.
    assert (F2 : fs w2 = fs w1).
    { refine (keeps_bind same_fs same_fs_refl same_fs_trans _ _ _ _ _ _ _ Eclone).
      - apply (keeps_check_call same_fs same_fs_refl same_fs_trans _ _ _
                 (subprocess_call_fs _ _ _)).
      - intros _. apply (keeps_ret same_fs same_fs_refl same_fs_trans). }
    simpl. split; [|exact F2].
    unfold bind in Eclone.
    destruct (check_call _ _ _ w1) as [[[]|e] w0]; [|discriminate Eclone].
    injection Eclone as <- _. reflexivity.
  - right.
    assert (F2 : fs w2 = fs w1).
    { refine (keeps_bind same_fs same_fs_refl same_fs_trans _ _ _ _ _ _ _ Eclone).
      - apply (keeps_check_call same_fs same_fs_refl same_fs_trans _ _ _
                 (subprocess_call_fs _ _ _)).
      - intros _. apply (keeps_ret same_fs same_fs_refl same_fs_trans). }
    destruct (is_OSError e || is_CalledProcessError e) eqn:Ekind.
    + unfold bind at 1 in Erun.
      rewrite rmtree_present in Erun by (rewrite F2; exact Hd1).
      unfold raise in Erun. injection Erun as <- <-.
      exists e. simpl. rewrite F2. unfold w1. simpl. rewrite Hset.
      split; [reflexivity|].
      split; [destruct (fs w); reflexivity|apply lookup_delete_eq].
    + exfalso. unfold bind in Eclone.
      unfold check_call, bind, subprocess_call, ret, raise in Eclone.
      destruct (programs w1 !! git config) as [[|st]|];
        repeat match type of Eclone with
               | context [let '(_, _) := ?p in _] => destruct p as [[? ?] ?]
               | context [if ?b then _ else _] => destruct b
               end; simpl in Eclone; try discriminate Eclone;
        injection Eclone as <- _; discriminate Ekind.
Qed.

(** C7, first half: the directory [create_temp_skia_clone] makes is gone
    again when [find_revision_and_hash] returns or raises: the file
    system is as it was found (but for the next temporary name), and no
    checkout is left under the directory's name. *)
Lemma find_revision_and_hash_removes_clone config revision w :
  skia_git_checkout_path config = None ->
  exists_path (clone_tmp w) (fs w) = false ->
  let w' := snd (find_revision_and_hash config revision w) in
  fs w' = bump_tmp (fs w) /\ checkouts (skia w') !! clone_tmp w = None.
Proof.
  intros Hpath Hfree w'. unfold w'. clear w'.
  destruct (tmp_free_lookup _ _ Hfree) as [_ Hnd].
  rewrite (find_revision_and_hash_temp config revision w Hpath).
  set (depth := match revision with Some _ => _ | None => _ end).
  destruct (create_temp_skia_clone_outcome config depth w Hfree)
    as [[Hres Hfs]|(e & Hres & Hfs & Hco)];
    destruct (create_temp_skia_clone config depth w) as [res w2];
    simpl in Hres, Hfs; subst res.
  - set (d := clone_tmp w) in *.
    assert (Hset : ({[d]} ∪ dirs (fs w)) ∖ {[d]} = dirs (fs w)) by set_solver.
    change (truthy d) with true. cbv iota. unfold try_finally.
    destruct (lookup_revision config revision d w2) as [res3 w3] eqn:Ebody.
    pose proof (keeps_lookup_revision _ _ _ _ _ _ Ebody) as F3.
    unfold same_fs in F3.
    rewrite rmtree_present by (rewrite F3, Hfs; simpl; set_solver).
    simpl. rewrite F3, Hfs. simpl. rewrite Hset.
    split; [destruct (fs w); reflexivity|apply lookup_delete_eq].
  - simpl in Hco. simpl. auto.
Qed.

(** C7, second half: when the manifest cannot be opened,
    [change_skia_deps] raises and the temporary file it created, which
    did not exist before, is still there. *)
Theorem change_skia_deps_leaves_temp_file :
  let run := change_skia_deps 12345 sample_hash (bs "DEPS.orig") sample_world in
  fst run = Raise IOError
  /\ files (fs sample_world) !! deps_tmp sample_world = None
  /\ files (fs (snd run)) !! deps_tmp sample_world = Some empty_file.
Proof.
  vm_compute. repeat split.
Qed.

(** ** C6: the revision locator *)

(** With git at hand and a checkout at [dir], looking a revision up
    returns the whole output of [git log --grep], stripped: the hashes of
    all the commits whose message matches, one per line.  It raises
    [DepsRollError] exactly when the revision is negative or that output
    is empty. *)
Lemma lookup_revision_some config r dir w c history :
  programs w !! git config = Some GitProgram ->
  checkouts (skia w) !! dir = Some (c :: history) ->
  fst (lookup_revision config (Some r) dir w)
  = let output :=
      strip (join [newline]
               (map c_hash
                  (List.filter
                     (fun c => grep_matches (revision_format r) (c_message c))
                     (c :: history)))) in
    if (r <? 0)%Z || negb (truthy output)
    then Raise DepsRollError
    else Ok (r, output).
Proof.
  intros Hgit Hdir.
  unfold lookup_revision, strip_output, check_output, subprocess_call, bind.
  rewrite Hgit. unfold git_exec. simpl skia. unfold skia_step. rewrite Hdir.
  cbv beta iota zeta. simpl fst. simpl snd.
  destruct ((r <? 0)%Z || negb (truthy _)); reflexivity.
Qed.

(** C6 on a history where two commits carry the marker of revision
    12345: [find_revision_and_hash] returns both hashes, joined by a line
    feed, not the hash of the first match. *)
Theorem find_revision_and_hash_two_matches :
  fst (find_revision_and_hash sample_config (Some 12345%Z) quoting_world)
  = Ok (12345%Z, c_hash quoting_commit ++ [newline] ++ sample_hash)
  /\ In newline (c_hash quoting_commit ++ [newline] ++ sample_hash)
  /\ forallb is_hex (c_hash quoting_commit ++ [newline] ++ sample_hash) = false.
Proof.
  vm_compute. repeat split. tauto.
Qed.

(** ** C10: an empty bot list skips [git cl try] *)

Lemma no_try_refl git w : no_try_since git w w.
Proof. exists []. rewrite app_nil_r. auto. Qed.

Lemma no_try_trans git w1 w2 w3 :
  no_try_since git w1 w2 -> no_try_since git w2 w3 -> no_try_since git w1 w3.
Proof.
  intros (e1 & H1 & F1) (e2 & H2 & F2). exists (e1 ++ e2).
  rewrite H2, H1, app_assoc. split; [reflexivity|].
  apply Forall_app. auto.
Qed.

Lemma git_exec_trace cmd cwd w : trace (snd (git_exec cmd cwd w)) = trace w.
Proof.
  unfold git_exec.
  destruct cmd, cwd; simpl;
    repeat match goal with
           | |- context [if ?b then _ else _] => destruct b
           | |- context [let '(_, _) := ?p in _] => destruct p as [[? ?] ?]
           end; reflexivity.
Qed.

Lemma subprocess_call_no_try git exe cmd cwd :
  is_try_event git (Ran exe cmd) = false ->
  keeps (no_try_since git) (subprocess_call exe cmd cwd).
Proof.
  intros Hcmd w res w' H. unfold subprocess_call in H.
  destruct (programs w !! exe) as [[|st]|].
  - pose proof (git_exec_trace cmd cwd (log (Ran exe cmd) w)) as G.
    destruct (git_exec cmd cwd (log (Ran exe cmd) w)) as [[st out] w1].
    injection H as _ <-. exists [Ran exe cmd]. simpl in G. auto.
  - injection H as _ <-. exists [Ran exe cmd]. auto.
  - injection H as _ <-. apply no_try_refl.
Qed.

Lemma print_no_try git line :
  prefix_of (git ++ bs " cl try") line = false ->
  keeps (no_try_since git) (print line).
Proof.
  intros Hl w res w' H. injection H as _ <-. exists [Printed line]. auto.
Qed.

Lemma os_path_exists_no_try git p : keeps (no_try_since git) (os_path_exists p).
Proof. intros w res w' H. injection H as _ <-. apply no_try_refl. Qed.

Lemma prefix_of_app a x y : prefix_of (a ++ x) (a ++ y) = prefix_of x y.
Proof.
  induction a as [|c a IH]; simpl; [reflexivity|].
  rewrite Ascii.eqb_refl. exact IH.
Qed.

Lemma upload_line_no_try git :
  prefix_of (git ++ bs " cl try") (join [space] (argv git ClUpload)) = false.
Proof.
  change (join [space] (argv git ClUpload))
    with (git ++ bs " cl upload -f --cc=skia-team@google.com --bypass-hooks --bypass-watchlists").
  rewrite prefix_of_app. reflexivity.
Qed.

Lemma blank_line_no_try git : prefix_of (git ++ bs " cl try") [] = false.
Proof. destruct git; reflexivity. Qed.

Ltac no_try_step git :=
  lazymatch goal with
  | |- keeps _ (bind _ _) =>
      apply (keeps_bind _ (no_try_refl git) (no_try_trans git)); [|intros ?]
  | |- keeps _ (ret _) =>
      apply (keeps_ret _ (no_try_refl git) (no_try_trans git))
  | |- keeps _ (for_each _ _) =>
      apply (keeps_for_each _ (no_try_refl git) (no_try_trans git)); intros ?
  | |- keeps _ (assert _) =>
      apply (keeps_assert _ (no_try_refl git) (no_try_trans git))
  | |- keeps _ (when false _) =>
      apply (keeps_ret _ (no_try_refl git) (no_try_trans git))
  | |- keeps _ (when _ _) =>
      apply (keeps_when _ (no_try_refl git) (no_try_trans git))
  | |- keeps _ (if _ then _ else _) =>
      apply (keeps_if _ (no_try_refl git) (no_try_trans git))
  | |- keeps _ (check_call _ _ _) =>
      apply (keeps_check_call _ (no_try_refl git) (no_try_trans git))
  | |- keeps _ (quiet_check_call _ _) =>
      apply (keeps_check_call _ (no_try_refl git) (no_try_trans git))
  | |- keeps _ (strip_output _ _ _) =>
      apply (keeps_strip_output _ (no_try_refl git) (no_try_trans git))
  | |- keeps _ (subprocess_call _ _ _) =>
      apply subprocess_call_no_try; reflexivity
  | |- keeps _ (os_path_exists _) => apply os_path_exists_no_try
  | |- keeps _ (print []) => apply print_no_try; apply blank_line_no_try
  | |- keeps _ (print _) => apply print_no_try; apply upload_line_no_try
  end.

Lemma exit_no_try self :
  cl_bot_list (t_config self) = [] ->
  keeps (no_try_since (git (t_config self))) (__exit__ self).
Proof.
  intros Hbots. unfold __exit__. cbv zeta. rewrite Hbots.
  repeat no_try_step (git (t_config self)).
Qed.

(** The option string is split at commas and the empty pieces go. *)
Example split_bots_commas :
  split_bots (bs ",linux,,mac,") = [bs "linux"; bs "mac"].
Proof. reflexivity. Qed.

(** C10: the bot list of a configuration has no empty entry; an empty
    bots option gives the empty list, and then [__exit__], however it
    ends, neither runs [git cl try] nor prints its command line. *)
Theorem empty_bots_skip_try (options : Options) :
  let config := mkDepsRollConfig options in
  Forall (fun bot => bot <> []) (cl_bot_list config)
  /\ (opt_bots options = [] ->
      cl_bot_list config = []
      /\ forall self w,
           t_config self = config ->
           no_try_since (git config) w (snd (__exit__ self w))).
Proof.
  intros config. split; [apply split_bots_nonempty|].
  intros Hbots.
  assert (Hnil : cl_bot_list config = []).
  { unfold config. simpl. rewrite Hbots. reflexivity. }
  split; [exact Hnil|].
  intros self w Hcfg. rewrite <- Hcfg in *.
  destruct (__exit__ self w) as [res w'] eqn:E.
  exact (exit_no_try self Hnil _ _ _ E).
Qed.

(** ** C9: the checks of [main] *)

Lemma test_git_executable_run g w :
  test_git_executable g w
  = match programs w !! g with
    | None => (Ok false, w)
    | Some _ => (Ok true, log (Ran g Version) w)
    end.
Proof.
  unfold test_git_executable, try_except, bind, subprocess_call.
  destruct (programs w !! g) as [[|st]|]; reflexivity.
Qed.

(** The exit status of [git --version] is not looked at: a program that
    starts and exits with any status passes the test. *)
Lemma test_git_executable_ignores_status g w st :
  programs w !! g = Some (OtherProgram st) ->
  fst (test_git_executable g w) = Ok true.
Proof. intros H. rewrite test_git_executable_run, H. reflexivity. Qed.


Lemma parser_error_run {A} message w :
  @parser_error A message w = (Raise UsageError, log (Printed message) w).
Proof. reflexivity. Qed.




(** ** The git commands of the branch transaction *)

Lemma bind_ok {A B} (m : M A) (f : A -> M B) w b w' :
  bind m f w = (Ok b, w') ->
  exists a w1, m w = (Ok a, w1) /\ f a w1 = (Ok b, w').
Proof.
  unfold bind. destruct (m w) as [[a|e] w1]; [|discriminate].
  intros H. exists a, w1. auto.
Qed.






















Lemma only_trace_tree w w' : only_trace w w' -> tree_only w w'.
Proof.
  intros (A1 & A2 & A3 & A4 & A5). unfold tree_only. rewrite A4. auto.
Qed.






(** ** C1: the branch transaction restores the checkout *)



(** Why the transaction must not bear the name of a branch of the
    checkout: [__enter__] deletes a branch of that name and makes it
    anew from [origin/master].  Named like the branch HEAD is on, the
    transaction ends on a branch of the same name whose commits are
    gone. *)
Lemma transaction_same_name_example :
  let codereview :=
    mkGitBranchCLUpload sample_config (bs "roll") (Some (bs "work")) in
  let run := with_block codereview sample_body sample_world in
  match fst run with Ok _ => True | Raise _ => False end
  /\ head (repo sample_world) = OnBranch (bs "work")
  /\ head (repo (snd run)) = OnBranch (bs "work")
  /\ branches (repo sample_world) !! bs "work" = Some (bs "bb02")
  /\ branches (repo (snd run)) !! bs "work" = Some (bs "dd0").
Proof.
  vm_compute. repeat split.
Qed.


(** Why the stash must hold, after the entry, what [git diff] reported:
    with nothing changed but inside a submodule, [git diff] reports a
    change and [git stash save] saves nothing; [__exit__] pops the stash
    all the same, and takes an older entry from it. *)
Lemma transaction_submodule_example :
  let codereview := mkGitBranchCLUpload sample_config (bs "roll") None in
  let run := with_block codereview sample_body submodule_world in
  match fst run with Ok _ => True | Raise _ => False end
  /\ local_changes (repo submodule_world) = []
  /\ stash (repo submodule_world) = [[bs "old.txt"]]
  /\ stash (repo (snd run)) = []
  /\ In (bs "old.txt") (modified (repo (snd run))).
Proof.
  vm_compute. repeat split. left. reflexivity.
Qed.


(** * Further properties *)

(** ** The bot list and the option string *)

Lemma split_no_sep sep s : ~ In sep s -> split sep s = [s].
Proof.
  induction s as [|c s IH]; simpl; [reflexivity|].
  intros H. destruct (Ascii.eqb c sep) eqn:E.
  - apply Ascii.eqb_eq in E. tauto.
  - rewrite IH by tauto. reflexivity.
Qed.

Lemma split_app_sep sep s t :
  ~ In sep s -> split sep (s ++ sep :: t) = s :: split sep t.
Proof.
  induction s as [|c s IH]; simpl; intros H.
  - rewrite Ascii.eqb_refl. reflexivity.
  - destruct (Ascii.eqb c sep) eqn:E.
    + apply Ascii.eqb_eq in E. tauto.
    + rewrite IH by tauto. reflexivity.
Qed.

Lemma split_bots_join bots :
  Forall bot_name bots -> split_bots (join [comma] bots) = bots.
Proof.
  unfold split_bots. induction 1 as [|bot bots [Hne Hc] Hall IH].
  - reflexivity.
  - destruct bots as [|b2 bots].
    + simpl. rewrite split_no_sep by exact Hc. simpl.
      destruct bot; [contradiction|reflexivity].
    + change (join [comma] (bot :: b2 :: bots))
        with (bot ++ comma :: join [comma] (b2 :: bots)).
      rewrite split_app_sep by exact Hc. simpl List.filter.
      destruct bot; [contradiction|]. simpl truthy. cbv iota.
      f_equal. exact IH.
Qed.

(** X1: the bot list survives the round trip through the [--bots]
    option: for a list of bot names that are not empty and hold no comma,
    the configuration built from the names joined by commas has exactly
    that list, in that order. *)
Theorem cl_bot_list_of_joined_names (options : Options) (bots : list str) :
  Forall bot_name bots ->
  opt_bots options = join [comma] bots ->
  cl_bot_list (mkDepsRollConfig options) = bots.
Proof.
  intros Hall Hopt. simpl. rewrite Hopt. apply split_bots_join. exact Hall.
Qed.

Lemma bot_name_check bot :
  truthy bot && forallb (fun c => negb (Ascii.eqb c comma)) bot = true ->
  bot_name bot.
Proof.
  intros H. apply andb_prop in H as [Hne Hc]. split.
  - intros ->. discriminate Hne.
  - intros Hin. rewrite forallb_forall in Hc. specialize (Hc _ Hin).
    rewrite Ascii.eqb_refl in Hc. discriminate Hc.
Qed.

(** The default of [--bots] gives the twenty-one default bots. *)
Lemma cl_bot_list_of_joined_names_witness :
  cl_bot_list (mkDepsRollConfig (sample_options default_bots))
  = default_bots_list
  /\ length default_bots_list = 21%nat.
Proof.
  split; [|reflexivity].
  apply (cl_bot_list_of_joined_names (sample_options default_bots)
           default_bots_list); [|reflexivity].
  apply List.Forall_forall. intros bot Hin. apply bot_name_check.
  assert (Hall : forallb
                   (fun bot => truthy bot
                               && forallb (fun c => negb (Ascii.eqb c comma)) bot)
                   default_bots_list = true) by reflexivity.
  rewrite forallb_forall in Hall. exact (Hall bot Hin).
Defined.

(** ** strip_output *)

Lemma lstrip_idem s : lstrip (lstrip s) = lstrip s.
Proof.
  induction s as [|c s IH]; simpl; [reflexivity|].
  destruct (is_space c) eqn:E; [exact IH|].
  simpl. rewrite E. reflexivity.
Qed.

Lemma rstrip_cons c s :
  rstrip (c :: s)
  = match rstrip s with
    | [] => if is_space c then [] else [c]
    | _ :: _ => c :: rstrip s
    end.
Proof. reflexivity. Qed.

Lemma rstrip_idem s : rstrip (rstrip s) = rstrip s.
Proof.
  induction s as [|c s IH]; [reflexivity|].
  rewrite rstrip_cons. destruct (rstrip s) as [|d t] eqn:E.
  - destruct (is_space c) eqn:Ec; [reflexivity|].
    rewrite rstrip_cons. simpl. rewrite Ec. reflexivity.
  - rewrite rstrip_cons, IH. reflexivity.
Qed.

Lemma lstrip_rstrip_head c s :
  is_space c = false -> lstrip (rstrip (c :: s)) = rstrip (c :: s).
Proof.
  intros E. rewrite rstrip_cons.
  destruct (rstrip s); rewrite ?E; simpl; rewrite E; reflexivity.
Qed.

Lemma strip_stripped s : stripped (strip s).
Proof.
  unfold stripped, strip. split; [|apply rstrip_idem].
  destruct (lstrip s) as [|c t] eqn:E; [reflexivity|].
  apply lstrip_rstrip_head.
  assert (H : lstrip (c :: t) = c :: t) by (rewrite <- E; apply lstrip_idem).
  simpl in H. destruct (is_space c) eqn:Ec; [|reflexivity].
  exfalso. assert (L : length (lstrip t) <= length t).
  { clear. induction t as [|a t IH]; simpl; [lia|].
    destruct (is_space a); simpl; lia. }
  rewrite H in L. simpl in L. lia.
Qed.

Lemma stripped_ends s :
  stripped s ->
  (forall c t, s = c :: t -> is_space c = false)
  /\ (forall t c, s = t ++ [c] -> is_space c = false).
Proof.
  intros [Hl Hr]. split.
  - intros c t ->. simpl in Hl. destruct (is_space c) eqn:E; [|reflexivity].
    exfalso. assert (L : length (lstrip t) <= length t).
    { clear. induction t as [|a t IH]; simpl; [lia|].
      destruct (is_space a); simpl; lia. }
    rewrite Hl in L. simpl in L. lia.
  - intros t c ->. rewrite rstrip_app in Hr. simpl in Hr.
    destruct (is_space c) eqn:E; [|reflexivity].
    exfalso. assert (L : forall u, length (rstrip u) <= length u).
    { clear. induction u as [|a u IH]; [simpl; lia|].
      rewrite rstrip_cons. destruct (rstrip u); [destruct (is_space a)|];
        simpl in *; lia. }
    specialize (L t). rewrite Hr, length_app in L. simpl in L. lia.
Qed.

(** X2: [strip_output] returns the output of the command without white
    space at either end: the result neither starts nor ends with a white
    space character.  It returns only when the program could be launched
    and exited with status 0. *)
Theorem strip_output_is_stripped exe cmd cwd w out w' :
  strip_output exe cmd cwd w = (Ok out, w') ->
  stripped out
  /\ (forall c t, out = c :: t -> is_space c = false)
  /\ (forall t c, out = t ++ [c] -> is_space c = false)
  /\ exists raw, subprocess_call exe cmd cwd w = (Ok (0%Z, raw), w')
                 /\ out = strip raw.
Proof.
  unfold strip_output, check_output, bind. intros H.
  destruct (subprocess_call exe cmd cwd w) as [[[st raw]|e] w1];
    [|discriminate H].
  simpl in H. destruct (st =? 0)%Z eqn:Est; [|discriminate H].
  injection H as <- <-. apply Z.eqb_eq in Est. subst st.
  pose proof (strip_stripped raw) as S.
  destruct (stripped_ends _ S) as [Hh Ht].
  repeat split; try apply S; auto.
  exists raw. split; reflexivity.
Qed.

(** [git cl issue] in the sample world. *)
Lemma strip_output_is_stripped_witness :
  exists w',
    strip_output (bs "git") ClIssue None sample_world
    = (Ok (bs "Issue number: 42 (https://codereview.chromium.org/42)"), w')
    /\ stripped (bs "Issue number: 42 (https://codereview.chromium.org/42)").
Proof.
  destruct (strip_output (bs "git") ClIssue None sample_world)
    as [res w'] eqn:E.
  assert (Hres : res
                 = Ok (bs "Issue number: 42 (https://codereview.chromium.org/42)")).
  { change res with (fst (res, w')). rewrite <- E. vm_compute. reflexivity. }
  subst res. exists w'. split; [reflexivity|].
  exact (proj1 (strip_output_is_stripped _ _ _ _ _ _ E)).
Defined.

(** ** The temporary clone *)

Lemma clone_tmp_truthy w : truthy (clone_tmp w) = true.
Proof. reflexivity. Qed.

(** A depth within the range of a C [int] is read as it is written. *)
Lemma git_depth_int depth :
  (- 2 ^ 31 <= depth < 2 ^ 31)%Z -> git_depth depth = depth.
Proof.
  intros H. unfold git_depth, c_long, c_int.
  rewrite Z.min_l, Z.max_r by lia.
  rewrite Z.mod_small by lia. lia.
Qed.

Lemma create_temp_skia_clone_ok config depth w :
  exists_path (clone_tmp w) (fs w) = false ->
  programs w !! git config = Some GitProgram ->
  network (skia w) = true -> (0 < depth < 2 ^ 31)%Z ->
  exists w',
    create_temp_skia_clone config depth w = (Ok (clone_tmp w), w')
    /\ programs w' = programs w
    /\ clone_tmp w ∈ dirs (fs w')
    /\ checkouts (skia w') !! clone_tmp w = Some (cloned depth (skia w))
    /\ remote (skia w') = remote (skia w).
Proof.
  intros Hfree Hgit Hnet Hdepth.
  unfold create_temp_skia_clone, bind at 1, mkdtemp.
  fold (clone_tmp w). rewrite Hfree.
  set (d := clone_tmp w).
  set (w1 := set_fs (set_dirs ({[d]} ∪ dirs (fs w)) (bump_tmp (fs w))) w).
  unfold try_except, bind, check_call, bind, subprocess_call.
  change (programs w1) with (programs w). rewrite Hgit.
  unfold git_exec. simpl skia. simpl fs. rewrite Hnet.
  rewrite (git_depth_int depth) by lia.
  destruct Hdepth as [Hdepth _].
  apply Z.ltb_lt in Hdepth. rewrite Hdepth.
  rewrite bool_decide_eq_true_2 by set_solver.
  simpl. eexists. split; [reflexivity|]. simpl.
  split; [reflexivity|]. split; [set_solver|].
  split; [apply lookup_insert_eq|reflexivity].
Qed.

Lemma try_finally_rmtree {A} (body : M A) dir w res w1 :
  body w = (res, w1) -> dir ∈ dirs (fs w1) ->
  fst (try_finally body (rmtree dir) w) = res.
Proof.
  intros Hb Hd. unfold try_finally. rewrite Hb, (rmtree_present _ _ Hd).
  reflexivity.
Qed.

Lemma lookup_revision_fs config revision dir w res w' :
  lookup_revision config revision dir w = (res, w') -> fs w' = fs w.
Proof. apply keeps_lookup_revision. Qed.

Lemma strip_of_stripped s : stripped s -> strip s = s.
Proof. intros [Hl Hr]. unfold strip. rewrite Hl. exact Hr. Qed.

(** The lookup of a revision in a temporary clone, with git at hand and
    the network up: the stripped list of the hashes of the commits that
    carry the marker, among those the clone holds. *)
Lemma find_revision_and_hash_clone config r w c history :
  skia_git_checkout_path config = None ->
  programs w !! git config = Some GitProgram ->
  exists_path (clone_tmp w) (fs w) = false ->
  network (skia w) = true ->
  (0 < search_depth config < 2 ^ 31)%Z ->
  cloned (search_depth config) (skia w) = c :: history ->
  fst (find_revision_and_hash config (Some r) w)
  = let output :=
      strip (join [newline]
               (map c_hash
                  (List.filter (marks r) (c :: history)))) in
    if (r <? 0)%Z || negb (truthy output)
    then Raise DepsRollError
    else Ok (r, output).
Proof.
  intros Hpath Hgit Hfree Hnet Hdepth Hclone.
  rewrite (find_revision_and_hash_temp _ _ _ Hpath).
  destruct (create_temp_skia_clone_ok config (search_depth config) w
              Hfree Hgit Hnet Hdepth) as (w2 & -> & Hp & Hd & Hco & _).
  rewrite clone_tmp_truthy.
  destruct (lookup_revision config (Some r) (clone_tmp w) w2)
    as [res w3] eqn:Elook.
  rewrite (try_finally_rmtree _ _ _ _ _ Elook)
    by (rewrite (lookup_revision_fs _ _ _ _ _ _ Elook); exact Hd).
  rewrite Hclone in Hco. rewrite <- Hp in Hgit.
  pose proof (lookup_revision_some config r _ w2 c history Hgit Hco) as L.
  rewrite Elook in L. exact L.
Qed.

(** ** The revision locator within the search depth *)

(** X3: with no Skia checkout configured, git at hand, the network up
    and a positive search depth below 2^31 (which git reads as it is
    written), [find_revision_and_hash] clones the newest [search_depth]
    commits of the remote; when exactly one of them carries the marker of
    the revision asked for, which is not negative, it returns the
    revision and the hash of that commit. *)
Theorem find_revision_and_hash_unique_match config r w c :
  skia_git_checkout_path config = None ->
  programs w !! git config = Some GitProgram ->
  exists_path (clone_tmp w) (fs w) = false ->
  network (skia w) = true ->
  (0 < search_depth config < 2 ^ 31)%Z ->
  List.filter (marks r) (cloned (search_depth config) (skia w)) = [c] ->
  (0 <= r)%Z -> c_hash c <> [] -> stripped (c_hash c) ->
  fst (find_revision_and_hash config (Some r) w) = Ok (r, c_hash c).
Proof.
  intros Hpath Hgit Hfree Hnet Hdepth Hone Hr Hne Hs.
  destruct (cloned (search_depth config) (skia w)) as [|c0 history] eqn:Hc;
    [discriminate Hone|].
  rewrite (find_revision_and_hash_clone config r w c0 history) by assumption.
  rewrite Hone. simpl map. simpl join. cbv zeta.
  rewrite (strip_of_stripped _ Hs).
  destruct (c_hash c) as [|a h]; [contradiction|].
  apply Z.ltb_ge in Hr. rewrite Hr. reflexivity.
Qed.

(** The sample run: revision 12345 is the second of three commits. *)
Lemma find_revision_and_hash_unique_match_witness :
  fst (find_revision_and_hash sample_config (Some 12345%Z) sample_world)
  = Ok (12345%Z, sample_hash).
Proof.
  apply (find_revision_and_hash_unique_match sample_config 12345 sample_world
           (sample_commit 12345 sample_hash));
    try reflexivity; try lia; try discriminate; split; reflexivity.
Defined.

(** X4: in the same setting (a positive search depth below 2^31),
    [find_revision_and_hash] raises [DepsRollError] when the revision
    asked for is negative, and when none of the newest [search_depth]
    commits of the remote carries its marker, whatever older commits
    hold. *)
Theorem find_revision_and_hash_beyond_depth config r w :
  skia_git_checkout_path config = None ->
  programs w !! git config = Some GitProgram ->
  exists_path (clone_tmp w) (fs w) = false ->
  network (skia w) = true ->
  (0 < search_depth config < 2 ^ 31)%Z ->
  remote (skia w) <> [] ->
  (r < 0)%Z
  \/ List.filter (marks r) (cloned (search_depth config) (skia w)) = [] ->
  fst (find_revision_and_hash config (Some r) w) = Raise DepsRollError.
Proof.
  intros Hpath Hgit Hfree Hnet Hdepth Hrem Hcase.
  destruct (cloned (search_depth config) (skia w)) as [|c0 history] eqn:Hc.
  { exfalso. unfold cloned in Hc.
    destruct (remote (skia w)); [contradiction|].
    destruct (Z.to_nat (search_depth config)) eqn:En; [lia|discriminate Hc]. }
  rewrite (find_revision_and_hash_clone config r w c0 history) by assumption.
  cbv zeta. destruct Hcase as [Hneg|Hnone].
  - apply Z.ltb_lt in Hneg. rewrite Hneg. reflexivity.
  - rewrite Hnone. simpl. rewrite orb_true_r. reflexivity.
Qed.

(** Revision 12345 is the second commit of the sample remote: a search
    depth of 1 does not reach it. *)
Lemma find_revision_and_hash_beyond_depth_witness :
  In (sample_commit 12345 sample_hash) (remote (skia sample_world))
  /\ marks 12345 (sample_commit 12345 sample_hash) = true
  /\ fst (find_revision_and_hash (shallow_config 1) (Some 12345%Z) sample_world)
     = Raise DepsRollError.
Proof.
  split; [right; left; reflexivity|]. split; [reflexivity|].
  apply (find_revision_and_hash_beyond_depth (shallow_config 1) 12345
           sample_world); try reflexivity; try lia; try discriminate.
  - split; reflexivity.
  - right. reflexivity.
Defined.

(** ** What the revision locator returns *)

Lemma strip_output_ok exe cmd cwd w out w' :
  strip_output exe cmd cwd w = (Ok out, w') -> exists raw, out = strip raw.
Proof.
  unfold strip_output, bind. intros H.
  destruct (check_output exe cmd cwd w) as [[raw|e] w1]; [|discriminate H].
  injection H as <- _. exists raw. reflexivity.
Qed.

Lemma int_of_digits_nonneg ds : (0 <= int_of_digits ds)%Z.
Proof.
  unfold int_of_digits.
  assert (G : forall acc, (0 <= acc)%Z ->
                (0 <= fold_left
                        (fun acc c => (acc * 10 + Z.of_nat (nat_of_ascii c - 48))%Z)
                        ds acc)%Z).
  { induction ds as [|c ds IH]; intros acc Hacc; simpl; [exact Hacc|].
    apply IH. lia. }
  apply G. lia.
Qed.

Lemma lookup_revision_post config revision dir w r h w' :
  lookup_revision config revision dir w = (Ok (r, h), w') ->
  (0 <= r)%Z /\ h <> [] /\ stripped h
  /\ forall r0, revision = Some r0 -> r = r0.
Proof.
  unfold lookup_revision. intros H.
  apply bind_ok in H as ([r1 h1] & w1 & Hfound & Hcheck).
  simpl in Hcheck.
  destruct ((r1 <? 0)%Z || negb (truthy h1)) eqn:Ebad; [discriminate Hcheck|].
  injection Hcheck as -> -> _.
  apply orb_false_elim in Ebad as [Hr Hh].
  apply Z.ltb_ge in Hr. apply negb_false_iff in Hh.
  split; [exact Hr|]. split; [intros ->; discriminate Hh|].
  destruct revision as [r0|].
  - apply bind_ok in Hfound as (out & w2 & Hout & Hret).
    injection Hret as -> -> _.
    apply strip_output_ok in Hout as (raw & ->).
    split; [apply strip_stripped|]. intros r1 [= ->]. reflexivity.
  - apply bind_ok in Hfound as (message & w2 & _ & Hrest).
    destruct (search_number _ _ message); [|discriminate Hrest].
    apply bind_ok in Hrest as (out & w3 & Hout & Hret).
    injection Hret as _ -> _.
    apply strip_output_ok in Hout as (raw & ->).
    split; [apply strip_stripped|]. intros r1 [=].
Qed.

Lemma try_finally_ok {A} (body : M A) final w a w' :
  try_finally body final w = (Ok a, w') -> exists w1, body w = (Ok a, w1).
Proof.
  unfold try_finally. destruct (body w) as [res w1].
  destruct (final w1) as [[[]|e] w2]; intros H; [|discriminate H].
  injection H as -> _. exists w1. reflexivity.
Qed.

Lemma find_revision_and_hash_lookup config revision w r h w' :
  find_revision_and_hash config revision w = (Ok (r, h), w') ->
  exists dir w1 w2, lookup_revision config revision dir w1 = (Ok (r, h), w2).
Proof.
  unfold find_revision_and_hash. cbv zeta. intros H.
  apply bind_ok in H as ([dir use_temp] & w1 & _ & Hrest).
  apply try_finally_ok in Hrest as (w2 & Hbody).
  exists dir, w1, w2. exact Hbody.
Qed.

(** X5: whenever [find_revision_and_hash] returns, the revision is not
    negative and the hash is not empty and has no white space at either
    end; with a revision asked for, the revision returned is that one. *)
Theorem find_revision_and_hash_result config revision w r h w' :
  find_revision_and_hash config revision w = (Ok (r, h), w') ->
  (0 <= r)%Z /\ h <> [] /\ stripped h
  /\ forall r0, revision = Some r0 -> r = r0.
Proof.
  intros H. apply find_revision_and_hash_lookup in H as (dir & w1 & w2 & H).
  exact (lookup_revision_post _ _ _ _ _ _ _ H).
Qed.

(** The sample run with no revision asked for: the newest commit. *)
Lemma find_revision_and_hash_result_witness :
  exists w',
    find_revision_and_hash sample_config None sample_world
    = (Ok (12346%Z, bs "c0ffee"), w')
    /\ (0 <= 12346)%Z /\ stripped (bs "c0ffee").
Proof.
  eexists. split; [vm_compute; reflexivity|].
  match goal with
  | |- context [stripped _] =>
      destruct (find_revision_and_hash_result sample_config None sample_world
                  12346 (bs "c0ffee")
                  (snd (find_revision_and_hash sample_config None sample_world)))
        as (Hr & _ & Hs & _); [vm_compute; reflexivity|]
  end.
  split; assumption.
Defined.

(** ** create_temp_skia_clone *)

(** X6: [create_temp_skia_clone], when the name of its directory is
    free and the depth is within the range of a 32-bit integer, where git
    reads it as it is written.  With git at hand it returns the
    directory, which then exists and holds the newest [depth] commits of
    the remote, if the network is up and the depth is positive, and
    raises [CalledProcessError] otherwise; when git cannot be launched it
    raises [OSError].  Whenever it raises, the directory is removed
    again: the file system is as before but for the next temporary
    name. *)
Theorem create_temp_skia_clone_result config depth w :
  exists_path (clone_tmp w) (fs w) = false ->
  (- 2 ^ 31 <= depth < 2 ^ 31)%Z ->
  let run := create_temp_skia_clone config depth w in
  let removed :=
    fs (snd run) = bump_tmp (fs w)
    /\ checkouts (skia (snd run)) !! clone_tmp w = None in
  match programs w !! git config with
  | None => fst run = Raise OSError /\ removed
  | Some GitProgram =>
      if network (skia w) && (0 <? depth)%Z
      then fst run = Ok (clone_tmp w)
           /\ clone_tmp w ∈ dirs (fs (snd run))
           /\ checkouts (skia (snd run)) !! clone_tmp w
              = Some (cloned depth (skia w))
      else fst run = Raise CalledProcessError /\ removed
  | Some (OtherProgram st) =>
      if (st =? 0)%Z then fst run = Ok (clone_tmp w)
      else fst run = Raise CalledProcessError /\ removed
  end.
Proof.
  intros Hfree Hint run removed. unfold removed. clear removed.
  destruct (tmp_free_lookup _ _ Hfree) as [_ Hnd].
  assert (Hset : ({[clone_tmp w]} ∪ dirs (fs w)) ∖ {[clone_tmp w]} = dirs (fs w))
    by set_solver.
  assert (Hin : clone_tmp w ∈ {[clone_tmp w]} ∪ dirs (fs w)) by set_solver.
  assert (Erun : run = create_temp_skia_clone config depth w) by reflexivity.
  clearbody run.
  unfold create_temp_skia_clone, bind at 1, mkdtemp in Erun.
  fold (clone_tmp w) in Erun. rewrite Hfree in Erun.
  unfold try_except, bind, check_call, bind, subprocess_call in Erun.
  simpl programs in Erun.
  destruct (programs w !! git config) as [[|st]|] eqn:Hgit.
  - unfold git_exec in Erun. simpl skia in Erun. simpl fs in Erun.
    rewrite (git_depth_int depth Hint) in Erun.
    rewrite (bool_decide_eq_true_2 _ Hin), andb_true_r in Erun.
    destruct (network (skia w) && (0 <? depth)%Z) eqn:Hgo.
    + simpl in Erun. subst run. simpl.
      split; [reflexivity|]. split; [exact Hin|apply lookup_insert_eq].
    + simpl in Erun. unfold rmtree in Erun. simpl fs in Erun.
      rewrite (bool_decide_eq_true_2 _ Hin) in Erun. simpl in Erun.
      subst run. simpl. split; [reflexivity|].
      split; [|apply lookup_delete_eq].
      unfold set_dirs, bump_tmp. simpl. rewrite Hset. reflexivity.
  - simpl in Erun. destruct (st =? 0)%Z; simpl in Erun.
    + subst run. reflexivity.
    + unfold rmtree in Erun. simpl fs in Erun.
      rewrite (bool_decide_eq_true_2 _ Hin) in Erun. simpl in Erun.
      subst run. simpl. split; [reflexivity|].
      split; [|apply lookup_delete_eq].
      unfold set_dirs, bump_tmp. simpl. rewrite Hset. reflexivity.
  - simpl in Erun. unfold rmtree in Erun. simpl fs in Erun.
    rewrite (bool_decide_eq_true_2 _ Hin) in Erun. simpl in Erun.
    subst run. simpl. split; [reflexivity|].
    split; [|apply lookup_delete_eq].
    unfold set_dirs, bump_tmp. simpl. rewrite Hset. reflexivity.
Qed.

(** A search depth of 0 makes the clone fail. *)
Lemma create_temp_skia_clone_result_witness :
  let run := create_temp_skia_clone sample_config 0 sample_world in
  fst run = Raise CalledProcessError
  /\ fs (snd run) = bump_tmp (fs sample_world).
Proof.
  intros run.
  assert (Hint : (- 2 ^ 31 <= 0 < 2 ^ 31)%Z) by lia.
  pose proof (create_temp_skia_clone_result sample_config 0 sample_world
                eq_refl Hint) as H.
  cbv zeta in H.
  change (programs sample_world !! git sample_config) with (Some GitProgram) in H.
  change (network (skia sample_world) && (0 <? 0)%Z) with false in H.
  cbv iota in H. destruct H as (Hres & Hfs & _). split; assumption.
Defined.

(** ** The revision locator at the top of the tree *)

Lemma check_output_git_skia g cmd dir w out w' :
  check_output g cmd (Some dir) w = (Ok out, w') ->
  repo_cmd cmd = true ->
  programs w !! g = Some GitProgram ->
  exists s, skia_step cmd dir (skia w) = (0%Z, out, s)
            /\ skia w' = s /\ programs w' = programs w.
Proof.
  unfold check_output, bind, subprocess_call. intros H Hc Hg. rewrite Hg in H.
  unfold git_exec in H.
  destruct cmd; try discriminate Hc; simpl in H;
    destruct (skia_step _ dir (skia w)) as [[st o] s] eqn:Es; simpl in H;
    destruct (st =? 0)%Z eqn:Est; try discriminate H;
    apply Z.eqb_eq in Est; subst st; injection H as <- <-;
    exists s; repeat split.
Qed.

(** X8: looking for the top of the tree (no revision asked for) with no
    Skia checkout configured and git at hand: when
    [find_revision_and_hash] returns, the hash is that of the newest
    commit of the remote, stripped, and the revision is the number in the
    first marker of that commit's message. *)
Theorem find_revision_and_hash_top_of_tree config w r h w' :
  skia_git_checkout_path config = None ->
  programs w !! git config = Some GitProgram ->
  find_revision_and_hash config None w = (Ok (r, h), w') ->
  exists c older digits,
    remote (skia w) = c :: older
    /\ h = strip (c_hash c ++ [newline])
    /\ search_number svn_format_prefix (RChar space) (c_message c)
       = Some digits
    /\ r = int_of_digits digits.
Proof.
  intros Hpath Hgit H.
  rewrite (find_revision_and_hash_temp _ _ _ Hpath) in H.
  destruct (exists_path (clone_tmp w) (fs w)) eqn:Hfree.
  { exfalso. unfold create_temp_skia_clone, bind at 1, mkdtemp in H.
    fold (clone_tmp w) in H. rewrite Hfree in H. discriminate H. }
  pose proof (create_temp_skia_clone_ok config 1 w Hfree Hgit) as Hok.
  destruct (network (skia w)) eqn:Hnet.
  2:{ exfalso.
      pose proof (create_temp_skia_clone_outcome config 1 w Hfree) as Ho.
      destruct (create_temp_skia_clone config 1 w) as [[dir|e] w2] eqn:Ec;
        [|discriminate H].
      unfold create_temp_skia_clone, bind at 1, mkdtemp in Ec.
      fold (clone_tmp w) in Ec. rewrite Hfree in Ec.
      unfold try_except, bind, check_call, bind, subprocess_call in Ec.
      simpl programs in Ec. rewrite Hgit in Ec.
      unfold git_exec in Ec. simpl skia in Ec. rewrite Hnet in Ec.
      simpl in Ec. unfold rmtree in Ec.
      destruct (bool_decide _) in Ec; discriminate Ec. }
  destruct Hok as (w2 & Ec & Hp & Hd & Hco & Hrem); [reflexivity|lia|].
  rewrite Ec, clone_tmp_truthy in H.
  apply try_finally_ok in H as (w3 & H).
  unfold lookup_revision in H.
  apply bind_ok in H as ([r1 h1] & w4 & Hfound & Hcheck).
  simpl in Hcheck.
  destruct ((r1 <? 0)%Z || negb (truthy h1)); [discriminate Hcheck|].
  injection Hcheck as -> -> _.
  apply bind_ok in Hfound as (message & w5 & Hmsg & Hrest).
  rewrite <- Hp in Hgit.
  apply check_output_git_skia in Hmsg as (s5 & Hs5 & Hk5 & Hp5);
    [|reflexivity|exact Hgit].
  unfold skia_step in Hs5. rewrite Hco in Hs5.
  unfold cloned in Hs5. change (Z.to_nat 1) with 1%nat in Hs5.
  destruct (remote (skia w)) as [|c older] eqn:Hr; [discriminate Hs5|].
  simpl in Hs5. injection Hs5 as <- <-.
  destruct (search_number svn_format_prefix (RChar space) (c_message c))
    as [digits|] eqn:Hnum; [|discriminate Hrest].
  apply bind_ok in Hrest as (out & w6 & Hout & Hret).
  injection Hret as <- <- _.
  unfold strip_output in Hout.
  apply bind_ok in Hout as (raw & w7 & Hraw & Hret).
  injection Hret as <- _.
  apply check_output_git_skia in Hraw as (s7 & Hs7 & _ & _);
    [|reflexivity|congruence].
  unfold skia_step in Hs7. rewrite Hk5, Hco in Hs7.
  unfold cloned in Hs7. rewrite Hr in Hs7. simpl in Hs7.
  injection Hs7 as <- _.
  exists c, older, digits. repeat split. exact Hnum.
Qed.

(** The sample run with no revision asked for. *)
Lemma find_revision_and_hash_top_of_tree_witness :
  exists c older digits,
    remote (skia sample_world) = c :: older
    /\ bs "c0ffee" = strip (c_hash c ++ [newline])
    /\ search_number svn_format_prefix (RChar space) (c_message c)
       = Some digits
    /\ 12346%Z = int_of_digits digits.
Proof.
  apply (find_revision_and_hash_top_of_tree sample_config sample_world
           12346 (bs "c0ffee")
           (snd (find_revision_and_hash sample_config None sample_world)));
    [reflexivity|reflexivity|].
  assert (H : fst (find_revision_and_hash sample_config None sample_world)
              = Ok (12346%Z, bs "c0ffee")) by (vm_compute; reflexivity).
  destruct (find_revision_and_hash sample_config None sample_world) as [res w'].
  simpl in *. rewrite H. reflexivity.
Defined.

(** ** main, when its checks pass *)

(** X9: when the Chromium path is a directory and the git executable can
    be launched, [main] hands over to the rest of the run with the
    configuration made from the options and the revision asked for,
    having launched [git --version] once and changed nothing else.  The
    exit status of that launch plays no part: a program that exits with
    an error passes the self-test. *)
Theorem main_passes_checks
    (find_hash_and_roll_deps : DepsRollConfig -> option Z -> M unit)
    (options : Options) (w : World) c path :
  opt_chromium_path options = Some (c :: path) ->
  c :: path ∈ dirs (fs w) ->
  is_Some (programs w !! opt_git_path options) ->
  main find_hash_and_roll_deps options w
  = find_hash_and_roll_deps (mkDepsRollConfig options) (opt_revision options)
      (log (Ran (opt_git_path options) Version) w).
Proof.
  intros Hp Hd [p Hg]. unfold main. rewrite Hp.
  unfold bind at 1, os_path_isdir. rewrite (bool_decide_eq_true_2 _ Hd).
  simpl negb. simpl when. unfold bind at 1, ret at 1. unfold bind at 1.
  rewrite test_git_executable_run, Hg. reflexivity.
Qed.

(** With a git that always exits with status 1, the rest of the run is
    reached all the same. *)
Lemma main_passes_checks_witness :
  let rest := fun (_ : DepsRollConfig) (_ : option Z) => @raise unit DepsRollError in
  programs broken_git_world !! bs "git" = Some (OtherProgram 1)
  /\ fst (main rest (sample_options (bs "linux")) broken_git_world)
     = Raise DepsRollError.
Proof.
  intros rest. split; [reflexivity|].
  rewrite (main_passes_checks rest (sample_options (bs "linux"))
             broken_git_world "/"%char (bs "src/chromium")).
  - reflexivity.
  - reflexivity.
  - vm_compute. set_solver.
  - eexists. reflexivity.
Defined.

(** ** The program that __enter__ launches for [svn info] *)

Lemma same_programs_refl w : same_programs w w.
Proof. reflexivity. Qed.

Lemma same_programs_trans w1 w2 w3 :
  same_programs w1 w2 -> same_programs w2 w3 -> same_programs w1 w3.
Proof. unfold same_programs. congruence. Qed.

Lemma git_exec_programs cmd cwd w :
  programs (snd (git_exec cmd cwd w)) = programs w.
Proof.
  unfold git_exec.
  destruct cmd, cwd; simpl;
    repeat match goal with
           | |- context [if ?b then _ else _] => destruct b
           | |- context [let '(_, _) := ?p in _] => destruct p as [[? ?] ?]
           end; reflexivity.
Qed.

Lemma subprocess_call_programs exe cmd cwd :
  keeps same_programs (subprocess_call exe cmd cwd).
Proof.
  intros w res w' H. unfold subprocess_call, same_programs in *.
  destruct (programs w !! exe) as [[|st]|].
  - pose proof (git_exec_programs cmd cwd (log (Ran exe cmd) w)) as G.
    destruct (git_exec cmd cwd (log (Ran exe cmd) w)) as [[st out] w1].
    injection H as _ <-. exact G.
  - injection H as _ <-. reflexivity.
  - injection H as _ <-. reflexivity.
Qed.

(** One step of a frame proof for [same_programs]. *)
Ltac programs_step :=
  let R := constr:(same_programs) in
  let r := constr:(same_programs_refl) in
  let t := constr:(same_programs_trans) in
  first
    [ apply (keeps_ret R r t)
    | apply (keeps_raise R r t)
    | apply (keeps_assert R r t)
    | apply subprocess_call_programs
    | apply (keeps_check_call R r t)
    | apply (keeps_check_output R r t)
    | apply (keeps_strip_output R r t)
    | apply (keeps_when R r t)
    | apply (keeps_try_finally R r t)
    | apply (keeps_try_except R r t); [|intros ?]
    | apply (keeps_for_each R r t); intros ?
    | apply (keeps_bind R r t); [|intros ?]
    | apply (keeps_if R r t)
    | match goal with
      | |- keeps _ (match ?x with _ => _ end) => destruct x
      end ].

(** X10: [__enter__] asks for [svn info] from the program called [git],
    not from the git executable of the configuration: where no program
    of that name can be launched, [__enter__] never returns, whatever
    the configured executable is. *)
Theorem enter_needs_git_by_name self w :
  programs w !! bs "git" = None ->
  exists e, fst (__enter__ self w) = Raise e.
Proof.
  intros Hnone.
  destruct (__enter__ self w) as [[self1|e] w1] eqn:H; [|exists e; reflexivity].
  exfalso. unfold __enter__ in H. cbv zeta in H.
  apply bind_ok in H as (stash & wa & Ha & H).
  apply bind_ok in H as (u1 & wb & Hb & H).
  apply bind_ok in H as (original & wc & Hc & H).
  apply bind_ok in H as (present & wd & Hd & H).
  apply bind_ok in H as (u2 & we & He & H).
  apply bind_ok in H as (u3 & wf & Hf & H).
  apply bind_ok in H as (info & wg & Hg & _).
  assert (Pa : same_programs w wa).
  { revert Ha. apply (fun K => K w (Ok stash) wa). unfold has_diff.
    repeat programs_step. }
  assert (Pb : same_programs wa wb).
  { revert Hb. apply (fun K => K wa (Ok u1) wb). repeat programs_step. }
  assert (Pc : same_programs wb wc).
  { revert Hc. apply (fun K => K wb (Ok original) wc). repeat programs_step. }
  assert (Pd : same_programs wc wd).
  { revert Hd. apply (fun K => K wc (Ok present) wd). unfold branch_exists.
    repeat programs_step. }
  assert (Pe : same_programs wd we).
  { revert He. apply (fun K => K wd (Ok u2) we). repeat programs_step. }
  assert (Pf : same_programs we wf).
  { revert Hf. apply (fun K => K we (Ok u3) wf). repeat programs_step. }
  unfold same_programs in *.
  unfold check_output, bind, subprocess_call in Hg.
  replace (programs wf) with (programs w) in Hg by congruence.
  rewrite Hnone in Hg. discriminate Hg.
Qed.

(** With git installed under a path of its own only, [__enter__] fails
    when it has already stashed the local changes and switched to the
    new branch. *)
Lemma enter_needs_git_by_name_witness :
  let run := __enter__ (mkGitBranchCLUpload custom_git_config (bs "roll") None)
               custom_git_world in
  fst run = Raise OSError
  /\ head (repo custom_git_world) = OnBranch (bs "work")
  /\ head (repo (snd run)) = OnBranch (bs "autogenerated_deps_roll_branch")
  /\ stash (repo (snd run)) = [[bs "notes.txt"]].
Proof.
  intros run.
  destruct (enter_needs_git_by_name
              (mkGitBranchCLUpload custom_git_config (bs "roll") None)
              custom_git_world eq_refl) as [e He].
  split; [|vm_compute; repeat split].
  fold run in He. rewrite He. f_equal.
  assert (K : fst run = Raise OSError) by (vm_compute; reflexivity).
  congruence.
Defined.

(** ** __exit__ with the upload skipped *)

Lemma events_since_refl allowed w : events_since allowed w w.
Proof. exists []. rewrite app_nil_r. auto. Qed.

Lemma events_since_trans allowed w1 w2 w3 :
  events_since allowed w1 w2 -> events_since allowed w2 w3 ->
  events_since allowed w1 w3.
Proof.
  intros (e1 & H1 & F1) (e2 & H2 & F2). exists (e1 ++ e2).
  rewrite H2, H1, app_assoc. split; [reflexivity|].
  apply Forall_app. auto.
Qed.

Lemma subprocess_call_events allowed exe cmd cwd :
  allowed (Ran exe cmd) = true ->
  keeps (events_since allowed) (subprocess_call exe cmd cwd).
Proof.
  intros Hcmd w res w' H. unfold subprocess_call in H.
  destruct (programs w !! exe) as [[|st]|].
  - pose proof (git_exec_trace cmd cwd (log (Ran exe cmd) w)) as G.
    destruct (git_exec cmd cwd (log (Ran exe cmd) w)) as [[st out] w1].
    injection H as _ <-. exists [Ran exe cmd]. simpl in G. auto.
  - injection H as _ <-. exists [Ran exe cmd]. auto.
  - injection H as _ <-. apply events_since_refl.
Qed.

Lemma print_events allowed line :
  allowed (Printed line) = true -> keeps (events_since allowed) (print line).
Proof.
  intros Hl w res w' H. injection H as _ <-. exists [Printed line]. auto.
Qed.

Lemma os_path_exists_events allowed p :
  keeps (events_since allowed) (os_path_exists p).
Proof. intros w res w' H. injection H as _ <-. apply events_since_refl. Qed.

(** One step of a frame proof for [events_since not_cl_run]. *)
Ltac not_cl_step :=
  let R := constr:(events_since not_cl_run) in
  let r := constr:(events_since_refl not_cl_run) in
  let t := constr:(events_since_trans not_cl_run) in
  lazymatch goal with
  | |- keeps _ (bind _ _) => apply (keeps_bind R r t); [|intros ?]
  | |- keeps _ (ret _) => apply (keeps_ret R r t)
  | |- keeps _ (for_each _ _) => apply (keeps_for_each R r t); intros ?
  | |- keeps _ (assert _) => apply (keeps_assert R r t)
  | |- keeps _ (when _ _) => apply (keeps_when R r t)
  | |- keeps _ (if _ then _ else _) => apply (keeps_if R r t)
  | |- keeps _ (check_call _ _ _) => apply (keeps_check_call R r t)
  | |- keeps _ (subprocess_call _ _ _) =>
      apply subprocess_call_events; reflexivity
  | |- keeps _ (os_path_exists _) => apply os_path_exists_events
  | |- keeps _ (print _) => apply print_events; reflexivity
  end.

(** The fact the frame proof gives for the run [H]. *)
Ltac not_cl_fact H :=
  match type of H with
  | ?m ?w0 = (?res, ?w1) =>
      let K := fresh "K" in
      assert (K : keeps (events_since not_cl_run) m) by (repeat not_cl_step);
      specialize (K w0 res w1 H)
  end.

Lemma exit_skip_no_cl self :
  skip_cl_upload (t_config self) = true ->
  keeps (events_since not_cl_run) (__exit__ self).
Proof.
  intros Hskip. unfold __exit__. cbv zeta. rewrite Hskip.
  repeat not_cl_step.
Qed.

Lemma events_since_In allowed w w' e :
  events_since allowed w w' -> In e (trace w) -> In e (trace w').
Proof.
  intros (ev & -> & _) H. apply in_or_app. left. exact H.
Qed.

(** X11: with [--skip_cl_upload], [__exit__] launches no [git cl]
    command, however it ends: neither the upload, nor the query of the
    issue, nor the try jobs.  When it returns, it has printed the command
    line of the upload instead, and the issue it records is the empty
    string. *)
Theorem exit_skips_cl_upload self w :
  skip_cl_upload (t_config self) = true ->
  let run := __exit__ self w in
  events_since not_cl_run w (snd run)
  /\ forall self', fst run = Ok self' ->
       issue self' = Some []
       /\ In (Printed (join [space] (argv (git (t_config self)) ClUpload)))
            (trace (snd run)).
Proof.
  intros Hskip run. unfold run. clear run.
  destruct (__exit__ self w) as [res w'] eqn:E. simpl.
  split; [exact (exit_skip_no_cl self Hskip _ _ _ E)|].
  intros self' ->. unfold __exit__ in E. cbv zeta in E. rewrite Hskip in E.
  apply bind_ok in E as (u1 & wa & _ & E).
  apply bind_ok in E as (u2 & wb & _ & E).
  apply bind_ok in E as (new_issue & wc & Hc & E).
  assert (Hprinted : new_issue = []
            /\ In (Printed (join [space] (argv (git (t_config self)) ClUpload)))
                 (trace wc)).
  { apply bind_ok in Hc as (u3 & wd & Hd & Hc).
    injection Hd as _ <-.
    apply bind_ok in Hc as (u4 & we & He & Hc).
    injection He as _ <-.
    apply bind_ok in Hc as (u5 & wf & Hf & Hc).
    injection Hc as <- <-. split; [reflexivity|].
    not_cl_fact Hf.
    apply (events_since_In _ _ _ _ K). simpl trace.
    rewrite !in_app_iff. simpl. auto. }
  destruct Hprinted as [-> Hin].
  apply bind_ok in E as (u6 & wg & Hg & E).
  apply bind_ok in E as (u7 & wh & Hh & E).
  apply bind_ok in E as (u8 & wi & Hi & E).
  injection E as <- <-. split; [reflexivity|].
  not_cl_fact Hg.
  not_cl_fact Hh.
  not_cl_fact Hi.
  eauto using events_since_In.
Qed.

(** The sample transaction with [--skip_cl_upload], at the end of its
    body. *)
Lemma exit_skips_cl_upload_witness :
  let run := __exit__ (entered_self skip_config [bs "DEPS"])
               (edit_deps (entered_world sample_review)) in
  events_since not_cl_run (edit_deps (entered_world sample_review)) (snd run)
  /\ forall self', fst run = Ok self' ->
       issue self' = Some []
       /\ In (Printed (bs "git cl upload -f --cc=skia-team@google.com --bypass-hooks --bypass-watchlists"))
            (trace (snd run)).
Proof.
  exact (exit_skips_cl_upload (entered_self skip_config [bs "DEPS"])
           (edit_deps (entered_world sample_review)) eq_refl).
Defined.

(** ** __exit__ when it cannot finish *)

Lemma no_commit_refl w : no_commit w w.
Proof. repeat split. Qed.

Lemma no_commit_trans w1 w2 w3 :
  no_commit w1 w2 -> no_commit w2 w3 -> no_commit w1 w3.
Proof.
  unfold no_commit.
  intros (A1 & A2 & A3 & A4 & A5 & A6 & A7) (B1 & B2 & B3 & B4 & B5 & B6 & B7).
  repeat split; congruence.
Qed.

Lemma subprocess_call_add_no_commit exe f :
  keeps no_commit (subprocess_call exe (Add f) None).
Proof.
  intros w res w' H. unfold subprocess_call in H.
  destruct (programs w !! exe) as [[|st]|].
  - unfold git_exec, repo_step in H. simpl in H.
    destruct (exists_path f (fs w));
      [destruct (bool_decide _); [|destruct (bool_decide _)]|];
      injection H as _ <-; repeat split.
  - injection H as _ <-. repeat split.
  - injection H as _ <-. repeat split.
Qed.

Lemma os_path_exists_no_commit p : keeps no_commit (os_path_exists p).
Proof. intros w res w' H. injection H as _ <-. apply no_commit_refl. Qed.

Lemma stage_loop_no_commit git files :
  keeps no_commit
    (for_each files
       (fun filename =>
          present <- os_path_exists filename ;;
          assert present ;;;
          check_call git (Add filename) None)).
Proof.
  apply (keeps_for_each _ no_commit_refl no_commit_trans). intros f.
  apply (keeps_bind _ no_commit_refl no_commit_trans);
    [apply os_path_exists_no_commit|intros present].
  apply (keeps_bind _ no_commit_refl no_commit_trans);
    [apply (keeps_assert _ no_commit_refl no_commit_trans)|intros _].
  apply (keeps_check_call _ no_commit_refl no_commit_trans).
  apply subprocess_call_add_no_commit.
Qed.

Lemma stage_loop_events git files :
  keeps (events_since not_cl_run)
    (for_each files
       (fun filename =>
          present <- os_path_exists filename ;;
          assert present ;;;
          check_call git (Add filename) None)).
Proof. repeat not_cl_step. Qed.

Lemma check_call_raises exe cmd cwd w e w' :
  check_call exe cmd cwd w = (Raise e, w') ->
  e = OSError \/ e = CalledProcessError.
Proof.
  unfold check_call, bind, subprocess_call.
  destruct (programs w !! exe) as [[|st]|].
  - destruct (git_exec cmd cwd (log (Ran exe cmd) w)) as [[st out] w1].
    simpl. destruct (st =? 0)%Z; intros H; [discriminate H|].
    injection H as <- _. right. reflexivity.
  - simpl. destruct (st =? 0)%Z; intros H; [discriminate H|].
    injection H as <- _. right. reflexivity.
  - intros H. injection H as <- _. left. reflexivity.
Qed.

(** The loop stops at a path that does not exist, if not before, at a
    [git add] that fails. *)
Lemma stage_loop_missing git files f w :
  In f files -> exists_path f (fs w) = false ->
  exists e,
    fst (for_each files
           (fun filename =>
              present <- os_path_exists filename ;;
              assert present ;;;
              check_call git (Add filename) None) w) = Raise e
    /\ (e = AssertionError \/ e = OSError \/ e = CalledProcessError).
Proof.
  revert w. induction files as [|x files IH]; intros w Hin Hf; [destruct Hin|].
  simpl for_each. unfold bind at 1. unfold bind at 1, os_path_exists.
  destruct (exists_path x (fs w)) eqn:Hx.
  - destruct Hin as [->|Hin]; [congruence|].
    simpl assert. unfold bind at 1, ret at 1.
    destruct (check_call git (Add x) None w) as [[[]|e] w1] eqn:Ec.
    + assert (N : no_commit w w1).
      { revert Ec. apply (fun K => K w (Ok tt) w1).
        apply (keeps_check_call _ no_commit_refl no_commit_trans).
        apply subprocess_call_add_no_commit. }
      destruct N as (N1 & _).
      apply (IH w1 Hin). rewrite N1. exact Hf.
    + exists e. split; [reflexivity|]. right.
      exact (check_call_raises _ _ _ _ _ _ Ec).
  - exists AssertionError. split; [reflexivity|left; reflexivity].
Qed.

(** X12: when one of the staged paths does not exist, [__exit__] raises
    before it commits anything: [AssertionError] at that path, unless
    [git add] fails on a path before it ([CalledProcessError], or
    [OSError] when git cannot be launched); when the missing path is the
    first one staged, it is [AssertionError].  The files, HEAD, the
    branches, the stash and the commits are as the body left them, and no
    [git cl] command was launched.  The checkout is not restored. *)
Theorem exit_missing_staged_path self w f :
  In f (t_file_list self) ->
  exists_path f (fs w) = false ->
  let run := __exit__ self w in
  (fst run = Raise AssertionError \/ fst run = Raise OSError
   \/ fst run = Raise CalledProcessError)
  /\ (forall rest, t_file_list self = f :: rest ->
                   fst run = Raise AssertionError)
  /\ no_commit w (snd run)
  /\ events_since not_cl_run w (snd run).
Proof.
  intros Hin Hf run. unfold run. clear run.
  destruct (stage_loop_missing (git (t_config self)) _ f w Hin Hf)
    as (e & He & Hkind).
  destruct (__exit__ self w) as [res w'] eqn:E.
  unfold __exit__ in E. cbv zeta in E. unfold bind at 1 in E.
  destruct (for_each (t_file_list self) _ w) as [[[]|e'] w1] eqn:El;
    [discriminate He|].
  simpl in He. injection He as He. injection E as <- <-. simpl.
  split.
  { subst e'. destruct Hkind as [Hk|[Hk|Hk]]; rewrite Hk; auto. }
  split.
  { intros rest Hlist. rewrite Hlist in El. simpl for_each in El.
    unfold bind at 1 in El. unfold bind at 1, os_path_exists in El.
    rewrite Hf in El. simpl in El. congruence. }
  split.
  - exact (stage_loop_no_commit _ _ _ _ _ El).
  - exact (stage_loop_events _ _ _ _ _ El).
Qed.

(** The sample transaction around a body that stages a path that does
    not exist, at the end of the body. *)
Lemma exit_missing_staged_path_witness :
  let w := edit_deps (entered_world sample_review) in
  let run := __exit__ (entered_self sample_config [bs "DEPS.orig"; bs "DEPS"]) w in
  fst run = Raise AssertionError
  /\ head (repo (snd run)) = OnBranch (bs "autogenerated_deps_roll_branch")
  /\ stash (repo (snd run)) = [[bs "notes.txt"]].
Proof.
  intros w run.
  destruct (exit_missing_staged_path
              (entered_self sample_config [bs "DEPS.orig"; bs "DEPS"]) w
              (bs "DEPS.orig"))
    as (_ & Hfirst & (_ & _ & Hh & _ & Hs & _) & _).
  - left. reflexivity.
  - reflexivity.
  - split; [exact (Hfirst [bs "DEPS"] eq_refl)|].
    split; [exact Hh|exact Hs].
Defined.

(** With an ignored path staged before the one that does not exist,
    [git add] fails first. *)
Lemma exit_ignored_path_example :
  let run := __exit__ (entered_self sample_config [bs "DEPS"; bs "DEPS.orig"])
               ignoring_world in
  fst run = Raise CalledProcessError.
Proof. reflexivity. Qed.




(** ** __exit__ when the upload fails *)

Lemma stays_put_refl w : stays_put w w.
Proof. repeat split. auto. Qed.

Lemma stays_put_trans w1 w2 w3 :
  stays_put w1 w2 -> stays_put w2 w3 -> stays_put w1 w3.
Proof.
  unfold stays_put. intros (A1 & A2 & A3 & A4) (B1 & B2 & B3 & B4).
  repeat split; try congruence. auto.
Qed.

Lemma subprocess_call_stays_put exe cmd :
  match cmd with
  | Add _ | CommitMsg _ | ClUpload | ClIssue | ClTry _ _ => True
  | _ => False
  end ->
  keeps stays_put (subprocess_call exe cmd None).
Proof.
  intros Hc w res w' H. unfold subprocess_call in H.
  destruct (programs w !! exe) as [[|st]|].
  - destruct cmd; try destruct Hc; unfold git_exec, repo_step in H;
      simpl in H;
      repeat match type of H with
             | context [if ?b then _ else _] => destruct b
             | context [match ?l with [] => _ | _ :: _ => _ end] => destruct l
             end;
      injection H as _ <-; repeat split; simpl; auto;
      intros b Hb; rewrite Hb; reflexivity.
  - injection H as _ <-. repeat split. auto.
  - injection H as _ <-. repeat split. auto.
Qed.

Lemma os_path_exists_stays_put p : keeps stays_put (os_path_exists p).
Proof. intros w res w' H. injection H as _ <-. apply stays_put_refl. Qed.

Lemma print_stays_put line : keeps stays_put (print line).
Proof. intros w res w' H. injection H as _ <-. repeat split. auto. Qed.

(** One step of a frame proof for [stays_put]. *)
Ltac stays_put_step :=
  let R := constr:(stays_put) in
  let r := constr:(stays_put_refl) in
  let t := constr:(stays_put_trans) in
  lazymatch goal with
  | |- keeps _ (bind _ _) => apply (keeps_bind R r t); [|intros ?]
  | |- keeps _ (ret _) => apply (keeps_ret R r t)
  | |- keeps _ (for_each _ _) => apply (keeps_for_each R r t); intros ?
  | |- keeps _ (assert _) => apply (keeps_assert R r t)
  | |- keeps _ (when _ _) => apply (keeps_when R r t)
  | |- keeps _ (if _ then _ else _) => apply (keeps_if R r t)
  | |- keeps _ (check_call _ _ _) => apply (keeps_check_call R r t)
  | |- keeps _ (quiet_check_call _ _) => apply (keeps_check_call R r t)
  | |- keeps _ (subprocess_call _ _ _) =>
      apply subprocess_call_stays_put; exact I
  | |- keeps _ (os_path_exists _) => apply os_path_exists_stays_put
  | |- keeps _ (print _) => apply print_stays_put
  end.

Lemma stage_loop_stays_put git files :
  keeps stays_put
    (for_each files
       (fun filename =>
          present <- os_path_exists filename ;;
          assert present ;;;
          check_call git (Add filename) None)).
Proof. repeat stays_put_step. Qed.

Lemma commit_stays_put git message :
  keeps stays_put (check_call git (CommitMsg message) None).
Proof. repeat stays_put_step. Qed.

Lemma upload_refused git verbose w :
  programs w !! git = Some GitProgram ->
  cl_upload_status (review w) <> 0%Z ->
  (if verbose : bool then check_call git ClUpload None ;;; print []
   else quiet_check_call git ClUpload) w
  = (Raise CalledProcessError, log (Ran git ClUpload) w).
Proof.
  intros Hg Hst. apply Z.eqb_neq in Hst.
  destruct verbose; unfold quiet_check_call, check_call, bind, subprocess_call;
    rewrite Hg; simpl; rewrite Hst; reflexivity.
Qed.

(** X14: with git at hand and the upload not skipped, when
    [git cl upload] exits with an error, [__exit__] raises and restores
    nothing: HEAD stays on the branch it is on, the temporary one, and
    the stash is not popped. *)
Theorem exit_upload_refused self w :
  programs w !! git (t_config self) = Some GitProgram ->
  skip_cl_upload (t_config self) = false ->
  cl_upload_status (review w) <> 0%Z ->
  let run := __exit__ self w in
  (exists e, fst run = Raise e) /\ stays_put w (snd run).
Proof.
  intros Hg Hskip Hst run. unfold run. clear run.
  destruct (__exit__ self w) as [res w'] eqn:E.
  unfold __exit__ in E. cbv zeta in E. rewrite Hskip in E. cbv iota in E.
  unfold bind at 1 in E.
  destruct (for_each (t_file_list self) _ w) as [[[]|e1] w1] eqn:E1.
  2:{ injection E as <- <-. simpl. split; [exists e1; reflexivity|].
      exact (stage_loop_stays_put _ _ _ _ _ E1). }
  assert (S1 : stays_put w w1) by exact (stage_loop_stays_put _ _ _ _ _ E1).
  unfold bind at 1 in E.
  destruct (check_call (git (t_config self)) (CommitMsg (t_message self)) None w1)
    as [[[]|e2] w2] eqn:E2.
  2:{ injection E as <- <-. simpl. split; [exists e2; reflexivity|].
      apply (stays_put_trans _ _ _ S1).
      exact (commit_stays_put _ _ _ _ _ E2). }
  assert (S2 : stays_put w1 w2) by exact (commit_stays_put _ _ _ _ _ E2).
  pose proof (stays_put_trans _ _ _ S1 S2) as S.
  destruct S as (P & V & _).
  unfold bind at 1 in E. unfold bind at 1 in E.
  rewrite upload_refused in E by (rewrite ?P, ?V; assumption).
  injection E as <- <-. simpl. split; [eexists; reflexivity|].
  apply (stays_put_trans _ w2); [exact (stays_put_trans _ _ _ S1 S2)|].
  repeat split. auto.
Qed.

(** The sample transaction with a server that refuses the upload, at the
    end of its body. *)
Lemma exit_upload_refused_witness :
  let w := edit_deps (entered_world refusing_review) in
  let run := __exit__ (entered_self sample_config [bs "DEPS"]) w in
  (exists e, fst run = Raise e)
  /\ head (repo (snd run)) = OnBranch (bs "autogenerated_deps_roll_branch")
  /\ stash (repo (snd run)) = [[bs "notes.txt"]].
Proof.
  intros w run.
  destruct (exit_upload_refused (entered_self sample_config [bs "DEPS"]) w)
    as (Hres & _ & _ & Hs & Hh).
  - reflexivity.
  - reflexivity.
  - discriminate.
  - split; [exact Hres|]. split; [apply Hh; reflexivity|exact Hs].
Defined.

(** ** The branches of roll_deps *)

Lemma string_of_uint_nonempty u :
  list_ascii_of_string (NilZero.string_of_uint u) <> [].
Proof. destruct u; discriminate. Qed.

Lemma fmt_d_nonempty r : fmt_d r <> [].
Proof.
  unfold fmt_d, bs, NilZero.string_of_int.
  destruct (Z.to_int r); [apply string_of_uint_nonempty|discriminate].
Qed.

Lemma digit_not_space c : is_digit c = true -> is_space c = false.
Proof.
  destruct c as [[] [] [] [] [] [] [] []]; intros H;
    first [reflexivity|discriminate H].
Qed.

Lemma fmt_d_no_space r : no_space (fmt_d r) = true.
Proof.
  unfold no_space. apply forallb_forall. intros c H.
  apply fmt_d_chars in H as [H| ->]; [|reflexivity].
  rewrite (digit_not_space _ H). reflexivity.
Qed.

Lemma no_space_no_newline s : no_space s = true -> ~ In newline s.
Proof.
  unfold no_space. rewrite forallb_forall. intros H Hin.
  specialize (H _ Hin). discriminate H.
Qed.

Lemma split_first_line x y :
  ~ In newline x -> hd [] (split newline (x ++ newline :: y)) = x.
Proof. intros H. rewrite split_app_sep by exact H. reflexivity. Qed.

Lemma rstrip_app_no_space s t :
  no_space t = true -> t <> [] -> rstrip (s ++ t) = s ++ t.
Proof.
  intros Ht Hne. rewrite rstrip_app, (rstrip_no_space _ Ht).
  destruct t; [contradiction|reflexivity].
Qed.

Lemma replace_app a b s t :
  replace a b (s ++ t) = replace a b s ++ replace a b t.
Proof. apply map_app. Qed.

Lemma replace_no_space s :
  no_space s = true -> replace space underscore s = s.
Proof.
  unfold no_space, replace. induction s as [|c s IH]; simpl; [reflexivity|].
  intros H. apply andb_prop in H as [Hc Hs]. rewrite (IH Hs).
  destruct (Ascii.eqb c space) eqn:E; [|reflexivity].
  apply Ascii.eqb_eq in E. subst c. discriminate Hc.
Qed.

(** X15: the branch of the DEPS roll.  Whatever the revision and whether
    or not the message names a control CL, the branch name made from the
    commit message of the DEPS roll is [roll_skia_DEPS_to_] followed by
    the revision; with [--save_branches] the transaction works on that
    branch, which is not the default one, and on the default branch
    otherwise. *)
Theorem deps_roll_branch config revision control_url :
  let message := roll_message revision control_url in
  branch_name message = bs "roll_skia_DEPS_to_" ++ fmt_d revision
  /\ used_branch_name config (roll_branch config message)
     = (if save_branches config
        then bs "roll_skia_DEPS_to_" ++ fmt_d revision
        else default_branch_name config)
  /\ bs "roll_skia_DEPS_to_" ++ fmt_d revision
     <> bs "autogenerated_deps_roll_branch".
Proof.
  intros message.
  assert (Hb : branch_name message = bs "roll_skia_DEPS_to_" ++ fmt_d revision).
  { unfold branch_name, message, roll_message.
    assert (Hl : forall rest,
               hd [] (split newline
                        (lstrip (bs "roll skia DEPS to " ++ fmt_d revision
                                   ++ newline :: rest)))
               = bs "roll skia DEPS to " ++ fmt_d revision).
    { intros rest.
      replace (lstrip (bs "roll skia DEPS to " ++ fmt_d revision
                         ++ newline :: rest))
        with ((bs "roll skia DEPS to " ++ fmt_d revision) ++ newline :: rest)
        by reflexivity.
      apply split_first_line. rewrite in_app_iff. intros [H|H].
      - vm_compute in H. intuition discriminate.
      - exact (no_space_no_newline _ (fmt_d_no_space revision) H). }
    destruct control_url as [url|].
    - change ([newline; newline] ++ created_by ++ [newline; newline]
                ++ bs "control: " ++ url)
        with (newline :: (newline :: created_by ++ [newline; newline]
                ++ bs "control: " ++ url)).
      rewrite Hl.
      rewrite rstrip_app_no_space
        by (first [apply fmt_d_no_space|apply fmt_d_nonempty]).
      rewrite replace_app, (replace_no_space _ (fmt_d_no_space revision)).
      reflexivity.
    - change ([newline; newline] ++ created_by)
        with (newline :: (newline :: created_by)).
      rewrite Hl.
      rewrite rstrip_app_no_space
        by (first [apply fmt_d_no_space|apply fmt_d_nonempty]).
      rewrite replace_app, (replace_no_space _ (fmt_d_no_space revision)).
      reflexivity. }
  split; [exact Hb|]. split; [|discriminate].
  unfold roll_branch. destruct (save_branches config); [|reflexivity].
  simpl. rewrite Hb. reflexivity.
Qed.

(** X16: the branch of the whitespace change.  When the first eight
    characters of the hash of origin/master hold no white space, the
    branch name made from the commit message of the whitespace change is
    [whitespace_change_] followed by these characters, and only
    [whitespace_change] for an empty hash; it depends on no more of the
    hash than its first eight characters. *)
Theorem whitespace_branch master_hash :
  no_space (firstn 8 master_hash) = true ->
  branch_name (whitespace_message master_hash)
  = (if truthy master_hash
     then bs "whitespace_change_" ++ firstn 8 master_hash
     else bs "whitespace_change")
  /\ forall other, firstn 8 other = firstn 8 master_hash ->
                   branch_name (whitespace_message other)
                   = branch_name (whitespace_message master_hash).
Proof.
  intros Hs. split.
  2:{ intros other Ho. unfold whitespace_message. rewrite Ho. reflexivity. }
  unfold branch_name, whitespace_message.
  replace (lstrip (bs "whitespace change " ++ firstn 8 master_hash
                     ++ [newline; newline] ++ created_by ++ [newline]))
    with ((bs "whitespace change " ++ firstn 8 master_hash)
            ++ newline :: (newline :: created_by ++ [newline]))
    by reflexivity.
  rewrite split_first_line.
  2:{ rewrite in_app_iff. intros [H|H].
      - vm_compute in H. intuition discriminate.
      - exact (no_space_no_newline _ Hs H). }
  destruct master_hash as [|c h]; [reflexivity|].
  simpl truthy. cbv iota.
  rewrite rstrip_app_no_space by (first [exact Hs|discriminate]).
  rewrite replace_app, (replace_no_space _ Hs). reflexivity.
Qed.

(** The hash of the sample run. *)
Lemma whitespace_branch_witness :
  branch_name (whitespace_message sample_hash) = bs "whitespace_change_2bbb7eff"
  /\ used_branch_name saving_config
       (roll_branch saving_config (whitespace_message sample_hash))
     = bs "whitespace_change_2bbb7eff".
Proof.
  destruct (whitespace_branch sample_hash eq_refl) as [H _].
  split; [exact H|]. unfold roll_branch. simpl save_branches. cbv iota.
  rewrite H. reflexivity.
Defined.

(** ** What change_skia_deps leaves alone *)

Lemma only_fs_refl w : only_fs w w.
Proof. repeat split. Qed.

Lemma only_fs_trans w1 w2 w3 : only_fs w1 w2 -> only_fs w2 w3 -> only_fs w1 w3.
Proof.
  unfold only_fs. intros (A1 & A2 & A3 & A4 & A5) (B1 & B2 & B3 & B4 & B5).
  repeat split; congruence.
Qed.

Lemma rewrite_loop_only_fs r h tmp input :
  keeps only_fs (for_each input (rewrite_step r h tmp)).
Proof.
  apply (keeps_for_each _ only_fs_refl only_fs_trans). intros line.
  unfold rewrite_step, re_sub.
  apply (keeps_bind _ only_fs_refl only_fs_trans).
  { apply (keeps_if _ only_fs_refl only_fs_trans);
      [apply (keeps_ret _ only_fs_refl only_fs_trans)
      |apply (keeps_raise _ only_fs_refl only_fs_trans)]. }
  intros l1. apply (keeps_bind _ only_fs_refl only_fs_trans).
  { apply (keeps_if _ only_fs_refl only_fs_trans);
      [apply (keeps_ret _ only_fs_refl only_fs_trans)
      |apply (keeps_raise _ only_fs_refl only_fs_trans)]. }
  intros l2 w res w' H. injection H as _ <-. repeat split.
Qed.

Lemma shutil_move_only_fs src dst : keeps only_fs (shutil_move src dst).
Proof.
  intros w res w' H. unfold shutil_move in H. cbv zeta in H.
  repeat match type of H with
         | context [if ?b then _ else _] => destruct b
         | context [match files ?f !! ?p with _ => _ end] =>
             destruct (files f !! p)
         end; injection H as _ <-; repeat split.
Qed.

Lemma shutil_move_frame tmp path w res w' :
  path ∉ dirs (fs w) ->
  shutil_move tmp path w = (res, w') ->
  dirs (fs w') = dirs (fs w)
  /\ (forall p, p <> path -> p <> tmp -> files (fs w') !! p = files (fs w) !! p)
  /\ (res = Ok tt -> path <> tmp -> files (fs w') !! tmp = None).
Proof.
  intros Hd H. unfold shutil_move in H. cbv zeta in H.
  rewrite (bool_decide_eq_false_2 _ Hd) in H. simpl in H.
  assert (Hmoved : forall sf,
    let moved := set_fs (set_files (<[path := sf]> (delete tmp (files (fs w))))
                           (fs w)) w in
    dirs (fs moved) = dirs (fs w)
    /\ (forall p, p <> path -> p <> tmp ->
                  files (fs moved) !! p = files (fs w) !! p)
    /\ (path <> tmp -> files (fs moved) !! tmp = None)).
  { intros sf. simpl. split; [reflexivity|]. split.
    - intros p Hp Ht. rewrite lookup_insert_ne by congruence.
      apply lookup_delete_ne. congruence.
    - intros Hne. rewrite lookup_insert_ne by exact Hne.
      apply lookup_delete_eq. }
  destruct (files (fs w) !! tmp) as [sf|] eqn:Hsf.
  - specialize (Hmoved sf). cbv zeta in Hmoved.
    destruct Hmoved as (M1 & M2 & M3).
    destruct (same_device (fs w) || bool_decide (tmp = path)).
    + injection H as <- <-. auto.
    + destruct (files (fs w) !! path) as [df|];
        [destruct (f_writable df)|]; injection H as <- <-; auto;
        repeat split; auto; discriminate.
  - injection H as <- <-. repeat split; auto.
Qed.

(** The files and directories [change_skia_deps] leaves alone. *)
Lemma change_skia_deps_frame r h path w :
  path ∉ dirs (fs w) ->
  let run := change_skia_deps r h path w in
  dirs (fs (snd run)) = dirs (fs w)
  /\ (forall p, p <> path -> p <> deps_tmp w ->
                files (fs (snd run)) !! p = files (fs w) !! p)
  /\ (fst run = Ok tt -> path <> deps_tmp w ->
      files (fs (snd run)) !! deps_tmp w = None).
Proof.
  intros Hd run. unfold run. clear run.
  rewrite change_skia_deps_unfold.
  destruct (exists_path (deps_tmp w) (fs w)) eqn:Hfree.
  { simpl. split; [reflexivity|]. split; [reflexivity|discriminate]. }
  cbv zeta.
  set (tmp := deps_tmp w).
  set (w1 := set_fs (set_files (<[tmp := empty_file]> (files (fs w)))
                       (bump_tmp (fs w))) w).
  assert (D1 : dirs (fs w1) = dirs (fs w)) by reflexivity.
  assert (L1 : forall p, p <> tmp -> files (fs w1) !! p = files (fs w) !! p).
  { intros p Hp. simpl. apply lookup_insert_ne. congruence. }
  unfold open_read.
  destruct (files (fs w1) !! path) as [file|] eqn:Hfile.
  2:{ simpl. split; [exact D1|].
      split; [intros p _ Hp; exact (L1 p Hp)|discriminate]. }
  destruct (f_readable file).
  2:{ simpl. split; [exact D1|].
      split; [intros p _ Hp; exact (L1 p Hp)|discriminate]. }
  destruct (for_each (lines (f_data file)) (rewrite_step r h tmp) w1)
    as [[[]|e] w3] eqn:Eloop.
  - pose proof (rewrite_loop_frame _ _ _ _ _ _ _ Eloop) as (L3 & D3 & _).
    destruct (shutil_move tmp path w3) as [res w'] eqn:Emove.
    destruct (shutil_move_frame tmp path w3 res w') as (D4 & L4 & T4);
      [rewrite D3, D1; exact Hd|exact Emove|].
    simpl. split; [congruence|]. split; [|exact T4].
    intros p Hp Ht. rewrite (L4 p Hp Ht), (L3 p Ht). exact (L1 p Ht).
  - pose proof (rewrite_loop_frame _ _ _ _ _ _ _ Eloop) as (L3 & D3 & _).
    simpl. split; [congruence|]. split; [|discriminate].
    intros p _ Ht. rewrite (L3 p Ht). exact (L1 p Ht).
Qed.

Lemma NamedTemporaryFile_only_fs prefix : keeps only_fs (NamedTemporaryFile prefix).
Proof.
  intros w res w' H. unfold NamedTemporaryFile in H. cbv zeta in H.
  destruct (exists_path _ _); injection H as _ <-; repeat split.
Qed.

Lemma open_read_only_fs path : keeps only_fs (open_read path).
Proof.
  intros w res w' H. unfold open_read in H.
  destruct (files (fs w) !! path) as [f|]; [destruct (f_readable f)|];
    injection H as _ <-; repeat split.
Qed.

Lemma change_skia_deps_only_fs r h path :
  keeps only_fs (change_skia_deps r h path).
Proof.
  unfold change_skia_deps.
  apply (keeps_bind _ only_fs_refl only_fs_trans);
    [apply NamedTemporaryFile_only_fs|intros tmp].
  apply (keeps_bind _ only_fs_refl only_fs_trans);
    [|intros _; apply shutil_move_only_fs].
  apply (keeps_try_finally _ only_fs_refl only_fs_trans);
    [|apply (keeps_ret _ only_fs_refl only_fs_trans)].
  cbv zeta.
  apply (keeps_bind _ only_fs_refl only_fs_trans);
    [apply open_read_only_fs|intros input].
  apply rewrite_loop_only_fs.
Qed.

(** X17: [change_skia_deps], given a path that is not a directory,
    launches no program and prints nothing, and, whether it returns or
    raises, creates, changes or removes no file other than the manifest
    and its own temporary file, and no directory.  When it returns, the
    temporary file is gone: it has become the manifest. *)
Theorem change_skia_deps_touches_manifest_only r h path w :
  path ∉ dirs (fs w) ->
  let run := change_skia_deps r h path w in
  only_fs w (snd run)
  /\ dirs (fs (snd run)) = dirs (fs w)
  /\ (forall p, p <> path -> p <> deps_tmp w ->
                files (fs (snd run)) !! p = files (fs w) !! p)
  /\ (fst run = Ok tt -> path <> deps_tmp w ->
      files (fs (snd run)) !! deps_tmp w = None).
Proof.
  intros Hd run. split; [|exact (change_skia_deps_frame r h path w Hd)].
  unfold run. destruct (change_skia_deps r h path w) as [res w'] eqn:E.
  exact (change_skia_deps_only_fs r h path w res w' E).
Qed.

(** The sample roll. *)
Lemma change_skia_deps_touches_manifest_only_witness :
  let run := change_skia_deps 12345 sample_hash (bs "DEPS") sample_world in
  fst run = Ok tt
  /\ trace (snd run) = []
  /\ dirs (fs (snd run)) = dirs (fs sample_world)
  /\ files (fs (snd run)) !! deps_tmp sample_world = None.
Proof.
  intros run.
  assert (Hd : bs "DEPS" ∉ dirs (fs sample_world)).
  { apply (bool_decide_eq_false_1 _). reflexivity. }
  destruct (change_skia_deps_touches_manifest_only 12345 sample_hash (bs "DEPS")
              sample_world Hd) as ((_ & _ & _ & _ & Ht) & Hdirs & _ & Htmp).
  assert (Hok : fst run = Ok tt) by reflexivity.
  split; [exact Hok|]. split; [exact Ht|]. split; [exact Hdirs|].
  apply Htmp; [exact Hok|discriminate].
Defined.

(** ** Rolling twice *)

(** Two fields in one string, of the same key or not, lie apart or
    start at the same place. *)
Lemma shaped_apart k1 k2 s x f y a g b :
  key_ok k1 -> key_ok k2 ->
  s = x ++ f ++ y -> s = a ++ g ++ b ->
  shaped k1 f -> shaped k2 g ->
  (length x + length f <= length a \/ length a + length g <= length x
   \/ length x = length a)%nat.
Proof.
  intros K1 K2 Hf Hg Sf Sg.
  destruct (Nat.le_gt_cases (length x + length f) (length a)) as [?|H1]; [auto|].
  destruct (Nat.le_gt_cases (length a + length g) (length x)) as [?|H2]; [auto|].
  right. right.
  pose proof (shaped_length _ _ Sf) as Lf. pose proof (shaped_length _ _ Sg) as Lg.
  pose proof K1 as (_ & K1q & K1s). pose proof K2 as (_ & K2q & K2s).
  assert (L1 : (1 < length k1)%nat)
    by (apply nth_error_Some; rewrite K1s; discriminate).
  assert (L2 : (1 < length k2)%nat)
    by (apply nth_error_Some; rewrite K2s; discriminate).
  assert (F : forall i, (i < length f)%nat ->
                        nth_error s (length x + i) = nth_error f i)
    by (intros; rewrite Hf; apply nth_error_mid; assumption).
  assert (G : forall i, (i < length g)%nat ->
                        nth_error s (length a + i) = nth_error g i)
    by (intros; rewrite Hg; apply nth_error_mid; assumption).
  destruct (Nat.lt_trichotomy (length x) (length a)) as [Hlt|[Heq|Hgt]];
    [|exact Heq|]; exfalso.
  - set (j := (length a - length x)%nat).
    assert (E0 : nth_error f j = Some dquote).
    { rewrite <- F by (unfold j; lia).
      replace (length x + j)%nat with (length a + 0)%nat by (unfold j; lia).
      rewrite G by lia. rewrite (shaped_key _ _ 0 Sg) by lia. exact K2q. }
    destruct (Nat.eq_dec (S j) (length f)) as [Elast|Enot].
    + pose proof (shaped_last _ _ Sf) as L.
      replace (length f - 1)%nat with j in L by lia.
      unfold comma, dquote in *. congruence.
    + assert (E1 : nth_error f (S j) = Some "s"%char).
      { rewrite <- F by (unfold j in *; lia).
        replace (length x + S j)%nat with (length a + 1)%nat by (unfold j; lia).
        rewrite G by lia. rewrite (shaped_key _ _ 1 Sg) by lia. exact K2s. }
      pose proof (shaped_quote_s _ _ _ K1 Sf E0 E1) as J.
      unfold j in J. lia.
  - set (j := (length x - length a)%nat).
    assert (E0 : nth_error g j = Some dquote).
    { rewrite <- G by (unfold j; lia).
      replace (length a + j)%nat with (length x + 0)%nat by (unfold j; lia).
      rewrite F by lia. rewrite (shaped_key _ _ 0 Sf) by lia. exact K1q. }
    destruct (Nat.eq_dec (S j) (length g)) as [Elast|Enot].
    + pose proof (shaped_last _ _ Sg) as L.
      replace (length g - 1)%nat with j in L by lia.
      unfold comma, dquote in *. congruence.
    + assert (E1 : nth_error g (S j) = Some "s"%char).
      { rewrite <- G by (unfold j in *; lia).
        replace (length a + S j)%nat with (length x + 1)%nat by (unfold j; lia).
        rewrite F by lia. rewrite (shaped_key _ _ 1 Sf) by lia. exact K1s. }
      pose proof (shaped_quote_s _ _ _ K2 Sg E0 E1) as J.
      unfold j in J. lia.
Qed.

Lemma field_shaped key cls f :
  (forall c, cls c = true -> plain c) -> is_field key cls f -> shaped key f.
Proof.
  intros Hc (v & Hv & ->). exists v. split; [|reflexivity].
  apply List.Forall_forall. intros c H.
  rewrite forallb_forall in Hv. auto.
Qed.

Lemma digit_plain c : is_digit c = true -> plain c.
Proof. intros H. split; intros ->; discriminate H. Qed.

Lemma hex_plain c : is_hex c = true -> plain c.
Proof. intros H. split; intros ->; discriminate H. Qed.

Lemma rev_shaped f : is_rev f -> shaped rev_key f.
Proof. apply field_shaped. exact digit_plain. Qed.

(** A field that lies before the end of [a] in [a ++ b]. *)
Lemma field_in_prefix (a b x f y : str) :
  a ++ b = x ++ f ++ y -> (length x + length f <= length a)%nat ->
  exists z, a = x ++ f ++ z /\ y = z ++ b.
Proof.
  intros H L. rewrite app_assoc in H.
  destruct (app_eq_len_le a b (x ++ f) y H) as (z & Ha & Hy);
    [rewrite length_app; lia|].
  exists z. rewrite <- app_assoc in Ha. auto.
Qed.

(** A field that starts after the end of [a] in [a ++ b]. *)
Lemma field_in_suffix (a b x f y : str) :
  a ++ b = x ++ f ++ y -> (length a <= length x)%nat ->
  exists z, x = a ++ z /\ b = z ++ f ++ y.
Proof.
  intros H L. symmetry in H.
  destruct (app_eq_len_le x (f ++ y) a b H L) as (z & Hx & Hb).
  exists z. auto.
Qed.

Section Override.

Variables (key : str) (cls : ascii -> bool).
Hypothesis cls_quote : cls dquote = false.
Hypothesis key_fine : key_ok key.
Hypothesis cls_plain : forall c, cls c = true -> plain c.

Let re := field_regex key cls.

(** No substitution in a prefix in which no field starts. *)
Lemma sub_prefix repl p b :
  (forall x f y, p ++ b = x ++ f ++ y -> is_field key cls f ->
                 length p <= length x) ->
  sub re repl (p ++ b) = p ++ sub re repl b.
Proof using cls_quote.
  unfold sub. induction p as [|c p IH]; intros Hleft; [reflexivity|].
  simpl. destruct (rmatch re (c :: p ++ b)) as [n|] eqn:Hm.
  - apply rmatch_field in Hm as (f' & rest & Hf' & Hs & _); [|exact cls_quote].
    specialize (Hleft [] f' rest Hs Hf'). simpl in Hleft. lia.
  - f_equal. apply IH. intros x f' y Hs Hf'.
    specialize (Hleft (c :: x) f' y). simpl in Hleft.
    rewrite Hs in Hleft. specialize (Hleft eq_refl Hf'). lia.
Qed.

(** Once every field is replaced by a field, a second substitution finds
    the fields where the first found them. *)
Lemma replaced_again repl repl' s out :
  is_field key cls repl ->
  replaced_all key cls repl s out ->
  sub re repl' out = sub re repl' s.
Proof using cls_quote key_fine cls_plain.
  intros Hrepl H.
  induction H as [s Hno|gap f rest out Hf Hleft Hrest IH]; [reflexivity|].
  unfold re.
  rewrite (sub_first_field key cls repl' cls_quote gap f rest Hf Hleft).
  rewrite (sub_first_field key cls repl' cls_quote gap repl out Hrepl).
  - fold re. rewrite IH. reflexivity.
  - intros x f' y Hs Hf'.
    destruct (Nat.le_gt_cases (length gap) (length x)) as [?|Hlt];
      [assumption|exfalso].
    destruct (shaped_apart key key _ x f' y gap repl out key_fine key_fine
                Hs eq_refl (field_shaped _ _ _ cls_plain Hf')
                (field_shaped _ _ _ cls_plain Hrepl))
      as [Hin|[Hout|Heq]]; [|lia|lia].
    destruct (field_in_prefix gap (repl ++ out) x f' y Hs Hin) as (z & Hg & _).
    specialize (Hleft x f' (z ++ f ++ rest)).
    rewrite Hg in Hleft at 1. rewrite <- !app_assoc in Hleft.
    specialize (Hleft eq_refl Hf'). lia.
Qed.

End Override.

(** Replacing the hash fields brings no revision field into a string
    that has none. *)
Lemma hash_sub_no_rev H s t :
  shaped hash_key H ->
  replaced_all hash_key is_hex H s t ->
  (forall x f y, s = x ++ f ++ y -> ~ is_rev f) ->
  forall x f y, t = x ++ f ++ y -> ~ is_rev f.
Proof.
  intros SH R.
  induction R as [s Hno|gap f rest out Hf Hleft Hrest IH]; intros Hs;
    [exact Hs|].
  assert (Hrest' : forall x f0 y, rest = x ++ f0 ++ y -> ~ is_rev f0).
  { intros x0 f0 y0 -> Hf0.
    apply (Hs ((gap ++ f) ++ x0) f0 y0); [|exact Hf0].
    rewrite <- !app_assoc. reflexivity. }
  specialize (IH Hrest').
  intros x g y Ht Hg.
  destruct (fields_apart _ gap H out x g y eq_refl Ht SH (rev_shaped g Hg))
    as [A|B].
  - rewrite app_assoc in Ht.
    destruct (field_in_suffix (gap ++ H) out x g y Ht) as (z & _ & Hout);
      [rewrite length_app; lia|].
    exact (IH z g y Hout Hg).
  - destruct (field_in_prefix gap (H ++ out) x g y Ht B) as (z & Hgap & _).
    apply (Hs x g (z ++ f ++ rest)); [|exact Hg].
    rewrite Hgap, <- !app_assoc. reflexivity.
Qed.

(** The substitution of the hash fields works on both sides of a
    revision field separately. *)
Lemma hash_sub_split H F b a out :
  shaped rev_key F ->
  replaced_all hash_key is_hex H a out ->
  sub deps_regex_hash H (a ++ F ++ b) = out ++ F ++ sub deps_regex_hash H b.
Proof.
  intros SF R. change deps_regex_hash with (field_regex hash_key is_hex).
  induction R as [a Hno|gap f rest out Hf Hleft Hrest IH].
  - rewrite app_assoc.
    rewrite (sub_prefix hash_key is_hex eq_refl H (a ++ F) b).
    + rewrite <- app_assoc. reflexivity.
    + intros x g y Hs Hg. rewrite <- app_assoc in Hs.
      destruct (fields_apart _ x g y a F b Hs eq_refl
                  (hash_field_shaped g Hg) SF) as [A|B].
      * exfalso. destruct (field_in_prefix a (F ++ b) x g y Hs A)
          as (z & Ha & _).
        exact (Hno x g z Ha Hg).
      * rewrite length_app. lia.
  - replace ((gap ++ f ++ rest) ++ F ++ b)
      with (gap ++ f ++ (rest ++ F ++ b))
      by (rewrite <- !app_assoc; reflexivity).
    rewrite (sub_first_field hash_key is_hex H eq_refl gap f _ Hf).
    + rewrite IH. rewrite <- !app_assoc. reflexivity.
    + intros x g y Hs Hg.
      destruct (Nat.le_gt_cases (length gap) (length x)) as [?|Hlt];
        [assumption|exfalso].
      replace (gap ++ f ++ rest ++ F ++ b)
        with ((gap ++ f ++ rest) ++ F ++ b) in Hs
        by (rewrite <- !app_assoc; reflexivity).
      destruct (fields_apart _ x g y (gap ++ f ++ rest) F b Hs eq_refl
                  (hash_field_shaped g Hg) SF) as [A|B].
      * destruct (field_in_prefix (gap ++ f ++ rest) (F ++ b) x g y Hs A)
          as (z & Ha & _).
        specialize (Hleft x g z Ha Hg). lia.
      * rewrite !length_app in B. lia.
Qed.

(** The two substitutions of [change_skia_deps] can be made in either
    order. *)
Lemma subs_commute R H s out :
  shaped rev_key R -> shaped hash_key H ->
  replaced_all rev_key is_digit R s out ->
  sub deps_regex_hash H out
  = sub deps_regex_rev R (sub deps_regex_hash H s).
Proof.
  intros SR SH Hr.
  induction Hr as [s Hno|gap f rest out Hf Hleft Hrest IH].
  - change deps_regex_rev with (field_regex rev_key is_digit).
    rewrite (sub_no_field rev_key is_digit R eq_refl); [reflexivity|].
    apply (hash_sub_no_rev H s); [exact SH| |exact Hno].
    apply (sub_replaces_all hash_key is_hex eq_refl).
  - pose proof (sub_replaces_all hash_key is_hex eq_refl H gap) as Rgap.
    pose proof (sub_replaces_all hash_key is_hex eq_refl H) as Rall.
    change (field_regex hash_key is_hex) with deps_regex_hash in Rgap, Rall.
    rewrite (hash_sub_split H R out gap _ SR Rgap).
    rewrite (hash_sub_split H f rest gap _ (rev_shaped f Hf) Rgap).
    set (G := sub deps_regex_hash H gap) in *.
    assert (Hgap : forall x f0 y, gap = x ++ f0 ++ y -> ~ is_rev f0).
    { intros x f0 y Hg Hf0.
      specialize (Hleft x f0 (y ++ f ++ rest)).
      rewrite Hg in Hleft at 1. rewrite <- !app_assoc in Hleft.
      specialize (Hleft eq_refl Hf0).
      pose proof (field_length _ _ _ Hf0).
      rewrite Hg, !length_app in Hleft. lia. }
    pose proof (hash_sub_no_rev H gap G SH Rgap Hgap) as HG.
    change deps_regex_rev with (field_regex rev_key is_digit).
    rewrite (sub_first_field rev_key is_digit R eq_refl G f _ Hf).
    + change (field_regex rev_key is_digit) with deps_regex_rev.
      rewrite IH. reflexivity.
    + intros x g y Hs Hg.
      destruct (Nat.le_gt_cases (length G) (length x)) as [?|Hlt];
        [assumption|exfalso].
      destruct (shaped_apart rev_key rev_key _ x g y G f _ rev_key_ok
                  rev_key_ok Hs eq_refl (rev_shaped g Hg) (rev_shaped f Hf))
        as [A|[B|C]]; [|lia|lia].
      destruct (field_in_prefix G _ x g y Hs A) as (z & HGz & _).
      exact (HG x g z HGz Hg).
Qed.

Lemma fmt_d_digits r : (0 <= r)%Z -> forallb is_digit (fmt_d r) = true.
Proof.
  intros Hr. apply forallb_forall. intros c Hin.
  unfold fmt_d, bs, NilZero.string_of_int in Hin.
  destruct r as [|p|p]; [| |lia].
  - simpl in Hin. destruct Hin as [<-|[]]. reflexivity.
  - simpl Z.to_int in Hin. cbv iota in Hin.
    unfold NilZero.string_of_uint in Hin.
    destruct (Pos.to_uint p); try exact (string_of_uint_digits _ _ Hin).
    simpl in Hin. destruct Hin as [<-|[]]. reflexivity.
Qed.

(** What two rolls make of a line is what the second alone makes of it,
    when the first writes a revision that is not negative and a
    hexadecimal hash. *)
Lemma rewritten_twice r1 h1 r2 h2 s :
  (0 <= r1)%Z -> forallb is_hex h1 = true ->
  rewritten_line r2 h2 (rewritten_line r1 h1 s) = rewritten_line r2 h2 s.
Proof.
  intros Hr Hh. unfold rewritten_line.
  set (R1 := deps_regex_rev_repl r1). set (R2 := deps_regex_rev_repl r2).
  set (H1 := deps_regex_hash_repl h1). set (H2 := deps_regex_hash_repl h2).
  assert (FR1 : is_rev R1) by (exists (fmt_d r1); split;
                               [apply fmt_d_digits; exact Hr|reflexivity]).
  assert (FH1 : is_hash H1) by (exists h1; split; [exact Hh|reflexivity]).
  set (t := sub deps_regex_rev R1 s).
  assert (C : sub deps_regex_hash H1 (sub deps_regex_rev R2 t)
              = sub deps_regex_rev R2 (sub deps_regex_hash H1 t)).
  { apply subs_commute.
    - apply rev_repl_shaped.
    - apply hash_field_shaped. exact FH1.
    - apply (sub_replaces_all rev_key is_digit eq_refl). }
  rewrite <- C.
  assert (A1 : sub deps_regex_rev R2 t = sub deps_regex_rev R2 s).
  { apply (replaced_again rev_key is_digit eq_refl rev_key_ok digit_plain
             R1 R2 s t FR1).
    apply (sub_replaces_all rev_key is_digit eq_refl). }
  rewrite A1.
  apply (replaced_again hash_key is_hex eq_refl hash_key_ok hex_plain
           H1 H2 _ _ FH1).
  apply (sub_replaces_all hash_key is_hex eq_refl).
Qed.

(** X18: the last roll wins.  When [change_skia_deps] has rewritten a
    manifest with a revision that is not negative and a hexadecimal
    hash, and rewrites it a second time, with a hash that holds no
    backslash, the manifest is what the second call alone would have made
    of the first content; in particular a second call with the same
    revision and hash changes nothing. *)
Theorem change_skia_deps_last_roll_wins r1 h1 r2 h2 path w w1 w2 :
  change_skia_deps r1 h1 path w = (Ok tt, w1) ->
  change_skia_deps r2 h2 path w1 = (Ok tt, w2) ->
  path ∉ dirs (fs w) -> path <> deps_tmp w -> path <> deps_tmp w1 ->
  (0 <= r1)%Z -> forallb is_hex h1 = true -> literal_template h2 = true ->
  exists file,
    files (fs w) !! path = Some file
    /\ file_data path w1 = Some (rewritten_line r1 h1 (f_data file))
    /\ file_data path w2 = Some (rewritten_line r2 h2 (f_data file))
    /\ (r2 = r1 -> h2 = h1 -> file_data path w2 = file_data path w1).
Proof.
  intros E1 E2 Hd Ht Ht1 Hr Hh _.
  pose proof (change_skia_deps_outcome r1 h1 path w) as O1.
  rewrite E1 in O1. simpl in O1.
  apply deps_outcome_facts in O1 as (O1 & _).
  destruct (O1 eq_refl Ht (bool_decide_eq_false_2 _ Hd))
    as (file & Hfile & _ & Hdata1).
  rewrite rewritten_lines in Hdata1.
  pose proof (change_skia_deps_frame r1 h1 path w Hd) as (Hdirs & _).
  rewrite E1 in Hdirs. simpl in Hdirs.
  pose proof (change_skia_deps_outcome r2 h2 path w1) as O2.
  rewrite E2 in O2. simpl in O2.
  apply deps_outcome_facts in O2 as (O2 & _).
  destruct (O2 eq_refl Ht1) as (file1 & Hfile1 & _ & Hdata2).
  { apply bool_decide_eq_false_2. rewrite Hdirs. exact Hd. }
  rewrite rewritten_lines in Hdata2.
  unfold file_data in Hdata1. rewrite Hfile1 in Hdata1.
  injection Hdata1 as Hdata1.
  rewrite Hdata1, (rewritten_twice _ _ _ _ _ Hr Hh) in Hdata2.
  exists file. split; [exact Hfile|]. split; [|split; [exact Hdata2|]].
  - unfold file_data. rewrite Hfile1. simpl. rewrite Hdata1. reflexivity.
  - intros -> ->. rewrite Hdata2. unfold file_data. rewrite Hfile1. simpl.
    rewrite Hdata1. reflexivity.
Qed.

(** The sample manifest, rolled to revision 12345 and then to 12346. *)
Lemma change_skia_deps_last_roll_wins_witness :
  let run1 := change_skia_deps 12345 sample_hash (bs "DEPS") sample_world in
  let run2 := change_skia_deps 12346 (bs "c0ffee") (bs "DEPS") (snd run1) in
  fst run1 = Ok tt /\ fst run2 = Ok tt
  /\ file_data (bs "DEPS") (snd run2)
     = Some (rewritten_line 12346 (bs "c0ffee") sample_manifest).
Proof.
  intros run1 run2.
  assert (E1 : run1 = (Ok tt, snd run1)).
  { assert (H : fst run1 = Ok tt) by (vm_compute; reflexivity).
    destruct run1 as [r w1]. simpl in *. rewrite H. reflexivity. }
  assert (E2 : run2 = (Ok tt, snd run2)).
  { assert (H : fst run2 = Ok tt) by (vm_compute; reflexivity).
    destruct run2 as [r w2]. simpl in *. rewrite H. reflexivity. }
  split; [rewrite E1; reflexivity|]. split; [rewrite E2; reflexivity|].
  destruct (change_skia_deps_last_roll_wins 12345 sample_hash 12346 (bs "c0ffee")
              (bs "DEPS") sample_world (snd run1) (snd run2) E1 E2)
    as (file & Hfile & _ & Hdata & _).
  - apply (bool_decide_eq_false_1 _). reflexivity.
  - intros H. vm_compute in H. discriminate H.
  - intros H. vm_compute in H. discriminate H.
  - lia.
  - reflexivity.
  - reflexivity.
  - rewrite Hdata. injection Hfile as <-. reflexivity.
Defined.

(** ** The revision locator in a configured checkout *)

Lemma fetch_ok g dir w history :
  programs w !! g = Some GitProgram ->
  checkouts (skia w) !! dir = Some history ->
  network (skia w) = true ->
  exists w',
    check_call g Fetch (Some dir) w = (Ok tt, w')
    /\ programs w' = programs w
    /\ checkouts (skia w') !! dir = Some (fetched (remote (skia w)) history).
Proof.
  intros Hg Hd Hn. unfold check_call, bind, subprocess_call. rewrite Hg.
  unfold git_exec, skia_step. simpl skia. rewrite Hd, Hn. simpl.
  eexists. split; [reflexivity|]. simpl. split; [reflexivity|].
  apply lookup_insert_eq.
Qed.

(** X19: with a Skia checkout configured, git at hand and the network
    up, [find_revision_and_hash] fetches and then searches the history
    the checkout has after the fetch: the commits the remote has on top
    of what the checkout holds, and what the checkout holds (a shallow
    checkout stays shallow).  The search depth plays no part.  When
    exactly one commit of that history carries the marker of the revision
    asked for, which is not negative, it returns the revision and the
    hash of that commit. *)
Theorem find_revision_and_hash_in_checkout config r w c path old commit :
  skia_git_checkout_path config = Some (c :: path) ->
  programs w !! git config = Some GitProgram ->
  checkouts (skia w) !! (c :: path) = Some old ->
  network (skia w) = true ->
  List.filter (marks r) (fetched (remote (skia w)) old) = [commit] ->
  (0 <= r)%Z -> c_hash commit <> [] -> stripped (c_hash commit) ->
  fst (find_revision_and_hash config (Some r) w) = Ok (r, c_hash commit).
Proof.
  intros Hpath Hg Hold Hn Hone Hr Hne Hs.
  destruct (fetch_ok _ _ _ _ Hg Hold Hn) as (w1 & Hfetch & Hp & Hco).
  unfold find_revision_and_hash. rewrite Hpath. cbv zeta.
  unfold bind at 1. unfold bind at 1. rewrite Hfetch.
  unfold ret at 1. simpl fst. simpl snd.
  unfold try_finally.
  change (bind _ _ w1)
    with (lookup_revision config (Some r) (c :: path) w1).
  destruct (fetched (remote (skia w)) old) as [|c0 history] eqn:Hrem;
    [discriminate Hone|].
  rewrite <- Hp in Hg.
  pose proof (lookup_revision_some config r _ w1 c0 history Hg Hco) as L.
  fold (marks r) in L. rewrite Hone in L. simpl in L.
  rewrite (strip_of_stripped _ Hs) in L.
  destruct (c_hash commit) as [|a h] eqn:Eh; [contradiction|].
  apply Z.ltb_ge in Hr. rewrite Hr in L. simpl in L.
  destruct (lookup_revision config (Some r) (c :: path) w1) as [res w2].
  simpl in L. subst res. reflexivity.
Qed.

(** The checkout of the sample world holds the commit of revision 12344;
    the fetch brings the two newer commits of the remote, and revision
    12345 is found with a search depth of 1. *)
Lemma find_revision_and_hash_in_checkout_witness :
  search_depth checkout_config = 1%Z
  /\ fetched (remote (skia checkout_world)) [sample_commit 12344 (bs "decade")]
     = remote (skia checkout_world)
  /\ fst (find_revision_and_hash checkout_config (Some 12345%Z) checkout_world)
     = Ok (12345%Z, sample_hash).
Proof.
  split; [reflexivity|]. split; [reflexivity|].
  apply (find_revision_and_hash_in_checkout checkout_config 12345
           checkout_world "/"%char (bs "src/skia")
           [sample_commit 12344 (bs "decade")]
           (sample_commit 12345 sample_hash));
    try reflexivity; try lia; try discriminate.
  split; reflexivity.
Defined.

(** ** The issue __exit__ records *)

(** X20: with git at hand and the upload not skipped, [__exit__] returns
    only when [git cl upload] and [git cl issue] exit with status 0, and
    [git cl try] as well if there are bots; the issue it records is then
    the output of [git cl issue] without the white space around it. *)
Theorem exit_records_issue self w self' w' :
  programs w !! git (t_config self) = Some GitProgram ->
  skip_cl_upload (t_config self) = false ->
  __exit__ self w = (Ok self', w') ->
  issue self' = Some (strip (snd (cl_issue (review w))))
  /\ cl_upload_status (review w) = 0%Z
  /\ fst (cl_issue (review w)) = 0%Z
  /\ (cl_bot_list (t_config self) <> [] -> cl_try_status (review w) = 0%Z).
Proof.
  intros Hg Hskip E.
  unfold __exit__ in E. cbv zeta in E. rewrite Hskip in E. cbv iota in E.
  apply bind_ok in E as (u1 & wa & Ha & E).
  apply bind_ok in E as (u2 & wb & Hb & E).
  pose proof (stage_loop_stays_put _ _ _ _ _ Ha) as (Pa & Va & _).
  pose proof (commit_stays_put _ _ _ _ _ Hb) as (Pb & Vb & _).
  assert (Pw : programs wb !! git (t_config self) = Some GitProgram)
    by (rewrite Pb, Pa; exact Hg).
  assert (Vw : review wb = review w) by congruence.
  apply bind_ok in E as (new_issue & wc & Hc & E).
  apply bind_ok in Hc as (u3 & wd & Hd & Hc).
  apply bind_ok in Hc as (uploaded & we & He & Hc).
  apply bind_ok in Hc as (u4 & wf & Hf & Hc).
  injection Hc as <- _.
  (* the upload *)
  assert (Hup : cl_upload_status (review wb) = 0%Z
                /\ programs wd = programs wb /\ review wd = review wb).
  { destruct (verbose (t_config self)).
    - apply bind_ok in Hd as (u5 & wg & Hd & Hp). injection Hp as _ <-.
      unfold check_call, bind, subprocess_call in Hd. rewrite Pw in Hd.
      simpl in Hd.
      destruct (cl_upload_status (review wb) =? 0)%Z eqn:Est;
        [|discriminate Hd].
      injection Hd as _ <-. apply Z.eqb_eq in Est. repeat split; auto.
    - unfold quiet_check_call, check_call, bind, subprocess_call in Hd.
      rewrite Pw in Hd. simpl in Hd.
      destruct (cl_upload_status (review wb) =? 0)%Z eqn:Est;
        [|discriminate Hd].
      injection Hd as _ <-. apply Z.eqb_eq in Est. repeat split; auto. }
  destruct Hup as (Hup & Pd & Vd).
  (* the issue *)
  assert (His : fst (cl_issue (review wd)) = 0%Z
                /\ uploaded = strip (snd (cl_issue (review wd)))
                /\ programs we = programs wd /\ review we = review wd).
  { unfold strip_output, check_output, bind, subprocess_call in He.
    rewrite Pd, Pw in He. simpl in He.
    destruct (fst (cl_issue (review wd)) =? 0)%Z eqn:Est; [|discriminate He].
    injection He as <- <-. apply Z.eqb_eq in Est. auto. }
  destruct His as (His & -> & Pe & Ve).
  (* the rest only restores *)
  apply bind_ok in E as (u6 & wg & _ & E).
  apply bind_ok in E as (u7 & wh & _ & E).
  apply bind_ok in E as (u8 & wi & _ & E).
  injection E as <- _. simpl issue.
  rewrite Vd, Vw in His. rewrite Vw in Hup. rewrite Vd, Vw.
  repeat split; try assumption.
  intros Hbots.
  destruct (cl_bot_list (t_config self)) as [|bot bots] eqn:Eb;
    [contradiction|].
  simpl when in Hf.
  assert (Pt : programs we !! git (t_config self) = Some GitProgram)
    by (rewrite Pe, Pd; exact Pw).
  assert (Vt : review we = review w) by congruence.
  destruct (verbose (t_config self)).
  - apply bind_ok in Hf as (u5 & wj & Hf & _).
    unfold check_call, bind, subprocess_call in Hf. rewrite Pt in Hf.
    simpl in Hf. rewrite Vt in Hf.
    destruct (cl_try_status (review w) =? 0)%Z eqn:Est; [|discriminate Hf].
    apply Z.eqb_eq in Est. exact Est.
  - unfold quiet_check_call, check_call, bind, subprocess_call in Hf.
    rewrite Pt in Hf. simpl in Hf. rewrite Vt in Hf.
    destruct (cl_try_status (review w) =? 0)%Z eqn:Est; [|discriminate Hf].
    apply Z.eqb_eq in Est. exact Est.
Qed.

(** The sample transaction at the end of its body. *)
Lemma exit_records_issue_witness :
  let run := __exit__ (entered_self sample_config [bs "DEPS"])
               (edit_deps (entered_world sample_review)) in
  match fst run with
  | Ok self' =>
      issue self'
      = Some (bs "Issue number: 42 (https://codereview.chromium.org/42)")
  | Raise _ => False
  end.
Proof.
  intros run.
  destruct run as [[self'|e] w'] eqn:E.
  - simpl.
    destruct (exit_records_issue (entered_self sample_config [bs "DEPS"])
                (edit_deps (entered_world sample_review)) self' w')
      as (H & _); [reflexivity|reflexivity|exact E|].
    rewrite H. reflexivity.
  - exfalso. assert (H : fst run = Raise e) by (rewrite E; reflexivity).
    vm_compute in H. discriminate H.
Defined.
